(** * Perceval backend for Gitee: a shallow embedding of [gitee.py]

    The development follows [perceval/backends/gitee/gitee.py]:

    - JSON values with the Python operations the backend applies to them
      (truthiness, subscripting, item assignment, iteration);
    - a state-and-exception monad for the code that talks to the network
      and touches the client caches;
    - [GiteeClient]: [fetch], the link-driven generator [fetch_items]
      (as a resumable state machine) and the cached [user] / [user_orgs];
    - [Gitee]: user resolution, the sub-fetches of the enrichment
      pipeline, the three category drivers and the category dispatch;
    - the properties of the harvesting engine.

    What lives outside this file of the repository (the HTTP transport of
    [HttpClient], [json.loads], [str_to_datetime], [urijoin], the clock) is
    taken as a parameter, see [library]. *)

From Stdlib Require Import ZArith List String Ascii Bool Lia Sorted.
From Stdlib Require DecimalString.
Import ListNotations.
Set Warnings "-register-all".
Local Open Scope string_scope.
Local Open Scope Z_scope.
Local Open Scope list_scope.

(* ================================================================== *)
(** ** JSON values *)

(** What [json.loads] returns.  Numbers are integers: the backend never
    computes with the fractional numbers of a payload. *)
Inductive json : Type :=
| JNull
| JBool (b : bool)
| JNum (n : Z)
| JStr (s : string)
| JArr (l : list json)
| JObj (m : list (string * json)).

(** A Python [dict] with string keys, in insertion order. *)
Definition dict := list (string * json).

Fixpoint dict_get (k : string) (m : dict) : option json :=
  match m with
  | [] => None
  | (k', v) :: m' => if String.eqb k k' then Some v else dict_get k m'
  end.

(** [m[k] = v]: replaces the value in place, or appends a new entry. *)
Fixpoint dict_set (k : string) (v : json) (m : dict) : dict :=
  match m with
  | [] => [(k, v)]
  | (k', v') :: m' =>
      if String.eqb k k' then (k, v) :: m' else (k', v') :: dict_set k v m'
  end.

(** [k in m] *)
Definition dict_in (k : string) (m : dict) : bool :=
  match dict_get k m with Some _ => true | None => false end.

(** Python truthiness ([if x], [not x]). *)
Definition truthy (j : json) : bool :=
  match j with
  | JNull => false
  | JBool b => b
  | JNum n => negb (n =? 0)
  | JStr s => negb (String.eqb s "")
  | JArr l => match l with [] => false | _ :: _ => true end
  | JObj m => match m with [] => false | _ :: _ => true end
  end.

(** The exceptions that can travel through the backend. *)
Inductive exn : Type :=
| HTTPError (status_code : Z)     (* requests.exceptions.HTTPError *)
| RequestException                (* any other failure of the transport *)
| KeyError (key : string)
| TypeError
| ValueError
| AttributeError
| JSONDecodeError
| InvalidDateError
| BackendError.                     (* perceval.errors.BackendError *)

(** The result of running a piece of code: a value, a raised exception, or
    [OutOfFuel] when the bound on the number of generator steps given to the
    model was reached before the code finished. *)
Inductive result (A : Type) : Type :=
| Ok (a : A)
| Raise (e : exn)
| OutOfFuel.
Arguments Ok {A} a.
Arguments Raise {A} e.
Arguments OutOfFuel {A}.

Definition of_sum {A : Type} (x : A + exn) : result A :=
  match x with inl a => Ok a | inr e => Raise e end.

(** [j[k]] with a string subscript. *)
Definition getitem (j : json) (k : string) : result json :=
  match j with
  | JObj m => match dict_get k m with
              | Some v => Ok v
              | None => Raise (KeyError k)
              end
  | _ => Raise TypeError
  end.

(** [j[k] = v] with a string subscript. *)
Definition setitem (j : json) (k : string) (v : json) : result json :=
  match j with
  | JObj m => Ok (JObj (dict_set k v m))
  | _ => Raise TypeError
  end.

(** [j.get(k)] and [j.get(k, None)]. *)
Definition py_get (j : json) (k : string) : result json :=
  match j with
  | JObj m => match dict_get k m with
              | Some v => Ok v
              | None => Ok JNull
              end
  | _ => Raise AttributeError
  end.

Fixpoint chars (s : string) : list json :=
  match s with
  | EmptyString => []
  | String c s' => JStr (String c EmptyString) :: chars s'
  end.

(** [for x in j] *)
Definition py_iter (j : json) : result (list json) :=
  match j with
  | JArr l => Ok l
  | JObj m => Ok (map (fun kv => JStr (fst kv)) m)
  | JStr s => Ok (chars s)
  | _ => Raise TypeError
  end.

(** Keys of the client caches: [login in self._users] needs a hashable
    login, and Python identifies [True] with [1] and [False] with [0]. *)
Definition hashable (j : json) : bool :=
  match j with
  | JArr _ | JObj _ => false
  | _ => true
  end.

Definition key_eqb (a b : json) : bool :=
  match a, b with
  | JNull, JNull => true
  | JStr x, JStr y => String.eqb x y
  | JNum x, JNum y => x =? y
  | JBool x, JBool y => Bool.eqb x y
  | JBool x, JNum y => (if x then 1 else 0) =? y
  | JNum x, JBool y => x =? (if y then 1 else 0)
  | _, _ => false
  end.

Definition cache := list (json * string).

Fixpoint cache_get (k : json) (c : cache) : option string :=
  match c with
  | [] => None
  | (k', v) :: c' => if key_eqb k k' then Some v else cache_get k c'
  end.

Fixpoint cache_set (k : json) (v : string) (c : cache) : cache :=
  match c with
  | [] => [(k, v)]
  | (k', v') :: c' =>
      if key_eqb k k' then (k', v) :: c' else (k', v') :: cache_set k v c'
  end.

(** [int(c)] for a one-character string. *)
Definition int_of_char (c : ascii) : option Z :=
  let n := Z.of_N (N_of_ascii c) in
  if (48 <=? n) && (n <=? 57) then Some (n - 48) else None.

(* ================================================================== *)
(** ** Module constants *)

Definition CATEGORY_ISSUE : string := "issue".
Definition CATEGORY_PULL_REQUEST : string := "pull_request".
Definition CATEGORY_REPO : string := "repository".

Definition PER_PAGE : Z := 100.

Definition TARGET_ISSUE_FIELDS : list string :=
  ["user"; "assignee"; "collaborators"; "comments"].
Definition TARGET_PULL_FIELDS : list string :=
  ["user"; "assignees"; "number"; "assignees"; "testers"].

(* ================================================================== *)
(** ** The network, the client state and the monad *)

(** The attributes of a [requests.Response] that the client reads:
    [response.text], [response.headers.get('total_page')] and
    [response.links['next']['url']] (absent when there is no next link). *)
Record response : Type := mkResponse {
  text : string;
  header_total_page : option string;
  links_next : option string
}.

(** What [HttpClient.fetch] does with a request: it returns a response, or
    raises ([raise_for_status] turns an error status into [HTTPError]). *)
Inductive reply : Type :=
| Reply (r : response)
| Failure (e : exn).

(** The method of [GiteeClient] that issued a request.  The transport does
    not see it: it only labels the request in the record of the network
    traffic. *)
Inductive origin : Type :=
| OIssues | OPulls | OIssueComments | OPullActionLogs | OPullCommits
| OPullReviewComments | OUser | OUserOrgs | ORepo | ORepoReleases.

Definition origin_eqb (a b : origin) : bool :=
  match a, b with
  | OIssues, OIssues | OPulls, OPulls | OIssueComments, OIssueComments
  | OPullActionLogs, OPullActionLogs | OPullCommits, OPullCommits
  | OPullReviewComments, OPullReviewComments | OUser, OUser
  | OUserOrgs, OUserOrgs | ORepo, ORepo | ORepoReleases, ORepoReleases => true
  | _, _ => false
  end.

(** One request as it went over the wire, with its answer. *)
Record exchange : Type := mkExchange {
  ex_origin : origin;
  ex_url : string;
  ex_payload : option dict;
  ex_reply : reply
}.

Inductive level : Type := DEBUG | INFO | WARNING | ERROR.

Record log_record : Type := mkLog {
  log_level : level;
  log_msg : string;
  log_args : list json
}.

(** The collaborators of the backend that are not part of [gitee.py], and
    the attributes a [GiteeClient] is constructed with.  [World] is the
    server and everything between it and the client. *)
Record library (World : Type) : Type := mkLibrary {
  (* perceval.client.HttpClient.fetch(url, payload) *)
  HttpClient_fetch : World -> string -> option dict -> reply * World;
  (* json.loads *)
  json_loads : string -> json + exn;
  (* grimoirelab_toolkit.datetime.str_to_datetime, as an instant in UTC *)
  str_to_datetime : json -> Z + exn;
  (* grimoirelab_toolkit.uris.urijoin; it applies str() to its arguments *)
  urijoin : list json -> string;
  (* datetime.isoformat *)
  isoformat : Z -> string;
  (* datetime_utcnow().timestamp() *)
  utcnow_timestamp : World -> Z;
  (* perceval.utils.DEFAULT_DATETIME and DEFAULT_LAST_DATETIME *)
  DEFAULT_DATETIME : Z;
  DEFAULT_LAST_DATETIME : Z;
  (* attributes of the client *)
  base_url : string;
  owner : string;
  repository : string;
  access_token : option string;
  max_items : Z
}.

Arguments HttpClient_fetch {World} l _ _ _.
Arguments json_loads {World} l _.
Arguments str_to_datetime {World} l _.
Arguments urijoin {World} l _.
Arguments isoformat {World} l _.
Arguments utcnow_timestamp {World} l _.
Arguments DEFAULT_DATETIME {World} l.
Arguments DEFAULT_LAST_DATETIME {World} l.
Arguments base_url {World} l.
Arguments owner {World} l.
Arguments repository {World} l.
Arguments access_token {World} l.
Arguments max_items {World} l.

(** The state a harvest runs in.  [users] and [users_orgs] are the two
    caches of [GiteeClient]; [net] is every request issued so far, oldest
    first; [logs] is what went to the logger. *)
Record state (World : Type) : Type := mkState {
  world : World;
  users : cache;
  users_orgs : cache;
  net : list exchange;
  logs : list log_record
}.
Arguments mkState {World} _ _ _ _ _.
Arguments world {World} s.
Arguments users {World} s.
Arguments users_orgs {World} s.
Arguments net {World} s.
Arguments logs {World} s.

(* ================================================================== *)
(** ** The monad and the loops *)

(** A computation in the state of a harvest. *)
Definition M (World : Type) (A : Type) : Type :=
  state World -> result A * state World.

(** How the body of a loop ends: it falls through to the next iteration
    (also by [continue]), it leaves the loop by [break], or it leaves the
    whole function by [return]. *)
Inductive flow : Type := Next | Break | Return.

(** A statement working on a local variable of type [Acc] (a list being
    appended to, the item being enriched).  The local variable survives an
    exception, as the [hashes] of [__get_pull_commits] and the items a
    generator has already yielded do. *)
Definition step (World : Type) (Acc : Type) : Type :=
  Acc -> state World -> (Acc * result flow) * state World.

Section Monad.

Context {World : Type}.

Definition ret {A : Type} (a : A) : M World A := fun s => (Ok a, s).

Definition raise {A : Type} (e : exn) : M World A := fun s => (Raise e, s).

Definition bind {A B : Type} (m : M World A) (k : A -> M World B) : M World B :=
  fun s =>
    match m s with
    | (Ok a, s') => k a s'
    | (Raise e, s') => (Raise e, s')
    | (OutOfFuel, s') => (OutOfFuel, s')
    end.

Definition pure {A : Type} (r : result A) : M World A := fun s => (r, s).

Definition logger (l : level) (msg : string) (args : list json)
  : M World unit :=
  fun s => (Ok tt,
            mkState (world s) (users s) (users_orgs s) (net s)
                    (logs s ++ [mkLog l msg args])).

Definition set_users (login : json) (user : string) : M World unit :=
  fun s => (Ok tt, mkState (world s) (cache_set login user (users s))
                           (users_orgs s) (net s) (logs s)).

Definition set_users_orgs (login : json) (orgs : string) : M World unit :=
  fun s => (Ok tt, mkState (world s) (users s)
                           (cache_set login orgs (users_orgs s))
                           (net s) (logs s)).

(** [try: m  except HTTPError as error: h error.response.status_code] *)
Definition except_HTTPError {A : Type} (m : M World A)
  (h : Z -> M World A) : M World A :=
  fun s =>
    match m s with
    | (Raise (HTTPError code), s') => h code s'
    | r => r
    end.

Definition run {Acc A : Type} (m : M World A) (k : A -> step World Acc)
  : step World Acc :=
  fun acc s =>
    match m s with
    | (Ok a, s') => k a acc s'
    | (Raise e, s') => ((acc, Raise e), s')
    | (OutOfFuel, s') => ((acc, OutOfFuel), s')
    end.

Definition exit {Acc : Type} (f : flow) : step World Acc :=
  fun acc s => ((acc, Ok f), s).

(** [acc.append(x)], and [yield x] seen from the consumer. *)
Definition append {X : Type} (x : X) : step World (list X) :=
  fun acc s => ((acc ++ [x], Ok Next), s).

(** [acc = x] followed by leaving the body with [f]. *)
Definition assign {Acc : Type} (x : Acc) (f : flow) : step World Acc :=
  fun _ s => ((x, Ok f), s).

(** [for x in xs: body] *)
Fixpoint for_each {X Acc : Type} (body : X -> step World Acc) (xs : list X)
  : step World Acc :=
  fun acc s =>
    match xs with
    | [] => ((acc, Ok Next), s)
    | x :: xs' =>
        match body x acc s with
        | ((acc', Ok Next), s') => for_each body xs' acc' s'
        | ((acc', Ok Break), s') => ((acc', Ok Next), s')
        | r => r
        end
    end.

(** The value of the local variable once the statement is over. *)
Definition final {Acc : Type} (st : step World Acc) (init : Acc)
  : M World Acc :=
  fun s =>
    match st init s with
    | ((acc, Ok _), s') => (Ok acc, s')
    | ((_, Raise e), s') => (Raise e, s')
    | ((_, OutOfFuel), s') => (OutOfFuel, s')
    end.

Definition iter (j : json) : M World (list json) := pure (py_iter j).
Definition item (j : json) (k : string) : M World json := pure (getitem j k).
Definition set_item (j : json) (k : string) (v : json) : M World json :=
  pure (setitem j k v).
Definition get (j : json) (k : string) : M World json := pure (py_get j k).

End Monad.

Notation "x <- m ;; k" := (bind m (fun x => k))
  (at level 61, m at next level, right associativity).
Notation "m ;; k" := (bind m (fun _ => k))
  (at level 61, right associativity).
Notation "x <~ m ;; k" := (run m (fun x => k))
  (at level 61, m at next level, right associativity).

(** [GiteeClient.fetch_items] is a generator.  It is modelled by the points
    where it is suspended: not started yet, or stopped at its [yield] with
    the local variables [payload], [response], [page] and [total_page]
    ([None] when it is not an [int]). *)
Inductive pager : Type :=
| PagerNew (o : origin) (path : string) (payload : dict)
| PagerYielded (o : origin) (payload : dict) (response : response)
               (page : Z) (total_page : option Z).

(* ================================================================== *)
(** ** class GiteeClient *)

Module GiteeClient.
Section Client.

Context {World : Type}.
Variable L : library World.

(** The payload [GiteeClient.fetch] sends: the access token, when there is
    one, is added to the payload of the caller. *)
Definition add_access_token (payload : option dict) : option dict :=
  match access_token L with
  | Some tok =>
      if String.eqb tok "" then payload
      else
        let p := match payload with
                 | Some (kv :: p') => kv :: p'
                 | _ => []
                 end in
        Some (dict_set "access_token" (JStr tok) p)
  | None => payload
  end.

(** [GiteeClient.fetch], called from the method [o]: it hands the request
    to the transport and keeps a record of the exchange. *)
Definition fetch (o : origin) (url : string) (payload : option dict)
  : M World response :=
  fun s =>
    let payload := add_access_token payload in
    let (rep, w) := HttpClient_fetch L (world s) url payload in
    let s' := mkState w (users s) (users_orgs s)
                      (net s ++ [mkExchange o url payload rep]) (logs s) in
    match rep with
    | Reply r => (Ok r, s')
    | Failure e => (Raise e, s')
    end.

(** The test of [while items:] followed by [yield items]. *)
Definition while_items (o : origin) (payload : dict) (response : response)
  (page : Z) (total_page : option Z) : M World (option (string * pager)) :=
  if String.eqb (text response) "" then ret None
  else ret (Some (text response,
                  PagerYielded o payload response page total_page)).

(** One [next()] on the generator of [fetch_items]: [Some (items, g)] when
    it yields [items] and is suspended as [g], [None] when it is
    exhausted. *)
Definition fetch_items_next (g : pager) : M World (option (string * pager)) :=
  match g with
  | PagerNew o path payload =>
      let page := 0 in
      let url_next :=
        urijoin L [JStr (base_url L); JStr "repos"; JStr (owner L);
                   JStr (repository L); JStr path] in
      logger DEBUG ("Get Gitee paginated items from " ++ url_next) [] ;;
      response <- fetch o url_next (Some payload) ;;
      let page := page + 1 in
      total_page <-
        match header_total_page response with
        | Some (String c _) =>
            match int_of_char c with
            | Some n =>
                logger DEBUG "Page: %i/%i" [JNum page; JNum n] ;;
                ret (Some n)
            | None => raise ValueError
            end
        | _ => ret None
        end ;;
      while_items o payload response page total_page
  | PagerYielded o payload response page total_page =>
      match links_next response with
      | Some url_next =>
          response <- fetch o url_next (Some payload) ;;
          let page := page + 1 in
          match total_page with
          | Some n => logger DEBUG "Page: %i/%i" [JNum page; JNum n]
          | None => raise TypeError
          end ;;
          while_items o payload response page total_page
      | None => ret None
      end
  end.

(** [GiteeClient.fetch_items]: calling it creates the generator. *)
Definition fetch_items (o : origin) (path : string) (payload : dict)
  : pager :=
  PagerNew o path payload.

(** The methods that hand out a generator.  [urijoin] applies [str] to
    its arguments, so [str(pr_number)] and [pr_number] give the same
    path. *)
Definition issue_comments (issue_number : json) : pager :=
  let payload := [("per_page", JNum PER_PAGE)] in
  let path := urijoin L [JStr "issues"; issue_number; JStr "comments"] in
  fetch_items OIssueComments path payload.

Definition issues (from_date : option Z) : pager :=
  let payload := [("state", JStr "all"); ("per_page", JNum (max_items L));
                  ("direction", JStr "asc"); ("sort", JStr "updated")] in
  let payload := match from_date with
                 | Some d => dict_set "since" (JStr (isoformat L d)) payload
                 | None => payload
                 end in
  let path := urijoin L [JStr "issues"] in
  fetch_items OIssues path payload.

Definition pulls (from_date : option Z) : pager :=
  let payload := [("state", JStr "all"); ("per_page", JNum 100);
                  ("direction", JStr "asc"); ("sort", JStr "updated")] in
  let payload := match from_date with
                 | Some d => dict_set "since" (JStr (isoformat L d)) payload
                 | None => payload
                 end in
  let path := urijoin L [JStr "pulls"] in
  fetch_items OPulls path payload.

Definition pull_action_logs (pr_number : json) : pager :=
  let pull_action_logs_path :=
    urijoin L [JStr "pulls"; pr_number; JStr "operate_logs"] in
  fetch_items OPullActionLogs pull_action_logs_path [].

Definition pull_commits (pr_number : json) : pager :=
  let payload := [("per_page", JNum PER_PAGE)] in
  let commit_url := urijoin L [JStr "pulls"; pr_number; JStr "commits"] in
  fetch_items OPullCommits commit_url payload.

Definition pull_review_comments (pr_number : json) : pager :=
  let payload := [("per_page", JNum PER_PAGE); ("direction", JStr "asc")] in
  let comments_url := urijoin L [JStr "pulls"; pr_number; JStr "comments"] in
  fetch_items OPullReviewComments comments_url payload.

Definition repo : M World string :=
  let path := urijoin L [JStr (base_url L); JStr "repos"; JStr (owner L);
                         JStr (repository L)] in
  r <- fetch ORepo path None ;;
  ret (text r).

Definition repo_releases : M World string :=
  let path := urijoin L [JStr (base_url L); JStr "repos"; JStr (owner L);
                         JStr (repository L);
                         JStr "releases?page=1&per_page=100"] in
  r <- fetch ORepoReleases path None ;;
  ret (text r).

(** [GiteeClient.user] *)
Definition user (login : json) : M World string :=
  fun s =>
    if negb (hashable login) then (Raise TypeError, s)
    else
      match cache_get login (users s) with
      | Some cached => (Ok cached, s)
      | None =>
          let url_user := urijoin L [JStr (base_url L); JStr "users"; login] in
          (logger DEBUG "Getting info for %s" [JStr url_user] ;;
           r <- fetch OUser url_user None ;;
           let user := text r in
           set_users login user ;;
           ret user) s
      end.

(** [GiteeClient.user_orgs] *)
Definition user_orgs (login : json) : M World string :=
  fun s =>
    if negb (hashable login) then (Raise TypeError, s)
    else
      match cache_get login (users_orgs s) with
      | Some cached => (Ok cached, s)
      | None =>
          let url := urijoin L [JStr (base_url L); JStr "users"; login;
                                JStr "orgs"] in
          (orgs <- except_HTTPError
                     (r <- fetch OUserOrgs url None ;;
                      ret (text r))
                     (fun status_code =>
                        if status_code =? 404 then
                          logger ERROR "Can't get gitee login orgs with %s"
                                 [JStr url] ;;
                          ret "[]"
                        else raise (HTTPError status_code)) ;;
           set_users_orgs login orgs ;;
           ret orgs) s
      end.

End Client.
End GiteeClient.

(* ================================================================== *)
(** ** Loops over a generator *)

Section Generators.

Context {World : Type}.
Variable L : library World.

(** [for items in g: body] over a generator of the client; every [next()]
    on the generator costs one unit of fuel. *)
Fixpoint for_pages {Acc : Type} (fuel : nat) (body : string -> step World Acc)
  (g : pager) : step World Acc :=
  fun acc s =>
    match fuel with
    | O => ((acc, OutOfFuel), s)
    | S fuel' =>
        match GiteeClient.fetch_items_next L g s with
        | (Ok (Some (items, g')), s') =>
            match body items acc s' with
            | ((acc', Ok Next), s'') => for_pages fuel' body g' acc' s''
            | ((acc', Ok Break), s'') => ((acc', Ok Next), s'')
            | r => r
            end
        | (Ok None, s') => ((acc, Ok Next), s')
        | (Raise e, s') => ((acc, Raise e), s')
        | (OutOfFuel, s') => ((acc, OutOfFuel), s')
        end
    end.

(** [list(g)]: every page a generator yields. *)
Definition pages (fuel : nat) (g : pager) : M World (list string) :=
  final (for_pages fuel (fun items => append items) g) [].

(** [json.loads(raw)] *)
Definition loads (raw : string) : M World json :=
  pure (of_sum (json_loads L raw)).

End Generators.

(* ================================================================== *)
(** ** class Gitee *)

Module Gitee.
Section Backend.

Context {World : Type}.
Variable L : library World.

(** *** User resolution and the enrichment sub-fetches *)

Section Harvest.

(** [self.exclude_user_data], set by [fetch] before any item is fetched. *)
Variable exclude_user_data : bool.

(** [Gitee.__get_user] *)
Definition __get_user (login : json) : M World json :=
  if negb (truthy login) || exclude_user_data then ret JNull
  else
    user_raw <- GiteeClient.user L login ;;
    user <- loads L user_raw ;;
    user_orgs_raw <- GiteeClient.user_orgs L login ;;
    orgs <- loads L user_orgs_raw ;;
    set_item user "organizations" orgs.

(** [Gitee.__get_users] *)
Definition __get_users (items : json) : M World json :=
  l <- iter items ;;
  users <- final (for_each (fun item_ =>
                      login <~ item item_ "login" ;;
                      user <~ __get_user login ;;
                      append user) l) [] ;;
  ret (JArr users).

(** [Gitee.__get_issue_assignee] *)
Definition __get_issue_assignee (raw_assignee : json) : M World json :=
  login <- item raw_assignee "login" ;;
  __get_user login.

(** [Gitee.__get_issue_collaborators] *)
Definition __get_issue_collaborators (raw_collaborators : json)
  : M World json :=
  l <- iter raw_collaborators ;;
  collaborators <- final (for_each (fun ra =>
                              login <~ item ra "login" ;;
                              user <~ __get_user login ;;
                              append user) l) [] ;;
  ret (JArr collaborators).

(** [Gitee.__get_issue_comments] *)
Definition __get_issue_comments (fuel : nat) (issue_number : json)
  : M World json :=
  let group_comments := GiteeClient.issue_comments L issue_number in
  comments <-
    final (for_pages L fuel (fun raw_comments =>
             decoded <~ loads L raw_comments ;;
             l <~ iter decoded ;;
             for_each (fun comment =>
                 comment_id <~ get comment "id" ;;
                 user <~ item comment "user" ;;
                 login <~ item user "login" ;;
                 user_data <~ __get_user login ;;
                 comment <~ set_item comment "user_data" user_data ;;
                 append comment) l)
           group_comments) [] ;;
  ret (JArr comments).

(** [action_log["action_type"] == "merged_pr"] *)
Definition is_merged_pr (action_type : json) : bool :=
  match action_type with
  | JStr s => String.eqb s "merged_pr"
  | _ => false
  end.

(** [Gitee.__get_pull_merged_by] *)
Definition __get_pull_merged_by (fuel : nat) (pr_number : json)
  : M World json :=
  let group_raw_action_logs := GiteeClient.pull_action_logs L pr_number in
  final (for_pages L fuel (fun raw_action_logs =>
           action_logs <~ loads L raw_action_logs ;;
           l <~ iter action_logs ;;
           for_each (fun action_log =>
               action_type <~ item action_log "action_type" ;;
               if is_merged_pr action_type then
                 user <~ item action_log "user" ;;
                 login <~ item user "login" ;;
                 assign login Break
               else exit Next) l)
         group_raw_action_logs) JNull.

(** [try: st  except HTTPError as error:] with the handler of the two
    tolerant sub-fetches: a 404 is logged, anything else is raised again.
    The list built so far is what the function then returns. *)
Definition tolerate_404 (st : step World (list json)) (msg : string)
  (pr_number : json) : M World json :=
  fun s =>
    match st [] s with
    | ((acc, Ok _), s') => (Ok (JArr acc), s')
    | ((acc, Raise (HTTPError status_code)), s') =>
        if status_code =? 404 then
          (logger ERROR msg [pr_number] ;; ret (JArr acc)) s'
        else (Raise (HTTPError status_code), s')
    | ((_, Raise e), s') => (Raise e, s')
    | ((_, OutOfFuel), s') => (OutOfFuel, s')
    end.

(** [Gitee.__get_pull_commits] *)
Definition __get_pull_commits (fuel : nat) (pr_number : json) : M World json :=
  tolerate_404
    (for_pages L fuel (fun raw_pull_commits =>
       decoded <~ loads L raw_pull_commits ;;
       l <~ iter decoded ;;
       for_each (fun commit =>
           commit_hash <~ item commit "sha" ;;
           append commit_hash) l)
     (GiteeClient.pull_commits L pr_number))
    "Can't get gitee pull request commits with PR number %s" pr_number.

(** [Gitee.__get_pull_review_comments] *)
Definition __get_pull_review_comments (fuel : nat) (pr_number : json)
  : M World json :=
  tolerate_404
    (for_pages L fuel (fun raw_comments =>
       decoded <~ loads L raw_comments ;;
       l <~ iter decoded ;;
       for_each (fun comment =>
           comment_id <~ get comment "id" ;;
           user <~ get comment "user" ;;
           comment <~
             (if negb (truthy user) then
                url <- item comment "url" ;;
                logger WARNING "Missing user info for %s" [url] ;;
                set_item comment "user_data" JNull
              else
                login <- item user "login" ;;
                user_data <- __get_user login ;;
                set_item comment "user_data" user_data) ;;
           append comment) l)
     (GiteeClient.pull_review_comments L pr_number))
    "Can't get gitee pull request comments with PR number %s" pr_number.

(** [Gitee.__init_extra_issue_fields] *)
Definition __init_extra_issue_fields (issue : json) : M World json :=
  issue <- set_item issue "user_data" (JObj []) ;;
  issue <- set_item issue "assignee_data" (JObj []) ;;
  issue <- set_item issue "assignees_data" (JArr []) ;;
  set_item issue "comments_data" (JArr []).

(** [Gitee.__init_extra_pull_fields] *)
Definition __init_extra_pull_fields (pull : json) : M World json :=
  pull <- set_item pull "user_data" (JObj []) ;;
  pull <- set_item pull "review_comments_data" (JObj []) ;;
  pull <- set_item pull "reviews_data" (JArr []) ;;
  pull <- set_item pull "merged_by_data" (JArr []) ;;
  set_item pull "commits_data" (JArr []).

(* ------------------------------------------------------------------ *)
(** ** Gitee: the category drivers *)

(** The body of [for field in TARGET_ISSUE_FIELDS] in [__fetch_issues];
    the local variable is the issue being enriched. *)
Definition issue_field (fuel : nat) (field : string) : step World json :=
  fun issue =>
    (value <~ item issue field ;;
     if negb (truthy value) then exit Next
     else if String.eqb field "user" then
       login <~ item value "login" ;;
       data <~ __get_user login ;;
       issue <~ set_item issue (field ++ "_data") data ;;
       assign issue Next
     else if String.eqb field "assignee" then
       data <~ __get_issue_assignee value ;;
       issue <~ set_item issue (field ++ "_data") data ;;
       assign issue Next
     else if String.eqb field "collaborators" then
       data <~ __get_issue_collaborators value ;;
       issue <~ set_item issue (field ++ "_data") data ;;
       assign issue Next
     else if String.eqb field "comments" then
       number <~ item issue "number" ;;
       data <~ __get_issue_comments fuel number ;;
       issue <~ set_item issue (field ++ "_data") data ;;
       assign issue Next
     else exit Next) issue.

(** [Gitee.__fetch_issues]; the local variable is the list of the issues
    yielded so far. *)
Definition __fetch_issues (fuel : nat) (from_date to_date : Z)
  : step World (list json) :=
  let issues_groups := GiteeClient.issues L (Some from_date) in
  for_pages L fuel (fun raw_issues =>
      decoded <~ loads L raw_issues ;;
      l <~ iter decoded ;;
      for_each (fun issue =>
          updated_at <~ item issue "updated_at" ;;
          updated <~ pure (of_sum (str_to_datetime L updated_at)) ;;
          if updated >? to_date then exit Return
          else
            issue <~ __init_extra_issue_fields issue ;;
            issue <~ final (for_each (issue_field fuel) TARGET_ISSUE_FIELDS)
                           issue ;;
            append issue) l)
    issues_groups.

(** The body of [for field in TARGET_PULL_FIELDS] in
    [__fetch_pull_requests]. *)
Definition pull_field (fuel : nat) (field : string) : step World json :=
  fun pull =>
    (value <~ item pull field ;;
     if negb (truthy value) then exit Next
     else if String.eqb field "user" then
       login <~ item value "login" ;;
       data <~ __get_user login ;;
       pull <~ set_item pull (field ++ "_data") data ;;
       assign pull Next
     else if String.eqb field "merged_by" then
       login <~ item value "login" ;;
       data <~ __get_user login ;;
       pull <~ set_item pull (field ++ "_data") data ;;
       assign pull Next
     else if String.eqb field "assignees" || String.eqb field "testers" then
       data <~ __get_users value ;;
       pull <~ set_item pull (field ++ "_data") data ;;
       assign pull Next
     else if String.eqb field "number" then
       number <~ item pull "number" ;;
       review_comments <~ __get_pull_review_comments fuel number ;;
       pull <~ set_item pull "review_comments_data" review_comments ;;
       number <~ item pull "number" ;;
       commits <~ __get_pull_commits fuel number ;;
       pull <~ set_item pull "commits_data" commits ;;
       number <~ item pull "number" ;;
       merged_by <~ __get_pull_merged_by fuel number ;;
       pull <~ set_item pull "merged_by" merged_by ;;
       merged_by <~ item pull "merged_by" ;;
       if truthy merged_by then
         merged_by <~ item pull "merged_by" ;;
         data <~ __get_user merged_by ;;
         pull <~ set_item pull "merged_by_data" data ;;
         assign pull Next
       else assign pull Next
     else exit Next) pull.

(** [Gitee.__fetch_pull_requests] *)
Definition __fetch_pull_requests (fuel : nat) (from_date to_date : Z)
  : step World (list json) :=
  let raw_pulls_groups := GiteeClient.pulls L (Some from_date) in
  for_pages L fuel (fun raw_pulls =>
      decoded <~ loads L raw_pulls ;;
      l <~ iter decoded ;;
      for_each (fun pull =>
          updated_at <~ item pull "updated_at" ;;
          updated <~ pure (of_sum (str_to_datetime L updated_at)) ;;
          if (updated <? from_date) || (updated >? to_date) then exit Return
          else
            pull <~ __init_extra_pull_fields pull ;;
            pull <~ final (for_each (pull_field fuel) TARGET_PULL_FIELDS)
                          pull ;;
            append pull) l)
    raw_pulls_groups.

(** [Gitee.__fetch_repo_info] *)
Definition __fetch_repo_info : step World (list json) :=
  raw_repo <~ GiteeClient.repo L ;;
  repo <~ loads L raw_repo ;;
  raw_repo_releases <~ GiteeClient.repo_releases L ;;
  repo_releases <~ loads L raw_repo_releases ;;
  repo <~ set_item repo "releases" repo_releases ;;
  fetched_on <~ (fun s => (Ok (utcnow_timestamp L (world s)), s)) ;;
  repo <~ set_item repo "fetched_on" (JNum fetched_on) ;;
  append repo.

(** [Gitee.fetch_items]: the category dispatch. *)
Definition fetch_items (fuel : nat) (category : string)
  (from_date to_date : Z) : step World (list json) :=
  if String.eqb category CATEGORY_ISSUE then
    __fetch_issues fuel from_date to_date
  else if String.eqb category CATEGORY_PULL_REQUEST then
    __fetch_pull_requests fuel from_date to_date
  else __fetch_repo_info.

End Harvest.

(** [Gitee.fetch].  It stores the filter flag, fills in the missing dates
    and hands over to [Backend.fetch] of Perceval, which is not part of this
    repository and is a parameter here: it receives the category dispatch
    of this backend, the category, the flag and the two dates. *)
Definition fetch
  (Backend_fetch : (string -> Z -> Z -> step World (list json)) ->
                   string -> bool -> Z -> Z -> step World (list json))
  (fuel : nat) (category : string) (from_date to_date : option Z)
  (filter_classified : bool) : step World (list json) :=
  let exclude_user_data := filter_classified in
  _ <~ (if exclude_user_data then
          logger INFO
            "Excluding user data. Personal user information won't be collected from the API."
            []
        else ret tt) ;;
  let from_date := match from_date with
                   | Some d => d
                   | None => DEFAULT_DATETIME L
                   end in
  let to_date := match to_date with
                 | Some d => d
                 | None => DEFAULT_LAST_DATETIME L
                 end in
  Backend_fetch (fetch_items exclude_user_data fuel)
                category filter_classified from_date to_date.

(** [Gitee.CATEGORIES], the categories the backend declares. *)
Definition CATEGORIES : list string :=
  [CATEGORY_ISSUE; CATEGORY_PULL_REQUEST; CATEGORY_REPO].

(** Modelled from the spec: [Backend.fetch] of Perceval, the method of the
    base class that [Gitee.fetch] hands over to; Perceval is a dependency
    and its code is not in [src/].  The specification says of it that a
    fetch dispatches on a category among issue, pull_request and
    repository, and that any other value is a configuration error reported
    to the caller before any network activity.  So the category is looked
    up in the categories the backend declares: a category that is not
    among them raises [BackendError] and nothing else happens; a category
    that is among them is handed to the category dispatch of the backend
    with the two dates. *)
Definition Backend_fetch
  (dispatch : string -> Z -> Z -> step World (list json))
  (category : string) (filter_classified : bool) (from_date to_date : Z)
  : step World (list json) :=
  if existsb (String.eqb category) CATEGORIES then
    dispatch category from_date to_date
  else
    fun acc s => ((acc, Raise BackendError), s).

End Backend.

(** [Gitee.metadata_category] *)
Definition metadata_category (item : dict) : string :=
  if dict_in "base" item then CATEGORY_PULL_REQUEST
  else if dict_in "forks_count" item then CATEGORY_REPO
  else CATEGORY_ISSUE.

(** [Gitee.metadata_id]; [str] is the builtin of that name. *)
Definition metadata_id (str : json -> string) (item : dict)
  : result string :=
  if dict_in "forks_count" item then
    match getitem (JObj item) "fetched_on" with
    | Ok fetched_on => Ok (str fetched_on)
    | Raise e => Raise e
    | OutOfFuel => OutOfFuel
    end
  else
    match getitem (JObj item) "id" with
    | Ok id => Ok (str id)
    | Raise e => Raise e
    | OutOfFuel => OutOfFuel
    end.

(** [Gitee.metadata_updated_on]; [timestamp] is the method of that name
    of a [datetime]. *)
Definition metadata_updated_on {World : Type} (L : library World)
  (timestamp : Z -> json) (item : dict) : result json :=
  if dict_in "forks_count" item then getitem (JObj item) "fetched_on"
  else
    match getitem (JObj item) "updated_at" with
    | Ok ts =>
        match str_to_datetime L ts with
        | inl ts => Ok (timestamp ts)
        | inr e => Raise e
        end
    | Raise e => Raise e
    | OutOfFuel => OutOfFuel
    end.

End Gitee.
(* ================================================================== *)
(** * Notions used to state the properties *)

(** [b] is [a] with nothing but the fields [keys] set or changed. *)
Definition same_but (keys : list string) (a b : json) : Prop :=
  exists ma mb, a = JObj ma /\ b = JObj mb /\
    forall k, ~ In k keys -> dict_get k mb = dict_get k ma.


(** The client method a generator was created by. *)
Definition pager_origin (g : pager) : origin :=
  match g with
  | PagerNew o _ _ => o
  | PagerYielded o _ _ _ _ => o
  end.

(** An entry of an action log records a merge. *)
Definition is_merge_entry (entry : json) : bool :=
  match getitem entry "action_type" with
  | Ok action_type => Gitee.is_merged_pr action_type
  | _ => false
  end.

(** The login of the user of an entry. *)
Definition entry_login (entry : json) : json :=
  match getitem entry "user" with
  | Ok user => match getitem user "login" with
               | Ok login => login
               | _ => JNull
               end
  | _ => JNull
  end.

(** The scan policy in the words of the specification: the pages are taken
    in order; within a page the first entry that records a merge wins; a
    match on a later page overrides the match of an earlier page. *)
Fixpoint merged_by_scan (logs : list (list json)) (found : json) : json :=
  match logs with
  | [] => found
  | page :: logs' =>
      merged_by_scan logs'
        (match find is_merge_entry page with
         | Some entry => entry_login entry
         | None => found
         end)
  end.

(** Every entry of the page has an action type, and an entry that records
    a merge names the login of its user. *)
Definition well_formed_log (page : list json) : Prop :=
  Forall (fun entry =>
            (exists action_type,
                getitem entry "action_type" = Ok action_type) /\
            (is_merge_entry entry = true ->
             exists user login, getitem entry "user" = Ok user /\
                                getitem user "login" = Ok login))
         page.

(** The client methods other than those behind the [users/...]
    endpoints. *)
Definition not_a_user_request (o : origin) : bool :=
  match o with
  | OUser | OUserOrgs => false
  | _ => true
  end.


(** The value a run returned, [None] when it returned none. *)
Definition fst_ok_json {S : Type} (x : result json * S) : json :=
  match fst x with Ok a => a | _ => JNull end.

Section Notions.

Context {World : Type}.
Variable L : library World.

(** What a piece of code may do to the state: it issues requests only from
    the client methods [allowed], and it leaves alone the cache of a method
    it may not call. *)
Definition frame (allowed : origin -> bool) (s s' : state World) : Prop :=
  (exists ex, net s' = net s ++ ex /\
              Forall (fun e => allowed (ex_origin e) = true) ex) /\
  (allowed OUser = false -> users s' = users s) /\
  (allowed OUserOrgs = false -> users_orgs s' = users_orgs s).

Definition M_frame {A : Type} (allowed : origin -> bool) (m : M World A)
  : Prop :=
  forall s r s', m s = (r, s') -> frame allowed s s'.

Definition step_frame {Acc : Type} (allowed : origin -> bool)
  (st : step World Acc) : Prop :=
  forall acc s acc' r s', st acc s = ((acc', r), s') -> frame allowed s s'.

(** Two states that differ in the two caches at most. *)
Definition same_but_caches (s t : state World) : Prop :=
  world s = world t /\ net s = net t /\ logs s = logs t.

(** A piece of code that does not look at the caches: run in two states
    that differ in the caches at most, it gives the same result and ends
    in two such states. *)
Definition M_blind {A : Type} (m : M World A) : Prop :=
  forall s t, same_but_caches s t ->
    fst (m s) = fst (m t) /\ same_but_caches (snd (m s)) (snd (m t)).

Definition step_blind {Acc : Type} (st : step World Acc) : Prop :=
  forall acc s t, same_but_caches s t ->
    fst (st acc s) = fst (st acc t) /\
    same_but_caches (snd (st acc s)) (snd (st acc t)).

(** The requests the enrichment of an item may issue: those of the
    sub-fetches, and those of user resolution unless user data is
    excluded. *)
Definition enrichment (exclude_user_data : bool) (o : origin) : bool :=
  match o with
  | OIssueComments | OPullActionLogs | OPullCommits | OPullReviewComments =>
      true
  | OUser | OUserOrgs => negb exclude_user_data
  | OIssues | OPulls | ORepo | ORepoReleases => false
  end.

(** The records of a page, as a driver reads them with [json.loads] and
    [for record in ...]. *)
Definition records_of (raw : string) : list json :=
  match json_loads L raw with
  | inl decoded => match py_iter decoded with
                   | Ok l => l
                   | _ => []
                   end
  | inr _ => []
  end.

(** The list the server has sent in answer to the requests of the client
    method [o]: the records of its non-empty pages, in the order of the
    requests. *)
Definition received (o : origin) (ex : list exchange) : list json :=
  flat_map (fun e =>
              if origin_eqb (ex_origin e) o then
                match ex_reply e with
                | Reply r =>
                    if String.eqb (text r) "" then [] else records_of (text r)
                | Failure _ => []
                end
              else []) ex.

(** [str_to_datetime(record['updated_at'])] *)
Definition updated_on (record : json) : result Z :=
  match getitem record "updated_at" with
  | Ok updated_at => of_sum (str_to_datetime L updated_at)
  | Raise e => Raise e
  | OutOfFuel => OutOfFuel
  end.

(** The records of a list come in ascending order of update time. *)
Definition ascending (records : list json) : Prop :=
  StronglySorted
    (fun a b => exists ta tb,
         updated_on a = Ok ta /\ updated_on b = Ok tb /\ ta <= tb)
    records.

(** The fields the two list drivers set on a record. *)
Definition ISSUE_DATA_FIELDS : list string :=
  ["user_data"; "assignee_data"; "assignees_data"; "comments_data";
   "collaborators_data"].

Definition PULL_DATA_FIELDS : list string :=
  ["user_data"; "review_comments_data"; "reviews_data"; "merged_by_data";
   "commits_data"; "assignees_data"; "testers_data"; "merged_by"].

(** The shape the two list drivers share: every record of every page is
    dated, the whole loop is left at the first record [stop] holds of, and
    any other record is initialised, enriched and yielded. *)
Definition harvest_loop (stop : Z -> bool) (init enrich : json -> M World json)
  (fuel : nat) (g : pager) : step World (list json) :=
  for_pages L fuel (fun raw =>
      run (loads L raw) (fun decoded =>
      run (iter decoded) (fun l =>
      for_each (fun record =>
          run (item record "updated_at") (fun updated_at =>
          run (pure (of_sum (str_to_datetime L updated_at))) (fun updated =>
          if stop updated then exit Return
          else
            run (init record) (fun record =>
            run (enrich record) (fun record =>
            append record))))) l)))
    g.

(** The invariant of the loop of a list driver over the records of a
    page, in a run from [s0]: [xs] is what is left of the page, the
    records received before [xs] have been yielded as [out], and [stop]
    holds of none of them. *)
Definition reading (keys : list string) (o : origin) (stop : Z -> bool)
  (s0 : state World) (xs : list json) (out : list json) (s1 : state World)
  : Prop :=
  exists ex seen,
    net s1 = net s0 ++ ex /\ received o ex = seen ++ xs /\
    Forall2 (same_but keys) seen out /\
    Forall (fun it => exists t, updated_on it = Ok t /\ stop t = false) out.

(** What a list driver has done when it ends with [r], having yielded
    [out], in a run from [s0] to [s1]: the records [seen ++ rest] were
    received for the primary list [o]; [out] is [seen], record by record,
    with only the fields [keys] touched; [stop] holds of no yielded item;
    and when the driver ended without an exception, nothing is left over
    or the first record left over is one [stop] holds of. *)
Definition harvested (keys : list string) (o : origin) (stop : Z -> bool)
  (s0 : state World) (out : list json) (r : result flow) (s1 : state World)
  : Prop :=
  exists ex seen rest,
    net s1 = net s0 ++ ex /\
    received o ex = seen ++ rest /\
    Forall2 (same_but keys) seen out /\
    Forall (fun it => exists t, updated_on it = Ok t /\ stop t = false) out /\
    ((exists f, r = Ok f) ->
     rest = [] \/
     exists x rest' t, rest = x :: rest' /\ updated_on x = Ok t /\
                       stop t = true).

(** The server answers the request for [url], and then the requests for
    the next links in turn, with the responses [rs]: every response but
    the last carries a next link, and the last carries none. *)
Fixpoint serves (w : World) (url : string) (payload : option dict)
  (rs : list response) : Prop :=
  match rs with
  | [] => False
  | r :: rs' =>
      exists w', HttpClient_fetch L w url payload = (Reply r, w') /\
        match rs' with
        | [] => links_next r = None
        | _ :: _ => exists next, links_next r = Some next /\
                                 serves w' next payload rs'
        end
  end.

(** The [total_page] header of the first response is one the client gets
    through its logging with: it starts with a digit, or it is absent or
    empty and the list has this one page only. *)
Definition total_page_logged (rs : list response) : Prop :=
  match rs with
  | [] => True
  | r :: rs' =>
      match header_total_page r with
      | Some (String c _) => int_of_char c <> None
      | _ => rs' = []
      end
  end.

(** [raw] is the text of the list [page]. *)
Definition decodes (raw : string) (page : list json) : Prop :=
  exists decoded, json_loads L raw = inl decoded /\ py_iter decoded = Ok page.


(** The same, for the first request of the run. *)
Definition first_answered_with (o : origin) (c : Z) (s s' : state World)
  : Prop :=
  exists e after,
    net s' = net s ++ e :: after /\
    ex_origin e = o /\ ex_reply e = Failure (HTTPError c).


(** The URL of the first page of a list. *)
Definition items_url (path : string) : string :=
  urijoin L [JStr (base_url L); JStr "repos"; JStr (owner L);
             JStr (repository L); JStr path].

End Notions.

(* ================================================================== *)
(** * A scripted server

    The examples run the backend against a server that answers every URL
    from a fixed table and counts the requests it has seen.  Page bodies
    are given by name; [decode] maps the name of a body to its JSON value,
    as [json.loads] maps a text to what it denotes. *)

Module Fixture.

Definition str (j : json) : string :=
  match j with
  | JStr s => s
  | JNum n => DecimalString.NilZero.string_of_int (Z.to_int n)
  | JNull => "None"
  | JBool true => "True"
  | JBool false => "False"
  | _ => "?"
  end.

Definition join (args : list json) : string :=
  String.concat "/" (map str args).

Fixpoint lookup {A : Type} (k : string) (table : list (string * A))
  : option A :=
  match table with
  | [] => None
  | (k', v) :: table' => if String.eqb k k' then Some v else lookup k table'
  end.

Definition page (body : string) (total_page : option string)
  (next : option string) : reply :=
  Reply (mkResponse body total_page next).

Definition api : string := "https://gitee.com/api/v5".

Definition routes : list (string * reply) :=
  [ (* the issues list: two pages *)
    ("https://gitee.com/api/v5/repos/chaoss/demo/issues",
     page "issues-1" (Some "2") (Some "cursor:issues-2"));
    ("cursor:issues-2", page "issues-2" None None);
    (* the comments of issue 3: one comment has no user *)
    ("https://gitee.com/api/v5/repos/chaoss/demo/issues/3/comments",
     page "comments-3" None None);
    (* the pull-request list: one page *)
    ("https://gitee.com/api/v5/repos/chaoss/demo/pulls",
     page "pulls-1" (Some "1") None);
    ("https://gitee.com/api/v5/repos/chaoss/demo/pulls/42/comments",
     page "review-comments-42" None None);
    (* the commits of pull request 42: the second page is not found *)
    ("https://gitee.com/api/v5/repos/chaoss/demo/pulls/42/commits",
     page "commits-42" (Some "2") (Some "cursor:commits-2"));
    ("cursor:commits-2", Failure (HTTPError 404));
    (* the action log of pull request 42: two pages *)
    ("https://gitee.com/api/v5/repos/chaoss/demo/pulls/42/operate_logs",
     page "logs-1" (Some "2") (Some "cursor:logs-2"));
    ("cursor:logs-2", page "logs-2" None None);
    (* users *)
    ("https://gitee.com/api/v5/users/alice", page "user-alice" None None);
    ("https://gitee.com/api/v5/users/alice/orgs",
     page "orgs-alice" None None);
    ("https://gitee.com/api/v5/users/bob", page "user-bob" None None);
    ("https://gitee.com/api/v5/users/bob/orgs", Failure (HTTPError 404));
    ("https://gitee.com/api/v5/users/carol/orgs", Failure (HTTPError 500));
    (* the repository *)
    ("https://gitee.com/api/v5/repos/chaoss/demo", page "repo" None None);
    ("https://gitee.com/api/v5/repos/chaoss/demo/releases?page=1&per_page=100",
     page "releases" None None);
    (* a list of three pages whose header announces seven *)
    ("https://gitee.com/api/v5/repos/chaoss/demo/three",
     page "three-1" (Some "7") (Some "cursor:three-2"));
    ("cursor:three-2", page "three-2" (Some "x") (Some "cursor:three-3"));
    ("cursor:three-3", page "three-3" None None);
    (* a list whose only page has an empty body *)
    ("https://gitee.com/api/v5/repos/chaoss/demo/empty", page "" None None);
    (* a list of two pages without the header *)
    ("https://gitee.com/api/v5/repos/chaoss/demo/plain",
     page "three-1" None (Some "cursor:three-3"));
    (* failures *)
    ("https://gitee.com/api/v5/repos/chaoss/demo/pulls/43/commits",
     Failure (HTTPError 404));
    ("https://gitee.com/api/v5/repos/chaoss/demo/pulls/44/commits",
     Failure (HTTPError 500));
    ("https://gitee.com/api/v5/repos/chaoss/demo/pulls/43/comments",
     Failure (HTTPError 404));
    ("https://gitee.com/api/v5/repos/chaoss/demo/pulls/44/comments",
     Failure (HTTPError 500));
    ("https://gitee.com/api/v5/repos/chaoss/demo/issues/43/comments",
     Failure (HTTPError 404));
    ("https://gitee.com/api/v5/repos/chaoss/demo/pulls/43/operate_logs",
     Failure (HTTPError 404)) ].

Definition login (name : string) : json := JObj [("login", JStr name)].

Definition issue (number : Z) (updated_at : string) (comments : Z) : json :=
  JObj [("number", JNum number); ("updated_at", JStr updated_at);
        ("user", login "alice"); ("assignee", JNull);
        ("collaborators", JArr [login "bob"]); ("comments", JNum comments)].

Definition pull_fields (number : Z) (updated_at : string) : dict :=
  [("number", JNum number); ("updated_at", JStr updated_at);
   ("user", login "alice"); ("assignees", JArr [login "bob"]);
   ("testers", JArr []); ("base", JObj [("ref", JStr "main")])].

Definition pull (number : Z) (updated_at : string) : json :=
  JObj (pull_fields number updated_at).

Definition bodies : list (string * json) :=
  [ ("issues-1", JArr [issue 1 "2021-01-01" 0; issue 2 "2021-01-02" 0]);
    ("issues-2", JArr [issue 4 "2021-01-04" 0; issue 5 "2021-01-05" 0]);
    ("comments-3", JArr [JObj [("id", JNum 31); ("body", JStr "ping")]]);
    ("pulls-1", JArr [pull 42 "2021-01-03"; pull 45 "2021-01-06"]);
    ("review-comments-42",
     JArr [JObj [("id", JNum 1); ("url", JStr "comments/1")];
           JObj [("id", JNum 2); ("url", JStr "comments/2");
                 ("user", login "alice")]]);
    ("commits-42", JArr [JObj [("sha", JStr "c0ffee")]]);
    ("logs-1",
     JArr [JObj [("action_type", JStr "opened_pr"); ("user", login "bob")]]);
    ("logs-2",
     JArr [JObj [("action_type", JStr "merged_pr"); ("user", login "alice")];
           JObj [("action_type", JStr "merged_pr"); ("user", login "bob")]]);
    ("user-alice", JObj [("login", JStr "alice"); ("name", JStr "Alice")]);
    ("orgs-alice", JArr [JObj [("login", JStr "chaoss")]]);
    ("user-bob", JObj [("login", JStr "bob")]);
    ("[]", JArr []);
    ("repo", JObj [("id", JNum 1); ("forks_count", JNum 3)]);
    ("releases", JArr [JObj [("tag_name", JStr "v1")];
                       JObj [("tag_name", JStr "v2")]]);
    ("three-1", JArr []); ("three-2", JArr []); ("three-3", JArr []) ].

(** Dates, as days since the last day of 2020. *)
Definition dates : list (string * Z) :=
  [("2021-01-01", 1); ("2021-01-02", 2); ("2021-01-03", 3);
   ("2021-01-04", 4); ("2021-01-05", 5); ("2021-01-06", 6)].

Definition transport (w : nat) (url : string) (payload : option dict)
  : reply * nat :=
  (match lookup url routes with
   | Some rep => rep
   | None => Failure (HTTPError 404)
   end, S w).

Definition decode (raw : string) : json + exn :=
  match lookup raw bodies with
  | Some j => inl j
  | None => inr JSONDecodeError
  end.

Definition parse_date (j : json) : Z + exn :=
  match j with
  | JStr s => match lookup s dates with
              | Some d => inl d
              | None => inr InvalidDateError
              end
  | _ => inr InvalidDateError
  end.

Definition lib : library nat :=
  {| HttpClient_fetch := transport;
     json_loads := decode;
     str_to_datetime := parse_date;
     urijoin := join;
     isoformat := fun d => str (JNum d);
     utcnow_timestamp := fun w => 1000 + Z.of_nat w;
     DEFAULT_DATETIME := 0;
     DEFAULT_LAST_DATETIME := 36500;
     base_url := api;
     owner := "chaoss";
     repository := "demo";
     access_token := Some "token";
     max_items := 100 |}.

(** A fresh client: no request issued, nothing cached, nothing logged. *)
Definition start : state nat := mkState 0%nat [] [] [] [].

(** The runs the examples look at. *)

(** Issues updated from day 0 to day 4. *)
Definition issues_run : (list json * result flow) * state nat :=
  Gitee.__fetch_issues lib false 10 0 4 [] start.

(** Pull requests updated from day 0 to day 4. *)
Definition pulls_run : (list json * result flow) * state nat :=
  Gitee.__fetch_pull_requests lib false 10 0 4 [] start.

(** The same with user data excluded. *)
Definition filtered_run : (list json * result flow) * state nat :=
  Gitee.fetch_items lib true 10 CATEGORY_PULL_REQUEST 0 4 [] start.

(** The three-page list. *)
Definition three_pages : list response :=
  [mkResponse "three-1" (Some "7") (Some "cursor:three-2");
   mkResponse "three-2" (Some "x") (Some "cursor:three-3");
   mkResponse "three-3" None None].

(** The steps of the enrichment of pull request 42 by its number. *)
Definition review_comments_run : result json * state nat :=
  Gitee.__get_pull_review_comments lib false 10 (JNum 42) start.

Definition commits_run : result json * state nat :=
  Gitee.__get_pull_commits lib 10 (JNum 42) (snd review_comments_run).

Definition merged_by_run : result json * state nat :=
  Gitee.__get_pull_merged_by lib 10 (JNum 42) (snd commits_run).

Definition action_logs : list (list json) :=
  [[JObj [("action_type", JStr "opened_pr"); ("user", login "bob")]];
   [JObj [("action_type", JStr "merged_pr"); ("user", login "alice")];
    JObj [("action_type", JStr "merged_pr"); ("user", login "bob")]]].

Definition alice : json :=
  JObj [("login", JStr "alice"); ("name", JStr "Alice");
        ("organizations", JArr [JObj [("login", JStr "chaoss")]])].

End Fixture.

(* ================================================================== *)
(** * Notions for the properties of the client and of the enrichment *)

(** A piece of code keeps the relation [R] between the state it starts in
    and the state it ends in, however it ends. *)
Definition M_keeps {World : Type}
  (R : state World -> state World -> Prop) {A : Type} (m : M World A)
  : Prop :=
  forall s r s', m s = (r, s') -> R s s'.

Definition step_keeps {World : Type}
  (R : state World -> state World -> Prop) {Acc : Type}
  (st : step World Acc) : Prop :=
  forall acc s acc' r s', st acc s = ((acc', r), s') -> R s s'.

(** The requests issued between two states all satisfy [P]. *)
Definition requests_all {World : Type} (P : exchange -> Prop)
  (s s' : state World) : Prop :=
  exists ex, net s' = net s ++ ex /\ Forall P ex.

(** A request went out with [access_token=tok] among its parameters. *)
Definition carries_token (tok : string) (e : exchange) : Prop :=
  exists payload, ex_payload e = Some payload /\
                  dict_get "access_token" payload = Some (JStr tok).

(** Nothing is taken out of the two caches and no entry is changed. *)
Definition caches_grow {World : Type} (s s' : state World) : Prop :=
  (forall k v, cache_get k (users s) = Some v ->
               cache_get k (users s') = Some v) /\
  (forall k v, cache_get k (users_orgs s) = Some v ->
               cache_get k (users_orgs s') = Some v).

(** The payload a generator was created with: [fetch_items] sends it with
    every request. *)
Definition pager_payload (g : pager) : dict :=
  match g with
  | PagerNew _ _ payload => payload
  | PagerYielded _ payload _ _ _ => payload
  end.

(** [users] are the records user resolution returns for the logins of
    [items], resolved one after the other in a run from [s] to [s']. *)
Inductive resolved_in_turn {World : Type} (L : library World)
  (exclude_user_data : bool)
  : state World -> list json -> list json -> state World -> Prop :=
| resolved_none (s : state World) :
    resolved_in_turn L exclude_user_data s [] [] s
| resolved_next (s s1 s2 : state World) (item_ login user : json)
    (items users : list json) :
    getitem item_ "login" = Ok login ->
    Gitee.__get_user L exclude_user_data login s = (Ok user, s1) ->
    resolved_in_turn L exclude_user_data s1 items users s2 ->
    resolved_in_turn L exclude_user_data s (item_ :: items) (user :: users)
                     s2.

(** The client methods behind the endpoints a harvest of a category may
    call: the list of the category and the sub-fetches of its items, the
    two user endpoints unless user data is excluded; for any other
    category the repository and its releases. *)
Definition category_endpoints (category : string) (exclude_user_data : bool)
  (o : origin) : bool :=
  if String.eqb category CATEGORY_ISSUE then
    match o with
    | OIssues | OIssueComments => true
    | OUser | OUserOrgs => negb exclude_user_data
    | _ => false
    end
  else if String.eqb category CATEGORY_PULL_REQUEST then
    match o with
    | OPulls | OPullReviewComments | OPullCommits | OPullActionLogs => true
    | OUser | OUserOrgs => negb exclude_user_data
    | _ => false
    end
  else
    match o with
    | ORepo | ORepoReleases => true
    | _ => false
    end.

(** The request [e2] went to the next link of the answer to [e1]. *)
Definition follows (e1 e2 : exchange) : Prop :=
  exists rsp, ex_reply e1 = Reply rsp /\ links_next rsp = Some (ex_url e2).

(** Every request of the list but the first went to the next link of
    the answer to the request before it. *)
Inductive linked : list exchange -> Prop :=
| linked_nil : linked []
| linked_one (e : exchange) : linked [e]
| linked_cons (e1 e2 : exchange) (rest : list exchange) :
    follows e1 e2 -> linked (e2 :: rest) -> linked (e1 :: e2 :: rest).

(** The response a generator is suspended with. *)
Definition pager_response (g : pager) : option response :=
  match g with
  | PagerNew _ _ _ => None
  | PagerYielded _ _ response _ _ => Some response
  end.

(** Where the next request of a generator goes, if it makes one. *)
Definition pager_next_url {World : Type} (L : library World) (g : pager)
  : option string :=
  match g with
  | PagerNew _ path _ => Some (items_url L path)
  | PagerYielded _ _ response _ _ => links_next response
  end.

(* ================================================================== *)
(** * A second scripted server

    The lists of this server are read to their end, and some of its
    answers are out of the ordinary: a [total_page] header that is no
    number, a user whose answer is no JSON, a review comment that has
    neither a user nor a [url]. *)

Module EdgeCases.

Definition routes : list (string * reply) :=
  [ (* the commits of pull request 50: two pages *)
    ("https://gitee.com/api/v5/repos/chaoss/demo/pulls/50/commits",
     Fixture.page "commits-50a" (Some "2") (Some "cursor:commits-50b"));
    ("cursor:commits-50b", Fixture.page "commits-50b" None None);
    (* the comments of issue 7 *)
    ("https://gitee.com/api/v5/repos/chaoss/demo/issues/7/comments",
     Fixture.page "comments-7" None None);
    (* a list whose header is no number *)
    ("https://gitee.com/api/v5/repos/chaoss/demo/odd",
     Fixture.page "odd-1" (Some "x2") None);
    (* a list of two pages without the header *)
    ("https://gitee.com/api/v5/repos/chaoss/demo/plain",
     Fixture.page "plain-1" None (Some "cursor:plain-2"));
    ("cursor:plain-2", Fixture.page "plain-2" None None);
    (* a user whose answer is no JSON *)
    ("https://gitee.com/api/v5/users/mallory",
     Fixture.page "<html>" None None);
    (* the review comments of pull request 51 *)
    ("https://gitee.com/api/v5/repos/chaoss/demo/pulls/51/comments",
     Fixture.page "review-comments-51" None None);
    (* users *)
    ("https://gitee.com/api/v5/users/alice",
     Fixture.page "user-alice" None None);
    ("https://gitee.com/api/v5/users/alice/orgs",
     Fixture.page "orgs-alice" None None) ].

Definition bodies : list (string * json) :=
  [ ("commits-50a", JArr [JObj [("sha", JStr "a1")];
                          JObj [("sha", JStr "a2")]]);
    ("commits-50b", JArr [JObj [("sha", JStr "b1")]]);
    ("comments-7",
     JArr [JObj [("id", JNum 71); ("user", Fixture.login "alice")];
           JObj [("id", JNum 72); ("user", Fixture.login "bob")]]);
    ("odd-1", JArr []); ("plain-1", JArr []); ("plain-2", JArr []);
    ("review-comments-51", JArr [JObj [("id", JNum 1)]]);
    ("user-alice", JObj [("login", JStr "alice"); ("name", JStr "Alice")]);
    ("orgs-alice", JArr [JObj [("login", JStr "chaoss")]]) ].

Definition transport (w : nat) (url : string) (payload : option dict)
  : reply * nat :=
  (match Fixture.lookup url routes with
   | Some rep => rep
   | None => Failure (HTTPError 404)
   end, S w).

Definition decode (raw : string) : json + exn :=
  match Fixture.lookup raw bodies with
  | Some j => inl j
  | None => inr JSONDecodeError
  end.

Definition lib : library nat :=
  {| HttpClient_fetch := transport;
     json_loads := decode;
     str_to_datetime := Fixture.parse_date;
     urijoin := Fixture.join;
     isoformat := fun d => Fixture.str (JNum d);
     utcnow_timestamp := fun w => 1000 + Z.of_nat w;
     DEFAULT_DATETIME := 0;
     DEFAULT_LAST_DATETIME := 36500;
     base_url := Fixture.api;
     owner := "chaoss";
     repository := "demo";
     access_token := None;
     max_items := 30 |}.

(** [str] and [timestamp] for the metadata of the items. *)
Definition timestamp (t : Z) : json := JNum t.

(** A client that has the answers for [zoe] in its caches. *)
Definition warm : state nat :=
  mkState 0%nat [(JStr "zoe", "user-zoe")] [(JStr "zoe", "[]")] [] [].

(** The issues of the first server, harvested by that client. *)
Definition warm_run : (list json * result flow) * state nat :=
  Gitee.fetch_items Fixture.lib false 10 CATEGORY_ISSUE 0 4 [] warm.

(** The state of the first server once [alice] has been resolved, and
    the issues harvested from there. *)
Definition alice_resolved : state nat :=
  snd (Gitee.__get_user Fixture.lib false (JStr "alice") Fixture.start).

Definition run_after_alice : (list json * result flow) * state nat :=
  Gitee.fetch_items Fixture.lib false 10 CATEGORY_ISSUE 0 4 []
                    alice_resolved.

(** The same for the organizations of [bob], which are not found. *)
Definition bob_orgs : result string * state nat :=
  GiteeClient.user_orgs Fixture.lib (JStr "bob") Fixture.start.

Definition run_after_bob : (list json * result flow) * state nat :=
  Gitee.fetch_items Fixture.lib false 10 CATEGORY_ISSUE 0 4 []
                    (snd bob_orgs).

(** Two users resolved as a list, and the issues harvested from
    there. *)
Definition two_users : list json :=
  [Fixture.login "alice"; Fixture.login "bob"].

Definition two_users_run : result json * state nat :=
  Gitee.__get_users Fixture.lib false (JArr two_users) Fixture.start.

Definition run_after_two_users : (list json * result flow) * state nat :=
  Gitee.fetch_items Fixture.lib false 10 CATEGORY_ISSUE 0 4 []
                    (snd two_users_run).

(** [mallory], whose answer is no JSON, and a harvest that follows. *)
Definition mallory : result string * state nat :=
  GiteeClient.user lib (JStr "mallory") Fixture.start.

Definition run_after_mallory : (list json * result flow) * state nat :=
  Gitee.fetch_items lib false 10 CATEGORY_REPO 0 4 [] (snd mallory).

(** The repository of the first server. *)
Definition repo_run : (list json * result flow) * state nat :=
  Gitee.__fetch_repo_info Fixture.lib [] Fixture.start.

End EdgeCases.
(* ================================================================== *)
(** * What the tolerant sub-fetches make of a record *)



(* ================================================================== *)
(** * A third scripted server

    The review comments of two pull requests: a list whose second page
    is not found, and a list with a comment by a user the server does not
    know.  The last run asks the first server for a category the backend
    does not declare. *)

Module Partial.

Definition routes : list (string * reply) :=
  [ (* the review comments of pull request 60: the second page is not
       found *)
    ("https://gitee.com/api/v5/repos/chaoss/demo/pulls/60/comments",
     Fixture.page "review-60" (Some "2") (Some "cursor:review-60b"));
    ("cursor:review-60b", Failure (HTTPError 404));
    (* the review comments of pull request 61: the second of the three
       is by carol, and the server has no user of that name *)
    ("https://gitee.com/api/v5/repos/chaoss/demo/pulls/61/comments",
     Fixture.page "review-61" None None);
    (* users *)
    ("https://gitee.com/api/v5/users/alice",
     Fixture.page "user-alice" None None);
    ("https://gitee.com/api/v5/users/alice/orgs",
     Fixture.page "orgs-alice" None None) ].

Definition comment (id : Z) (name : string) : json :=
  JObj [("id", JNum id); ("user", Fixture.login name)].

Definition bodies : list (string * json) :=
  [ ("review-60",
     JArr [comment 1 "alice";
           JObj [("id", JNum 2); ("url", JStr "comments/2")]]);
    ("review-61", JArr [comment 3 "alice"; comment 4 "carol";
                        comment 5 "alice"]);
    ("user-alice", JObj [("login", JStr "alice"); ("name", JStr "Alice")]);
    ("orgs-alice", JArr [JObj [("login", JStr "chaoss")]]) ].

Definition transport (w : nat) (url : string) (payload : option dict)
  : reply * nat :=
  (match Fixture.lookup url routes with
   | Some rep => rep
   | None => Failure (HTTPError 404)
   end, S w).

Definition decode (raw : string) : json + exn :=
  match Fixture.lookup raw bodies with
  | Some j => inl j
  | None => inr JSONDecodeError
  end.

Definition lib : library nat :=
  {| HttpClient_fetch := transport;
     json_loads := decode;
     str_to_datetime := Fixture.parse_date;
     urijoin := Fixture.join;
     isoformat := fun d => Fixture.str (JNum d);
     utcnow_timestamp := fun w => 1000 + Z.of_nat w;
     DEFAULT_DATETIME := 0;
     DEFAULT_LAST_DATETIME := 36500;
     base_url := Fixture.api;
     owner := "chaoss";
     repository := "demo";
     access_token := None;
     max_items := 30 |}.



(** [user_data] for alice. *)
Definition alice : json :=
  JObj [("login", JStr "alice"); ("name", JStr "Alice");
        ("organizations", JArr [JObj [("login", JStr "chaoss")]])].

(** A fetch with a category the backend does not declare. *)
Definition commit_run : (list json * result flow) * state nat :=
  Gitee.fetch Fixture.lib Gitee.Backend_fetch 10 "commit" None None true
              [] Fixture.start.

End Partial.
(* ================================================================== *)
(** * Properties *)

(** ** Dictionaries *)

Lemma dict_get_set_same (k : string) (v : json) (m : dict) :
  dict_get k (dict_set k v m) = Some v.
Proof.
  induction m as [|[k' v'] m IH]; simpl.
  - now rewrite String.eqb_refl.
  - destruct (String.eqb k k') eqn:E; simpl; rewrite ?String.eqb_refl, ?E; auto.
Qed.

Lemma dict_get_set_other (k k' : string) (v : json) (m : dict) :
  k' <> k -> dict_get k' (dict_set k v m) = dict_get k' m.
Proof.
  intros Hne. induction m as [|[k0 v0] m IH]; simpl.
  - destruct (String.eqb k' k) eqn:E; auto.
    apply String.eqb_eq in E. contradiction.
  - destruct (String.eqb k k0) eqn:E; simpl.
    + apply String.eqb_eq in E. subst k0.
      destruct (String.eqb k' k) eqn:E'; auto.
      apply String.eqb_eq in E'. contradiction.
    + now rewrite IH.
Qed.

Lemma same_but_refl (keys : list string) (m : dict) :
  same_but keys (JObj m) (JObj m).
Proof. exists m, m. auto. Qed.

Lemma same_but_trans (keys : list string) (a b c : json) :
  same_but keys a b -> same_but keys b c -> same_but keys a c.
Proof.
  intros (ma & mb & -> & -> & H1) (mb' & mc & E & -> & H2).
  injection E as <-. exists ma, mc. repeat split; auto.
  intros k Hk. now rewrite H2, H1.
Qed.

Lemma same_but_setitem (keys : list string) (a b : json) (k : string)
  (v : json) :
  In k keys -> setitem a k v = Ok b -> same_but keys a b.
Proof.
  intros Hin H. destruct a; simpl in H; try discriminate.
  injection H as <-. exists m, (dict_set k v m). repeat split; auto.
  intros k' Hk'. apply dict_get_set_other. intros ->. contradiction.
Qed.

Lemma same_but_getitem (keys : list string) (a b : json) (k : string) :
  same_but keys a b -> ~ In k keys -> getitem b k = getitem a k.
Proof.
  intros (ma & mb & -> & -> & H) Hk. simpl. now rewrite H.
Qed.

(** ** Caches *)

Lemma key_eqb_refl (k : json) : hashable k = true -> key_eqb k k = true.
Proof.
  destruct k; simpl; intros H; try discriminate; auto.
  - now destruct b.
  - apply Z.eqb_refl.
  - apply String.eqb_refl.
Qed.

Lemma cache_get_set_same (k : json) (v : string) (c : cache) :
  hashable k = true -> cache_get k (cache_set k v c) = Some v.
Proof.
  intros Hk. induction c as [|[k' v'] c IH]; simpl.
  - now rewrite key_eqb_refl.
  - destruct (key_eqb k k') eqn:E; simpl; rewrite E; auto.
Qed.

Section Properties.

Context {World : Type}.
Variable L : library World.

Local Abbreviation M := (M World).
Local Abbreviation step := (step World).
Local Abbreviation state := (state World).
Local Abbreviation frame := (@frame World).
Local Abbreviation M_frame := (@M_frame World).
Local Abbreviation step_frame := (@step_frame World).
Local Abbreviation M_blind := (@M_blind World).
Local Abbreviation step_blind := (@step_blind World).

(** ** Taking the monad apart *)

Lemma bind_inv {A B : Type} (m : M A) (k : A -> M B) (s : state)
  (r : result B) (s' : state) :
  bind m k s = (r, s') ->
  (exists a s1, m s = (Ok a, s1) /\ k a s1 = (r, s')) \/
  (exists e, m s = (Raise e, s') /\ r = Raise e) \/
  (m s = (OutOfFuel, s') /\ r = OutOfFuel).
Proof.
  unfold bind. destruct (m s) as [[a|e|] s1]; intros H.
  - left. eauto.
  - right. left. injection H as <- <-. eauto.
  - right. right. injection H as <- <-. eauto.
Qed.

Lemma run_inv {Acc A : Type} (m : M A) (k : A -> step Acc) (acc : Acc)
  (s : state) (acc' : Acc) (r : result flow) (s' : state) :
  run m k acc s = ((acc', r), s') ->
  (exists a s1, m s = (Ok a, s1) /\ k a acc s1 = ((acc', r), s')) \/
  (exists e, m s = (Raise e, s') /\ acc' = acc /\ r = Raise e) \/
  (m s = (OutOfFuel, s') /\ acc' = acc /\ r = OutOfFuel).
Proof.
  unfold run. destruct (m s) as [[a|e|] s1]; intros H.
  - left. eauto.
  - right. left. injection H as <- <- <-. eauto.
  - right. right. injection H as <- <- <-. eauto.
Qed.

Lemma final_inv {Acc : Type} (st : step Acc) (init : Acc) (s : state)
  (r : result Acc) (s' : state) :
  final st init s = (r, s') ->
  exists acc r0, st init s = ((acc, r0), s') /\
    match r0 with
    | Ok _ => r = Ok acc
    | Raise e => r = Raise e
    | OutOfFuel => r = OutOfFuel
    end.
Proof.
  unfold final. destruct (st init s) as [[acc [f|e|]] s1]; intros H;
    injection H as <- <-; eexists _, _; split; reflexivity.
Qed.

Lemma pure_inv {A : Type} (x : result A) (s : state) (r : result A)
  (s' : state) :
  pure x s = (r, s') -> r = x /\ s' = s.
Proof. unfold pure. intros H. injection H as <- <-. auto. Qed.

(** ** The loop rules

    [I] holds whenever the loop is about to take its next element, [Q]
    holds of the way the loop ends. *)

Lemma for_each_rule {X Acc : Type} (body : X -> step Acc)
  (I : list X -> Acc -> state -> Prop)
  (Q : Acc -> result flow -> state -> Prop) :
  (forall acc s, I [] acc s -> Q acc (Ok Next) s) ->
  (forall x xs acc s acc' r s',
      I (x :: xs) acc s -> body x acc s = ((acc', r), s') ->
      match r with
      | Ok Next => I xs acc' s'
      | Ok Break => Q acc' (Ok Next) s'
      | _ => Q acc' r s'
      end) ->
  forall xs acc s acc' r s',
    I xs acc s -> for_each body xs acc s = ((acc', r), s') -> Q acc' r s'.
Proof.
  intros Hnil Hcons xs. induction xs as [|x xs IH]; intros acc s acc' r s' HI H.
  - simpl in H. injection H as <- <- <-. auto.
  - simpl in H. destruct (body x acc s) as [[a1 r1] s1] eqn:Hb.
    specialize (Hcons _ _ _ _ _ _ _ HI Hb).
    destruct r1 as [[| |]|e|].
    + eapply IH; eauto.
    + injection H as <- <- <-. auto.
    + injection H as <- <- <-. auto.
    + injection H as <- <- <-. auto.
    + injection H as <- <- <-. auto.
Qed.

Lemma for_pages_rule {Acc : Type} (body : string -> step Acc)
  (I : pager -> Acc -> state -> Prop)
  (Q : Acc -> result flow -> state -> Prop) :
  (forall g acc s, I g acc s -> Q acc OutOfFuel s) ->
  (forall g acc s r s1,
      I g acc s -> GiteeClient.fetch_items_next L g s = (r, s1) ->
      match r with
      | Ok (Some (items, g')) =>
          forall acc' r' s2, body items acc s1 = ((acc', r'), s2) ->
            match r' with
            | Ok Next => I g' acc' s2
            | Ok Break => Q acc' (Ok Next) s2
            | _ => Q acc' r' s2
            end
      | Ok None => Q acc (Ok Next) s1
      | Raise e => Q acc (Raise e) s1
      | OutOfFuel => Q acc OutOfFuel s1
      end) ->
  forall fuel g acc s acc' r s',
    I g acc s -> for_pages L fuel body g acc s = ((acc', r), s') ->
    Q acc' r s'.
Proof.
  intros Hfuel Hstep fuel.
  induction fuel as [|fuel IH]; intros g acc s acc' r s' HI H.
  - simpl in H. injection H as <- <- <-. eauto.
  - simpl in H. destruct (GiteeClient.fetch_items_next L g s) as [r1 s1] eqn:Hn.
    specialize (Hstep _ _ _ _ _ HI Hn).
    destruct r1 as [[[items g']|]|e|].
    + destruct (body items acc s1) as [[a2 r2] s2] eqn:Hb.
      specialize (Hstep _ _ _ eq_refl).
      destruct r2 as [[| |]|e|].
      * eapply IH; [exact Hstep | exact H].
      * injection H as <- <- <-. auto.
      * injection H as <- <- <-. auto.
      * injection H as <- <- <-. auto.
      * injection H as <- <- <-. auto.
    + injection H as <- <- <-. auto.
    + injection H as <- <- <-. auto.
    + injection H as <- <- <-. auto.
Qed.


(** ** Which requests a piece of code issues *)

Create HintDb frame.

Lemma frame_refl (allowed : origin -> bool) (s : state) : frame allowed s s.
Proof.
  split; [|split]; auto. exists []. now rewrite app_nil_r.
Qed.

Lemma frame_trans (allowed : origin -> bool) (s1 s2 s3 : state) :
  frame allowed s1 s2 -> frame allowed s2 s3 -> frame allowed s1 s3.
Proof.
  intros ((ex1 & E1 & F1) & U1 & O1) ((ex2 & E2 & F2) & U2 & O2).
  split; [|split].
  - exists (ex1 ++ ex2). rewrite E2, E1, app_assoc. split; auto.
    apply Forall_app. auto.
  - intros H. now rewrite U2, U1.
  - intros H. now rewrite O2, O1.
Qed.

Lemma frame_weaken (allowed allowed' : origin -> bool) (s s' : state) :
  (forall o, allowed o = true -> allowed' o = true) ->
  frame allowed s s' -> frame allowed' s s'.
Proof.
  intros Hsub ((ex & E & F) & U & O). split; [|split].
  - exists ex. split; auto. eapply Forall_impl; [|exact F]. simpl. auto.
  - intros H. apply U. destruct (allowed OUser) eqn:E'; auto.
    apply Hsub in E'. congruence.
  - intros H. apply O. destruct (allowed OUserOrgs) eqn:E'; auto.
    apply Hsub in E'. congruence.
Qed.

Lemma M_frame_ret {A : Type} (allowed : origin -> bool) (a : A) :
  M_frame allowed (ret a).
Proof. intros s r s' H. injection H as <- <-. apply frame_refl. Qed.

Lemma M_frame_raise {A : Type} (allowed : origin -> bool) (e : exn) :
  M_frame allowed (@raise World A e).
Proof. intros s r s' H. injection H as <- <-. apply frame_refl. Qed.

Lemma M_frame_pure {A : Type} (allowed : origin -> bool) (x : result A) :
  M_frame allowed (pure x).
Proof. intros s r s' H. injection H as <- <-. apply frame_refl. Qed.

Lemma M_frame_logger (allowed : origin -> bool) (l : level) (msg : string)
  (args : list json) :
  M_frame allowed (logger l msg args).
Proof.
  intros s r s' H. injection H as <- <-. split; [|split]; auto.
  exists []. simpl. now rewrite app_nil_r.
Qed.

Lemma M_frame_bind {A B : Type} (allowed : origin -> bool) (m : M A)
  (k : A -> M B) :
  M_frame allowed m -> (forall a, M_frame allowed (k a)) ->
  M_frame allowed (bind m k).
Proof.
  intros Hm Hk s r s' H.
  apply bind_inv in H as [(a & s1 & H1 & H2)|[(e & H1 & _)|(H1 & _)]].
  - eapply frame_trans; [eapply Hm|eapply Hk]; eauto.
  - eapply Hm; eauto.
  - eapply Hm; eauto.
Qed.

Lemma step_frame_run {Acc A : Type} (allowed : origin -> bool) (m : M A)
  (k : A -> step Acc) :
  M_frame allowed m -> (forall a, step_frame allowed (k a)) ->
  step_frame allowed (run m k).
Proof.
  intros Hm Hk acc s acc' r s' H.
  apply run_inv in H as [(a & s1 & H1 & H2)|[(e & H1 & _)|(H1 & _)]].
  - eapply frame_trans; [eapply Hm|eapply Hk]; eauto.
  - eapply Hm; eauto.
  - eapply Hm; eauto.
Qed.

Lemma step_frame_exit {Acc : Type} (allowed : origin -> bool) (f : flow) :
  step_frame allowed (@exit World Acc f).
Proof. intros acc s acc' r s' H. injection H as <- <- <-. apply frame_refl. Qed.

Lemma step_frame_append {X : Type} (allowed : origin -> bool) (x : X) :
  step_frame allowed (@append World X x).
Proof. intros acc s acc' r s' H. injection H as <- <- <-. apply frame_refl. Qed.

Lemma step_frame_assign {Acc : Type} (allowed : origin -> bool) (x : Acc)
  (f : flow) :
  step_frame allowed (@assign World Acc x f).
Proof. intros acc s acc' r s' H. injection H as <- <- <-. apply frame_refl. Qed.

Lemma M_frame_final {Acc : Type} (allowed : origin -> bool) (st : step Acc)
  (init : Acc) :
  step_frame allowed st -> M_frame allowed (final st init).
Proof.
  intros Hst s r s' H. apply final_inv in H as (acc & r0 & H & _).
  eapply Hst; eauto.
Qed.

Lemma step_frame_for_each {X Acc : Type} (allowed : origin -> bool)
  (body : X -> step Acc) (xs : list X) :
  (forall x, step_frame allowed (body x)) ->
  step_frame allowed (for_each body xs).
Proof.
  intros Hb acc s acc' r s' H.
  eapply (for_each_rule body (fun _ _ s1 => frame allowed s s1)
            (fun _ _ s1 => frame allowed s s1)); [| |apply frame_refl|exact H].
  - auto.
  - intros x xs0 a0 s0 a1 r1 s1 HI Hx.
    assert (frame allowed s s1) by (eapply frame_trans; [exact HI|eapply Hb; eauto]).
    destruct r1 as [[| |]|e|]; auto.
Qed.

Lemma M_frame_client_fetch (allowed : origin -> bool) (o : origin)
  (url : string) (payload : option dict) :
  allowed o = true -> M_frame allowed (GiteeClient.fetch L o url payload).
Proof.
  intros Ho s r s' H. unfold GiteeClient.fetch in H.
  destruct (HttpClient_fetch L (world s) url (GiteeClient.add_access_token L payload))
    as [rep w].
  assert (s' = mkState w (users s) (users_orgs s)
                 (net s ++ [mkExchange o url (GiteeClient.add_access_token L payload) rep])
                 (logs s)) as -> by (destruct rep; now injection H as <- <-).
  split; [|split]; auto. simpl. eexists. split; [reflexivity|].
  constructor; auto.
Qed.
#[local] Hint Resolve M_frame_client_fetch : frame.

Lemma fetch_items_next_origin (g : pager) (s : state) (items : string)
  (g' : pager) (s' : state) :
  GiteeClient.fetch_items_next L g s = (Ok (Some (items, g')), s') ->
  pager_origin g' = pager_origin g.
Proof.
  assert (W : forall o pl rsp pg tp (s0 s1 : state),
             GiteeClient.while_items o pl rsp pg tp s0 = (Ok (Some (items, g')), s1) ->
             pager_origin g' = o).
  { intros o pl rsp pg tp s0 s1 H. unfold GiteeClient.while_items in H.
    destruct (String.eqb (text rsp) ""); [discriminate|].
    injection H as _ <- _. reflexivity. }
  destruct g as [o path pl|o pl rsp pg tp]; simpl; intros H.
  - apply bind_inv in H as [(a & s1 & _ & H)|[(e & _ & ?)|(_ & ?)]];
      try discriminate.
    apply bind_inv in H as [(rsp & s2 & _ & H)|[(e & _ & ?)|(_ & ?)]];
      try discriminate.
    apply bind_inv in H as [(tp & s3 & _ & H)|[(e & _ & ?)|(_ & ?)]];
      try discriminate.
    eauto.
  - destruct (links_next rsp); [|discriminate].
    apply bind_inv in H as [(rsp' & s2 & _ & H)|[(e & _ & ?)|(_ & ?)]];
      try discriminate.
    apply bind_inv in H as [(u & s3 & _ & H)|[(e & _ & ?)|(_ & ?)]];
      try discriminate.
    eauto.
Qed.

Lemma M_frame_while_items (allowed : origin -> bool) (o : origin)
  (pl : dict) (rsp : response) (pg : Z) (tp : option Z) :
  M_frame allowed (GiteeClient.while_items o pl rsp pg tp).
Proof.
  unfold GiteeClient.while_items. destruct (String.eqb (text rsp) "");
    apply M_frame_ret.
Qed.

Lemma M_frame_fetch_items_next (allowed : origin -> bool) (g : pager) :
  allowed (pager_origin g) = true ->
  M_frame allowed (GiteeClient.fetch_items_next L g).
Proof.
  intros Ho. destruct g as [o path pl|o pl rsp pg tp]; simpl in *.
  - apply M_frame_bind; [apply M_frame_logger|intros _].
    apply M_frame_bind; [now apply M_frame_client_fetch|intros rsp].
    apply M_frame_bind; [|intros tp; apply M_frame_while_items].
    destruct (header_total_page rsp) as [[|c h]|]; try apply M_frame_ret.
    destruct (int_of_char c); [|apply M_frame_raise].
    apply M_frame_bind; [apply M_frame_logger|intros _; apply M_frame_ret].
  - destruct (links_next rsp); [|apply M_frame_ret].
    apply M_frame_bind; [now apply M_frame_client_fetch|intros rsp'].
    apply M_frame_bind; [|intros _; apply M_frame_while_items].
    destruct tp; [apply M_frame_logger|apply M_frame_raise].
Qed.

Lemma step_frame_for_pages {Acc : Type} (allowed : origin -> bool)
  (fuel : nat) (body : string -> step Acc) (g : pager) :
  allowed (pager_origin g) = true ->
  (forall items, step_frame allowed (body items)) ->
  step_frame allowed (for_pages L fuel body g).
Proof.
  intros Ho Hb acc s acc' r s' H.
  eapply (for_pages_rule body
            (fun g1 _ s1 => pager_origin g1 = pager_origin g /\
                            frame allowed s s1)
            (fun _ _ s1 => frame allowed s s1));
    [| |split; [reflexivity|apply frame_refl]|exact H].
  - intros g1 a1 s1 [_ HI]. exact HI.
  - intros g1 a1 s1 r1 s2 [Hg HI] Hn.
    assert (F : frame allowed s s2).
    { eapply frame_trans; [exact HI|].
      eapply M_frame_fetch_items_next; [|exact Hn]. now rewrite Hg. }
    destruct r1 as [[[items g2]|]|e|]; auto.
    intros a3 r3 s3 Hbody.
    assert (F' : frame allowed s s3)
      by (eapply frame_trans; [exact F|eapply Hb; eauto]).
    destruct r3 as [[| |]|e|]; auto.
    split; auto. rewrite <- Hg. eapply fetch_items_next_origin; eauto.
Qed.

Lemma step_frame_at {Acc : Type} (allowed : origin -> bool) (st : step Acc)
  (acc : Acc) :
  step_frame allowed st ->
  forall s acc' r s', st acc s = ((acc', r), s') -> frame allowed s s'.
Proof. intros H s acc' r s'. apply H. Qed.

Lemma M_frame_at {A : Type} (allowed : origin -> bool) (m : M A) :
  M_frame allowed m -> forall s r s', m s = (r, s') -> frame allowed s s'.
Proof. intros H s r s'. apply H. Qed.

Ltac frame_step :=
  first
    [ solve [auto 2 with frame nocore]
    | apply M_frame_ret | apply M_frame_raise | apply M_frame_pure
    | apply M_frame_logger | apply step_frame_exit
    | apply step_frame_append | apply step_frame_assign
    | apply M_frame_bind; [|intro]
    | apply step_frame_run; [|intro]
    | apply M_frame_final
    | apply step_frame_for_each; intro
    | match goal with
      | |- M_frame _ (if ?b then _ else _) => destruct b
      | |- step_frame _ (if ?b then _ else _) => destruct b
      end ].

Ltac frame_auto :=
  unfold loads, iter, item, set_item, get; repeat frame_step.

Lemma M_frame_set_users (allowed : origin -> bool) (login : json)
  (v : string) :
  allowed OUser = true -> M_frame allowed (set_users login v).
Proof.
  intros Ho s r s' H. injection H as <- <-. split; [|split]; simpl; auto.
  - exists []. now rewrite app_nil_r.
  - congruence.
Qed.
#[local] Hint Resolve M_frame_set_users : frame.

Lemma M_frame_set_users_orgs (allowed : origin -> bool) (login : json)
  (v : string) :
  allowed OUserOrgs = true -> M_frame allowed (set_users_orgs login v).
Proof.
  intros Ho s r s' H. injection H as <- <-. split; [|split]; simpl; auto.
  - exists []. now rewrite app_nil_r.
  - congruence.
Qed.
#[local] Hint Resolve M_frame_set_users_orgs : frame.

Lemma M_frame_user (allowed : origin -> bool) (login : json) :
  allowed OUser = true -> M_frame allowed (GiteeClient.user L login).
Proof.
  intros Ho s r s' H. unfold GiteeClient.user in H.
  destruct (negb (hashable login)).
  { injection H as <- <-. apply frame_refl. }
  destruct (cache_get login (users s)).
  { injection H as <- <-. apply frame_refl. }
  revert H. apply M_frame_at.
  frame_auto; auto using M_frame_client_fetch, M_frame_set_users.
Qed.
#[local] Hint Resolve M_frame_user : frame.

Lemma M_frame_except_HTTPError {A : Type} (allowed : origin -> bool)
  (m : M A) (h : Z -> M A) :
  M_frame allowed m -> (forall c, M_frame allowed (h c)) ->
  M_frame allowed (except_HTTPError m h).
Proof.
  intros Hm Hh s r s' H. unfold except_HTTPError in H.
  destruct (m s) as [r1 s1] eqn:E.
  assert (F : frame allowed s s1) by (eapply Hm; eauto).
  destruct r1 as [a|[c| | | | | | | |]|]; try (injection H as <- <-; exact F).
  eapply frame_trans; [exact F|eapply Hh; eauto].
Qed.

Lemma M_frame_user_orgs (allowed : origin -> bool) (login : json) :
  allowed OUserOrgs = true -> M_frame allowed (GiteeClient.user_orgs L login).
Proof.
  intros Ho s r s' H. unfold GiteeClient.user_orgs in H.
  destruct (negb (hashable login)).
  { injection H as <- <-. apply frame_refl. }
  destruct (cache_get login (users_orgs s)).
  { injection H as <- <-. apply frame_refl. }
  revert H. apply M_frame_at.
  apply M_frame_bind; [|intro; frame_auto; now apply M_frame_set_users_orgs].
  apply M_frame_except_HTTPError.
  - frame_auto; auto using M_frame_client_fetch.
  - intro c. frame_auto.
Qed.
#[local] Hint Resolve M_frame_user_orgs : frame.

Section Enrichment.

Variable exclude_user_data : bool.
Variable allowed : origin -> bool.
Hypothesis allowed_enrichment :
  forall o, enrichment exclude_user_data o = true -> allowed o = true.
#[local] Hint Resolve allowed_enrichment : frame.

Lemma M_frame_get_user (login : json) :
  M_frame allowed (Gitee.__get_user L exclude_user_data login).
Proof.
  unfold Gitee.__get_user.
  destruct (negb (truthy login) || exclude_user_data) eqn:E; [apply M_frame_ret|].
  apply orb_false_iff in E as [_ ->].
  frame_auto;
    auto using M_frame_user, M_frame_user_orgs, allowed_enrichment.
Qed.
#[local] Hint Resolve M_frame_get_user : frame.

Lemma M_frame_get_users (items : json) :
  M_frame allowed (Gitee.__get_users L exclude_user_data items).
Proof. unfold Gitee.__get_users. frame_auto; apply M_frame_get_user. Qed.

Lemma M_frame_get_issue_assignee (raw : json) :
  M_frame allowed (Gitee.__get_issue_assignee L exclude_user_data raw).
Proof. unfold Gitee.__get_issue_assignee. frame_auto; apply M_frame_get_user. Qed.

Lemma M_frame_get_issue_collaborators (raw : json) :
  M_frame allowed (Gitee.__get_issue_collaborators L exclude_user_data raw).
Proof.
  unfold Gitee.__get_issue_collaborators. frame_auto; apply M_frame_get_user.
Qed.
#[local] Hint Resolve M_frame_get_issue_collaborators : frame.
#[local] Hint Resolve M_frame_get_issue_assignee : frame.
#[local] Hint Resolve M_frame_get_users : frame.

Lemma M_frame_get_issue_comments (fuel : nat) (n : json) :
  M_frame allowed (Gitee.__get_issue_comments L exclude_user_data fuel n).
Proof.
  unfold Gitee.__get_issue_comments. frame_auto.
  apply step_frame_for_pages; [now apply allowed_enrichment|intro].
  frame_auto; apply M_frame_get_user.
Qed.
#[local] Hint Resolve M_frame_get_issue_comments : frame.

Lemma M_frame_get_pull_merged_by (fuel : nat) (n : json) :
  M_frame allowed (Gitee.__get_pull_merged_by L fuel n).
Proof.
  unfold Gitee.__get_pull_merged_by. frame_auto.
  apply step_frame_for_pages; [now apply allowed_enrichment|intro].
  frame_auto.
Qed.
#[local] Hint Resolve M_frame_get_pull_merged_by : frame.

Lemma M_frame_tolerate_404 (st : step (list json)) (msg : string)
  (n : json) :
  step_frame allowed st -> M_frame allowed (Gitee.tolerate_404 st msg n).
Proof.
  intros Hst s r s' H. unfold Gitee.tolerate_404 in H.
  destruct (st [] s) as [[acc r1] s1] eqn:E.
  assert (F : frame allowed s s1) by (eapply Hst; eauto).
  destruct r1 as [f|[c| | | | | | | |]|]; try (injection H as <- <-; exact F).
  destruct (c =? 404); [|injection H as <- <-; exact F].
  eapply frame_trans; [exact F|]. revert H. apply M_frame_at. frame_auto.
Qed.

Lemma M_frame_get_pull_commits (fuel : nat) (n : json) :
  M_frame allowed (Gitee.__get_pull_commits L fuel n).
Proof.
  unfold Gitee.__get_pull_commits. apply M_frame_tolerate_404.
  apply step_frame_for_pages; [now apply allowed_enrichment|intro].
  frame_auto.
Qed.
#[local] Hint Resolve M_frame_get_pull_commits : frame.

Lemma M_frame_get_pull_review_comments (fuel : nat) (n : json) :
  M_frame allowed (Gitee.__get_pull_review_comments L exclude_user_data fuel n).
Proof.
  unfold Gitee.__get_pull_review_comments. apply M_frame_tolerate_404.
  apply step_frame_for_pages; [now apply allowed_enrichment|intro].
  frame_auto; apply M_frame_get_user.
Qed.
#[local] Hint Resolve M_frame_get_pull_review_comments : frame.

Lemma M_frame_init_extra_issue_fields (issue : json) :
  M_frame allowed (Gitee.__init_extra_issue_fields issue).
Proof. unfold Gitee.__init_extra_issue_fields. frame_auto. Qed.

Lemma M_frame_init_extra_pull_fields (pull : json) :
  M_frame allowed (Gitee.__init_extra_pull_fields pull).
Proof. unfold Gitee.__init_extra_pull_fields. frame_auto. Qed.

Lemma step_frame_issue_field (fuel : nat) (field : string) :
  step_frame allowed (Gitee.issue_field L exclude_user_data fuel field).
Proof.
  unfold Gitee.issue_field. intros issue. apply step_frame_at.
  frame_auto;
    auto using M_frame_get_user, M_frame_get_issue_assignee,
      M_frame_get_issue_collaborators, M_frame_get_issue_comments.
Qed.
#[local] Hint Resolve step_frame_issue_field : frame.
#[local] Hint Resolve M_frame_init_extra_pull_fields : frame.
#[local] Hint Resolve M_frame_init_extra_issue_fields : frame.

Lemma step_frame_pull_field (fuel : nat) (field : string) :
  step_frame allowed (Gitee.pull_field L exclude_user_data fuel field).
Proof.
  unfold Gitee.pull_field. intros pull. apply step_frame_at.
  frame_auto;
    auto using M_frame_get_user, M_frame_get_users,
      M_frame_get_pull_review_comments, M_frame_get_pull_commits,
      M_frame_get_pull_merged_by.
Qed.
#[local] Hint Resolve step_frame_pull_field : frame.

End Enrichment.

(** ** Code that does not look at the caches *)

Lemma M_blind_ret {A : Type} (a : A) : M_blind (ret a).
Proof. intros s t H. split; auto. Qed.

Lemma M_blind_raise {A : Type} (e : exn) : M_blind (@raise World A e).
Proof. intros s t H. split; auto. Qed.

Lemma M_blind_pure {A : Type} (x : result A) : M_blind (pure x).
Proof. intros s t H. split; auto. Qed.

Lemma M_blind_logger (l : level) (msg : string) (args : list json) :
  M_blind (logger l msg args).
Proof.
  intros s t (Hw & Hn & Hl). split; auto.
  repeat split; simpl; congruence.
Qed.

Lemma M_blind_bind {A B : Type} (m : M A) (k : A -> M B) :
  M_blind m -> (forall a, M_blind (k a)) -> M_blind (bind m k).
Proof.
  intros Hm Hk s t Hst. unfold bind.
  destruct (Hm s t Hst) as [E1 E2].
  destruct (m s) as [r1 s1], (m t) as [r2 t1]. simpl in *. subst r2.
  destruct r1; [now apply Hk|split; auto..].
Qed.

Lemma step_blind_run {Acc A : Type} (m : M A) (k : A -> step Acc) :
  M_blind m -> (forall a, step_blind (k a)) -> step_blind (run m k).
Proof.
  intros Hm Hk acc s t Hst. unfold run.
  destruct (Hm s t Hst) as [E1 E2].
  destruct (m s) as [r1 s1], (m t) as [r2 t1]. simpl in *. subst r2.
  destruct r1; [now apply Hk|split; auto..].
Qed.

Lemma step_blind_exit {Acc : Type} (f : flow) : step_blind (@exit World Acc f).
Proof. intros acc s t H. split; auto. Qed.

Lemma step_blind_append {X : Type} (x : X) : step_blind (@append World X x).
Proof. intros acc s t H. split; auto. Qed.

Lemma step_blind_assign {Acc : Type} (x : Acc) (f : flow) :
  step_blind (@assign World Acc x f).
Proof. intros acc s t H. split; auto. Qed.

Lemma step_blind_at {Acc : Type} (st : step Acc) (acc : Acc) :
  step_blind st ->
  forall s t, same_but_caches s t ->
    fst (st acc s) = fst (st acc t) /\
    same_but_caches (snd (st acc s)) (snd (st acc t)).
Proof. intros H s t. apply H. Qed.

Lemma M_blind_final {Acc : Type} (st : step Acc) (init : Acc) :
  step_blind st -> M_blind (final st init).
Proof.
  intros Hst s t H. unfold final.
  destruct (Hst init s t H) as [E1 E2].
  destruct (st init s) as [[a1 r1] s1], (st init t) as [[a2 r2] t1].
  simpl in *. injection E1 as <- <-. destruct r1; split; auto.
Qed.

Lemma step_blind_for_each {X Acc : Type} (body : X -> step Acc)
  (xs : list X) :
  (forall x, step_blind (body x)) -> step_blind (for_each body xs).
Proof.
  intros Hb. induction xs as [|x xs IH]; intros acc s t H.
  - split; auto.
  - simpl. destruct (Hb x acc s t H) as [E1 E2].
    destruct (body x acc s) as [[a1 r1] s1], (body x acc t) as [[a2 r2] t1].
    simpl in *. injection E1 as <- <-.
    destruct r1 as [[| |]|e|]; try solve [split; auto]. now apply IH.
Qed.

Lemma M_blind_client_fetch (o : origin) (url : string)
  (payload : option dict) :
  M_blind (GiteeClient.fetch L o url payload).
Proof.
  intros s t (Hw & Hn & Hl). unfold GiteeClient.fetch. rewrite Hw.
  destruct (HttpClient_fetch L (world t) url
              (GiteeClient.add_access_token L payload)) as [rep w].
  destruct rep; simpl; (split; [reflexivity|]);
    repeat split; simpl; congruence.
Qed.

Create HintDb blind.
#[local] Hint Resolve M_blind_client_fetch : blind.

Ltac blind_step :=
  first
    [ solve [auto 2 with blind nocore]
    | apply M_blind_ret | apply M_blind_raise | apply M_blind_pure
    | apply M_blind_logger | apply step_blind_exit
    | apply step_blind_append | apply step_blind_assign
    | apply M_blind_bind; [|intro]
    | apply step_blind_run; [|intro]
    | apply M_blind_final
    | apply step_blind_for_each; intro
    | match goal with
      | |- M_blind (if ?b then _ else _) => destruct b
      | |- step_blind (if ?b then _ else _) => destruct b
      | |- M_blind (match ?x with _ => _ end) => destruct x
      end ].

Ltac blind_auto :=
  unfold loads, iter, item, set_item, get; repeat blind_step.

Lemma M_blind_fetch_items_next (g : pager) :
  M_blind (GiteeClient.fetch_items_next L g).
Proof.
  destruct g as [o path pl|o pl rsp pg tp]; simpl;
    unfold GiteeClient.while_items; blind_auto.
Qed.
#[local] Hint Resolve M_blind_fetch_items_next : blind.

Lemma step_blind_for_pages {Acc : Type} (fuel : nat)
  (body : string -> step Acc) (g : pager) :
  (forall items, step_blind (body items)) ->
  step_blind (for_pages L fuel body g).
Proof.
  intros Hb. revert g.
  induction fuel as [|fuel IH]; intros g acc s t H.
  - split; auto.
  - simpl. destruct (M_blind_fetch_items_next g s t H) as [E1 E2].
    destruct (GiteeClient.fetch_items_next L g s) as [r1 s1],
             (GiteeClient.fetch_items_next L g t) as [r2 t1].
    simpl in *. subst r2.
    destruct r1 as [[[items g']|]|e|]; try solve [split; auto].
    destruct (Hb items acc s1 t1 E2) as [E3 E4].
    destruct (body items acc s1) as [[a1 r1] s2],
             (body items acc t1) as [[a2 r2] t2].
    simpl in *. injection E3 as <- <-.
    destruct r1 as [[| |]|e|]; try solve [split; auto]. now apply IH.
Qed.

Lemma M_blind_tolerate_404 (st : step (list json)) (msg : string)
  (n : json) :
  step_blind st -> M_blind (Gitee.tolerate_404 st msg n).
Proof.
  intros Hst s t H. unfold Gitee.tolerate_404.
  destruct (Hst [] s t H) as [E1 E2].
  destruct (st [] s) as [[a1 r1] s1], (st [] t) as [[a2 r2] t1].
  simpl in *. injection E1 as <- <-.
  destruct r1 as [f|[c| | | | | | | |]|]; try solve [split; auto].
  destruct (c =? 404); [|split; auto].
  revert E2. generalize s1 t1.
  change (M_blind (bind (logger ERROR msg [n]) (fun _ => ret (JArr a1)))).
  blind_auto.
Qed.

(** With user data excluded, nothing of the enrichment looks at the
    caches. *)
Lemma M_blind_get_user (login : json) :
  M_blind (Gitee.__get_user L true login).
Proof.
  unfold Gitee.__get_user. rewrite orb_true_r. apply M_blind_ret.
Qed.
#[local] Hint Resolve M_blind_get_user : blind.

Lemma step_blind_issue_field (fuel : nat) (field : string) :
  step_blind (Gitee.issue_field L true fuel field).
Proof.
  unfold Gitee.issue_field. intros issue. apply step_blind_at.
  unfold Gitee.__get_issue_assignee, Gitee.__get_issue_collaborators,
    Gitee.__get_issue_comments.
  blind_auto.
  apply step_blind_for_pages. intro. blind_auto.
Qed.

Lemma step_blind_pull_field (fuel : nat) (field : string) :
  step_blind (Gitee.pull_field L true fuel field).
Proof.
  unfold Gitee.pull_field. intros pull. apply step_blind_at.
  unfold Gitee.__get_users, Gitee.__get_pull_review_comments,
    Gitee.__get_pull_commits, Gitee.__get_pull_merged_by.
  blind_auto;
    try (apply M_blind_tolerate_404);
    try (apply step_blind_for_pages; intro); blind_auto.
Qed.

Lemma step_blind_fetch_items (fuel : nat) (category : string)
  (from_date to_date : Z) :
  step_blind (Gitee.fetch_items L true fuel category from_date to_date).
Proof.
  unfold Gitee.fetch_items.
  destruct (String.eqb category CATEGORY_ISSUE).
  { unfold Gitee.__fetch_issues. apply step_blind_for_pages. intro.
    unfold Gitee.__init_extra_issue_fields.
    blind_auto. apply step_blind_issue_field. }
  destruct (String.eqb category CATEGORY_PULL_REQUEST).
  { unfold Gitee.__fetch_pull_requests. apply step_blind_for_pages. intro.
    unfold Gitee.__init_extra_pull_fields.
    blind_auto. apply step_blind_pull_field. }
  unfold Gitee.__fetch_repo_info, GiteeClient.repo, GiteeClient.repo_releases.
  blind_auto.
  intros s t H. split; [simpl; f_equal; f_equal; apply H|exact H].
Qed.

(** ** What a request and a generator step leave in the state *)

Lemma logger_inv (l : level) (msg : string) (args : list json) (s : state)
  (r : result unit) (s' : state) :
  logger l msg args s = (r, s') ->
  r = Ok tt /\ net s' = net s /\ world s' = world s /\
  users s' = users s /\ users_orgs s' = users_orgs s /\
  logs s' = logs s ++ [mkLog l msg args].
Proof. intros H. injection H as <- <-. simpl. auto 6. Qed.

Lemma client_fetch_inv (o : origin) (url : string) (payload : option dict)
  (s : state) (r : result response) (s' : state) :
  GiteeClient.fetch L o url payload s = (r, s') ->
  exists rep w,
    HttpClient_fetch L (world s) url (GiteeClient.add_access_token L payload) = (rep, w) /\
    s' = mkState w (users s) (users_orgs s)
           (net s ++ [mkExchange o url (GiteeClient.add_access_token L payload) rep])
           (logs s) /\
    r = match rep with Reply x => Ok x | Failure e => Raise e end.
Proof.
  unfold GiteeClient.fetch.
  destruct (HttpClient_fetch L (world s) url (GiteeClient.add_access_token L payload))
    as [rep w].
  intros H. exists rep, w. destruct rep; injection H as <- <-; auto.
Qed.

Lemma received_app (o : origin) (a b : list exchange) :
  received L o (a ++ b) = received L o a ++ received L o b.
Proof. apply flat_map_app. Qed.

Lemma origin_eqb_refl (o : origin) : origin_eqb o o = true.
Proof. now destruct o. Qed.

Lemma origin_eqb_eq (a b : origin) : origin_eqb a b = true -> a = b.
Proof. destruct a, b; simpl; congruence. Qed.

Lemma received_frame (allowed : origin -> bool) (o : origin)
  (s s' : state) :
  allowed o = false -> frame allowed s s' ->
  exists ex, net s' = net s ++ ex /\ received L o ex = [].
Proof.
  intros Ho ((ex & E & F) & _). exists ex. split; auto. clear E.
  induction F as [|e ex He _ IH]; auto.
  simpl. rewrite IH, app_nil_r.
  destruct (origin_eqb (ex_origin e) o) eqn:Eo; auto.
  apply origin_eqb_eq in Eo. congruence.
Qed.

Lemma while_items_inv (o : origin) (pl : dict) (rsp : response) (pg : Z)
  (tp : option Z) (s : state) (r : result (option (string * pager)))
  (s' : state) :
  GiteeClient.while_items o pl rsp pg tp s = (r, s') ->
  s' = s /\
  ((text rsp = "" /\ r = Ok None) \/
   (text rsp <> "" /\
    r = Ok (Some (text rsp, PagerYielded o pl rsp pg tp)))).
Proof.
  unfold GiteeClient.while_items. destruct (String.eqb (text rsp) "") eqn:E;
    intros H; injection H as <- <-; split; auto.
  - left. split; auto. now apply String.eqb_eq.
  - right. split; auto. now apply String.eqb_neq.
Qed.

Lemma received_one (o : origin) (url : string) (p : option dict)
  (rsp : response) :
  received L o [mkExchange o url p (Reply rsp)] =
  if String.eqb (text rsp) "" then [] else records_of L (text rsp).
Proof.
  unfold received. simpl. rewrite origin_eqb_refl. apply app_nil_r.
Qed.

Lemma while_items_spec (o : origin) (pl : dict) (rsp : response) (pg : Z)
  (tp : option Z) (s : state) (r : result (option (string * pager)))
  (s' : state) :
  GiteeClient.while_items o pl rsp pg tp s = (r, s') ->
  s' = s /\
  match r with
  | Ok (Some (items, _)) => items = text rsp /\ items <> ""
  | Ok None => text rsp = ""
  | Raise _ => True
  | OutOfFuel => False
  end.
Proof.
  intros H. apply while_items_inv in H as [-> [[E ->]|[E ->]]]; auto.
Qed.

(** The part of [fetch_items] that reads the [total_page] header. *)
Lemma total_page_spec (rsp : response) (page : Z) (s : state)
  (r : result (option Z)) (s' : state) :
  match header_total_page rsp with
  | Some (String c _) =>
      match int_of_char c with
      | Some n =>
          bind (logger DEBUG "Page: %i/%i" [JNum page; JNum n])
               (fun _ => ret (Some n))
      | None => raise ValueError
      end
  | _ => ret None
  end s = (r, s') ->
  net s' = net s /\ r <> OutOfFuel.
Proof.
  destruct (header_total_page rsp) as [[|c h]|].
  - intros H. injection H as <- <-. split; [auto|discriminate].
  - destruct (int_of_char c).
    + intros H. unfold bind, logger, ret in H. injection H as <- <-.
      split; [auto|discriminate].
    + intros H. injection H as <- <-. split; [auto|discriminate].
  - intros H. injection H as <- <-. split; [auto|discriminate].
Qed.

(** One step of a generator.  Either the page it stopped at has no next
    link and it is exhausted without a request, or it issues one request:
    when the request fails the step raises the failure; when it succeeds
    the step yields the body of the response if it is not empty, it is
    exhausted if the body is empty, or it raises an exception of its
    own. *)
Lemma fetch_items_next_step (g : pager) (s : state)
  (r : result (option (string * pager))) (s1 : state) :
  GiteeClient.fetch_items_next L g s = (r, s1) ->
  (net s1 = net s /\ r = Ok None) \/
  exists e, net s1 = net s ++ [e] /\ ex_origin e = pager_origin g /\
    match ex_reply e with
    | Failure x => r = Raise x
    | Reply rsp =>
        match r with
        | Ok (Some (items, _)) => items = text rsp /\ items <> ""
        | Ok None => text rsp = ""
        | Raise _ => True
        | OutOfFuel => False
        end
    end.
Proof.
  destruct g as [o path pl|o pl rsp pg tp]; simpl; intros H.
  - right.
    apply bind_inv in H as [(a & s2 & Hl & H)|[(e & Hl & ?)|(Hl & ?)]];
      apply logger_inv in Hl as (Ha & Hn & _); try discriminate.
    apply bind_inv in H as [(x & s3 & Hf & H)|[(e & Hf & ->)|(Hf & ->)]];
      apply client_fetch_inv in Hf as (rep & w & _ & -> & Hr).
    2: { exists (mkExchange o
                   (urijoin L [JStr (base_url L); JStr "repos";
                               JStr (owner L); JStr (repository L);
                               JStr path])
                   (GiteeClient.add_access_token L (Some pl)) rep).
         simpl. rewrite Hn. repeat split. destruct rep; congruence. }
    2: { destruct rep; discriminate. }
    destruct rep as [x'|e]; [injection Hr as ->|discriminate].
    exists (mkExchange o
              (urijoin L [JStr (base_url L); JStr "repos";
                          JStr (owner L); JStr (repository L); JStr path])
              (GiteeClient.add_access_token L (Some pl)) (Reply x')).
    simpl.
    apply bind_inv in H as [(tp & s4 & Ht & H)|[(e & Ht & ->)|(Ht & ->)]];
      apply total_page_spec in Ht as [Ht Hne]; simpl in Ht.
    + apply while_items_spec in H as [-> H].
      rewrite Ht, Hn. auto.
    + rewrite Ht, Hn. auto.
    + now destruct Hne.
  - destruct (links_next rsp) as [url|].
    2: { injection H as <- <-. now left. }
    right.
    apply bind_inv in H as [(x & s3 & Hf & H)|[(e & Hf & ->)|(Hf & ->)]];
      apply client_fetch_inv in Hf as (rep & w & _ & -> & Hr).
    2: { exists (mkExchange o url (GiteeClient.add_access_token L (Some pl)) rep).
         simpl. repeat split. destruct rep; congruence. }
    2: { destruct rep; discriminate. }
    destruct rep as [x'|e]; [injection Hr as ->|discriminate].
    exists (mkExchange o url (GiteeClient.add_access_token L (Some pl)) (Reply x')).
    simpl.
    apply bind_inv in H as [(u & s4 & Ht & H)|[(e & Ht & ->)|(Ht & ->)]].
    + destruct tp as [n|]; [|discriminate].
      apply logger_inv in Ht as (_ & Hn4 & _).
      apply while_items_spec in H as [-> H]. rewrite Hn4. auto.
    + destruct tp as [n|].
      * apply logger_inv in Ht as (? & _). discriminate.
      * injection Ht as <- <-. auto.
    + destruct tp as [n|]; [|discriminate].
      apply logger_inv in Ht as (? & _). discriminate.
Qed.

(** The records of the page a step yields are what its request received,
    and it received nothing when the generator is exhausted. *)
Lemma fetch_items_next_received (g : pager) (s : state)
  (r : result (option (string * pager))) (s1 : state) :
  GiteeClient.fetch_items_next L g s = (r, s1) ->
  exists ex1, net s1 = net s ++ ex1 /\
    match r with
    | Ok (Some (items, _)) =>
        received L (pager_origin g) ex1 = records_of L items
    | Ok None => received L (pager_origin g) ex1 = []
    | _ => True
    end.
Proof.
  intros H.
  apply fetch_items_next_step in H as [[E ->]|(e & E & Ho & He)].
  - exists []. now rewrite app_nil_r.
  - exists [e]. split; auto.
    destruct e as [o url p rep]. simpl in Ho, He. subst o.
    destruct rep as [rsp|x].
    + rewrite received_one.
      destruct r as [[[items g']|]|x|]; auto.
      * destruct He as [-> Hne]. apply String.eqb_neq in Hne.
        now rewrite Hne.
      * now rewrite He.
    + subst r. auto.
Qed.

(** ** The two list drivers *)

Section HarvestLoop.

Variable keys : list string.
Variable o : origin.
Variable stop : Z -> bool.
Variables init enrich : json -> M json.
Variable allowed : origin -> bool.

Hypothesis keys_updated_at : ~ In "updated_at" keys.
Hypothesis allowed_o : allowed o = false.
Hypothesis init_spec :
  forall record s r s', init record s = (r, s') ->
    s' = s /\ forall record', r = Ok record' -> same_but keys record record'.
Hypothesis enrich_frame : forall record, M_frame allowed (enrich record).
Hypothesis enrich_same :
  forall record s record' s', enrich record s = (Ok record', s') ->
    same_but keys record record'.

Variable s0 : state.

Local Abbreviation reading := (reading L keys o stop s0).

Lemma reading_failed (xs acc : list json) (s1 : state) (r : result flow) :
  reading xs acc s1 -> (forall f, r <> Ok f) ->
  harvested L keys o stop s0 acc r s1.
Proof.
  intros (ex & seen & E & R & F2 & F) Hr.
  exists ex, seen, xs. repeat split; auto.
  intros [f ->]. now destruct (Hr f).
Qed.

Lemma reading_frame (xs acc : list json) (s1 s2 : state) :
  reading xs acc s1 -> frame allowed s1 s2 -> reading xs acc s2.
Proof.
  intros (ex & seen & E & R & F2 & F) Hf.
  destruct (received_frame allowed o s1 s2 allowed_o Hf) as (ex2 & E2 & R2).
  exists (ex ++ ex2), seen. repeat split; auto.
  - now rewrite E2, E, app_assoc.
  - now rewrite received_app, R2, app_nil_r.
Qed.

Lemma harvest_record (x : json) (xs acc : list json) (s1 : state)
  (acc' : list json) (r : result flow) (s' : state) :
  reading (x :: xs) acc s1 ->
  run (item x "updated_at") (fun updated_at =>
  run (pure (of_sum (str_to_datetime L updated_at))) (fun updated =>
  if stop updated then exit Return
  else
    run (init x) (fun record =>
    run (enrich record) (fun record =>
    append record)))) acc s1 = ((acc', r), s') ->
  match r with
  | Ok Next => reading xs acc' s'
  | Ok Break => False
  | _ => harvested L keys o stop s0 acc' r s'
  end.
Proof.
  intros HI H.
  apply run_inv in H as [(u & s2 & H1 & H)|[(e & H1 & -> & ->)|(H1 & -> & ->)]];
    apply pure_inv in H1 as [Hu ->].
  2, 3: eapply reading_failed; [exact HI|discriminate].
  apply run_inv in H as [(t & s2 & H1 & H)|[(e & H1 & -> & ->)|(H1 & -> & ->)]];
    apply pure_inv in H1 as [Ht ->].
  2, 3: eapply reading_failed; [exact HI|discriminate].
  assert (Hx : updated_on L x = Ok t) by (unfold updated_on; now rewrite <- Hu).
  destruct (stop t) eqn:Hstop.
  { injection H as <- <- <-.
    destruct HI as (ex & seen & E & R & F2 & F).
    exists ex, seen, (x :: xs). repeat split; auto.
    intros _. right. exists x, xs, t. auto. }
  apply run_inv in H as [(x1 & s2 & H1 & H)|[(e & H1 & -> & ->)|(H1 & -> & ->)]];
    apply init_spec in H1 as [-> Hsame1].
  2, 3: eapply reading_failed; [exact HI|discriminate].
  specialize (Hsame1 _ eq_refl).
  apply run_inv in H as [(x2 & s2 & H1 & H)|[(e & H1 & -> & ->)|(H1 & -> & ->)]];
    pose proof (enrich_frame _ _ _ _ H1) as Hf;
    pose proof (reading_frame _ _ _ _ HI Hf) as HI2.
  2, 3: eapply reading_failed; [exact HI2|discriminate].
  apply enrich_same in H1.
  assert (Hsame : same_but keys x x2) by (eapply same_but_trans; eauto).
  injection H as <- <- <-.
  destruct HI2 as (ex & seen & E & R & F2 & F).
  exists ex, (seen ++ [x]). repeat split; auto.
  - now rewrite <- app_assoc.
  - apply Forall2_app; auto.
  - apply Forall_app. split; auto. constructor; auto.
    exists t. split; auto. unfold updated_on.
    now rewrite (same_but_getitem keys x x2 "updated_at" Hsame keys_updated_at),
      <- Hu.
Qed.

Lemma harvest_loop_harvested (fuel : nat) (g : pager) (out : list json)
  (r : result flow) (s' : state) :
  pager_origin g = o ->
  harvest_loop L stop init enrich fuel g [] s0 = ((out, r), s') ->
  harvested L keys o stop s0 out r s'.
Proof.
  intros Hg H. unfold harvest_loop in H.
  eapply (for_pages_rule _
            (fun g1 acc s1 => pager_origin g1 = o /\ reading [] acc s1)
            (harvested L keys o stop s0)); [| | |exact H].
  - intros g1 acc s1 [_ HI]. eapply reading_failed; [exact HI|discriminate].
  - intros g1 acc s1 r1 s2 [Hg1 HI] Hn.
    destruct (fetch_items_next_received _ _ _ _ Hn) as (ex1 & E1 & R1).
    rewrite Hg1 in R1.
    destruct HI as (ex & seen & E & R & F2 & F). rewrite app_nil_r in R.
    assert (Hpage : forall xs, received L o ex1 = xs -> reading xs acc s2).
    { intros xs Hxs. exists (ex ++ ex1), seen. repeat split; auto.
      - now rewrite E1, E, app_assoc.
      - now rewrite received_app, R, Hxs. }
    destruct r1 as [[[items g2]|]|e|].
    + intros acc' r' s3 Hb.
      apply run_inv in Hb
          as [(d & s4 & H1 & Hb)|[(e & H1 & -> & ->)|(H1 & -> & ->)]];
        apply pure_inv in H1 as [Hd ->].
      2, 3: eapply reading_failed; [eapply Hpage; reflexivity|discriminate].
      apply run_inv in Hb
          as [(l & s4 & H1 & Hb)|[(e & H1 & -> & ->)|(H1 & -> & ->)]];
        apply pure_inv in H1 as [Hl ->].
      2, 3: eapply reading_failed; [eapply Hpage; reflexivity|discriminate].
      assert (Hrec : records_of L items = l).
      { unfold records_of. destruct (json_loads L items); [|discriminate].
        injection Hd as ->. now rewrite <- Hl. }
      assert (Hend :
                match r' with
                | Ok Next => reading [] acc' s3
                | Ok Break => False
                | _ => harvested L keys o stop s0 acc' r' s3
                end).
      { eapply (for_each_rule _ reading
                  (fun a r0 s5 =>
                     match r0 with
                     | Ok Next => reading [] a s5
                     | Ok Break => False
                     | _ => harvested L keys o stop s0 a r0 s5
                     end)); [| | |exact Hb].
        - auto.
        - intros x xs a s5 a' r0 s6 Hr Hx.
          pose proof (harvest_record _ _ _ _ _ _ _ Hr Hx) as Hs.
          destruct r0 as [[| |]|e|]; auto. contradiction.
        - apply Hpage. congruence. }
      destruct r' as [[| |]|e|]; auto; [|contradiction].
      split; auto. rewrite <- Hg1. eapply fetch_items_next_origin; eauto.
    + destruct (Hpage [] R1) as (ex2 & seen2 & E2 & R2 & F22 & F2').
      exists ex2, seen2, []. repeat split; auto.
    + eapply reading_failed; [eapply Hpage; reflexivity|discriminate].
    + eapply reading_failed; [eapply Hpage; reflexivity|discriminate].
  - split; auto. exists [], []. repeat split; auto. now rewrite app_nil_r.
Qed.

End HarvestLoop.

Lemma set_item_inv (j : json) (k : string) (v : json) (s : state)
  (r : result json) (s' : state) :
  set_item j k v s = (r, s') -> r = setitem j k v /\ s' = s.
Proof. apply pure_inv. Qed.

Lemma item_inv (j : json) (k : string) (s : state) (r : result json)
  (s' : state) :
  item j k s = (r, s') -> r = getitem j k /\ s' = s.
Proof. apply pure_inv. Qed.

(** Inversion of a chain of [run]s in [H]: one goal for the chain running
    to its end, and one for every place it can fail at, where the local
    variable is what it was. *)
Ltac run_cases H :=
  let H1 := fresh "Hrun" in
  apply run_inv in H
      as [(? & ? & H1 & H)|[(? & H1 & -> & ->)|(H1 & -> & ->)]].

Ltac bind_cases H :=
  let H1 := fresh "Hbind" in
  apply bind_inv in H
      as [(? & ? & H1 & H)|[(? & H1 & ->)|(H1 & ->)]].

(** Inversion of a [bind] in [H] that is known to return a value. *)
Ltac bind_ok H :=
  let H1 := fresh "Hbind" in
  apply bind_inv in H as [(? & ? & H1 & H)|[(? & _ & ?)|(_ & ?)]];
  [|discriminate..].

Lemma init_extra_issue_fields_spec (issue : json) (s : state)
  (r : result json) (s' : state) :
  Gitee.__init_extra_issue_fields issue s = (r, s') ->
  s' = s /\
  forall issue', r = Ok issue' -> same_but ISSUE_DATA_FIELDS issue issue'.
Proof.
  unfold Gitee.__init_extra_issue_fields. intros H.
  destruct issue as [| | | | |m];
    try (injection H as <- <-; split; [reflexivity|discriminate]).
  injection H as <- <-. split; auto. intros ? [= <-].
  eexists _, _. repeat split. intros k Hk.
  rewrite !dict_get_set_other; auto; intros ->; apply Hk; simpl; auto 6.
Qed.

Lemma init_extra_pull_fields_spec (pull : json) (s : state)
  (r : result json) (s' : state) :
  Gitee.__init_extra_pull_fields pull s = (r, s') ->
  s' = s /\
  forall pull', r = Ok pull' -> same_but PULL_DATA_FIELDS pull pull'.
Proof.
  unfold Gitee.__init_extra_pull_fields. intros H.
  destruct pull as [| | | | |m];
    try (injection H as <- <-; split; [reflexivity|discriminate]).
  injection H as <- <-. split; auto. intros ? [= <-].
  eexists _, _. repeat split. intros k Hk.
  rewrite !dict_get_set_other; auto; intros ->; apply Hk; simpl; auto 10.
Qed.

(** A field of an issue is enriched by setting one of the data fields. *)
Lemma issue_field_same (e : bool) (fuel : nat) (field : string) (m : dict)
  (s : state) (issue' : json) (r : result flow) (s' : state) :
  Gitee.issue_field L e fuel field (JObj m) s = ((issue', r), s') ->
  same_but ISSUE_DATA_FIELDS (JObj m) issue'.
Proof.
  unfold Gitee.issue_field. intros H.
  run_cases H; [|apply same_but_refl..].
  destruct (negb (truthy x)).
  { injection H as <- _ _. apply same_but_refl. }
  repeat match type of H with
         | (if String.eqb field ?k then _ else _) _ _ = _ =>
             let E := fresh "E" in
             destruct (String.eqb field k) eqn:E;
             [apply String.eqb_eq in E; subst field|]
         end.
  5: { injection H as <- _ _. apply same_but_refl. }
  all: repeat (run_cases H; [|apply same_but_refl..]).
  all: injection H as <- _ _.
  all: match goal with
       | H : set_item _ _ _ _ = _ |- _ => apply set_item_inv in H as [H _]
       end.
  all: eapply same_but_setitem; [|symmetry; eassumption]; simpl; auto 6.
Qed.

Lemma issue_fields_same (e : bool) (fuel : nat) (issue : json) (s : state)
  (issue' : json) (s' : state) :
  final (for_each (Gitee.issue_field L e fuel) TARGET_ISSUE_FIELDS) issue s
    = (Ok issue', s') ->
  (exists m, issue = JObj m) ->
  same_but ISSUE_DATA_FIELDS issue issue'.
Proof.
  intros H [m ->]. apply final_inv in H as (acc & r0 & H & Hr).
  assert (Hs : same_but ISSUE_DATA_FIELDS (JObj m) acc).
  { eapply (for_each_rule _
              (fun _ a _ => same_but ISSUE_DATA_FIELDS (JObj m) a)
              (fun a _ _ => same_but ISSUE_DATA_FIELDS (JObj m) a));
      [| | |exact H].
    - auto.
    - intros x xs a s1 a' r1 s2 Ha Hx.
      assert (same_but ISSUE_DATA_FIELDS (JObj m) a').
      { eapply same_but_trans; [exact Ha|].
        destruct Ha as (? & ma & _ & -> & _).
        eapply issue_field_same; eauto. }
      destruct r1 as [[| |]|?|]; auto.
    - apply same_but_refl. }
  destruct r0; try discriminate. now injection Hr as ->.
Qed.

Ltac same_chain :=
  repeat match goal with
         | H : set_item ?a ?k ?v _ = (Ok ?b, _) |- same_but ?keys _ ?b =>
             apply set_item_inv in H as [H _]; symmetry in H;
             eapply same_but_trans;
             [|eapply same_but_setitem; [|exact H]; simpl; auto 10]
         end;
  try apply same_but_refl.

(** A field of a pull request is enriched by setting data fields and
    [merged_by]. *)
Lemma pull_field_same (e : bool) (fuel : nat) (field : string) (m : dict)
  (s : state) (pull' : json) (r : result flow) (s' : state) :
  Gitee.pull_field L e fuel field (JObj m) s = ((pull', r), s') ->
  same_but PULL_DATA_FIELDS (JObj m) pull'.
Proof.
  unfold Gitee.pull_field. intros H.
  run_cases H; [|apply same_but_refl..].
  destruct (negb (truthy x)).
  { unfold assign, exit in H; injection H as <- _ _. apply same_but_refl. }
  destruct (String.eqb field "user") eqn:E1;
    [apply String.eqb_eq in E1; subst field|].
  { repeat (run_cases H; [|apply same_but_refl..]).
    unfold assign, exit in H; injection H as <- _ _. same_chain. }
  destruct (String.eqb field "merged_by") eqn:E2;
    [apply String.eqb_eq in E2; subst field|].
  { repeat (run_cases H; [|apply same_but_refl..]).
    unfold assign, exit in H; injection H as <- _ _. same_chain. }
  destruct (String.eqb field "assignees" || String.eqb field "testers") eqn:E3.
  { apply orb_true_iff in E3 as [E3|E3]; apply String.eqb_eq in E3;
      subst field;
      repeat (run_cases H; [|apply same_but_refl..]);
      unfold assign, exit in H; injection H as <- _ _; same_chain. }
  destruct (String.eqb field "number") eqn:E4;
    [apply String.eqb_eq in E4; subst field|].
  2: { unfold assign, exit in H; injection H as <- _ _. apply same_but_refl. }
  do 10 (run_cases H; [|apply same_but_refl..]).
  match type of H with
  | (if truthy ?v then _ else _) _ _ = _ => destruct (truthy v)
  end.
  - repeat (run_cases H; [|apply same_but_refl..]).
    unfold assign, exit in H; injection H as <- _ _. same_chain.
  - unfold assign, exit in H; injection H as <- _ _. same_chain.
Qed.

Lemma pull_fields_same (e : bool) (fuel : nat) (pull : json) (s : state)
  (pull' : json) (s' : state) :
  final (for_each (Gitee.pull_field L e fuel) TARGET_PULL_FIELDS) pull s
    = (Ok pull', s') ->
  (exists m, pull = JObj m) ->
  same_but PULL_DATA_FIELDS pull pull'.
Proof.
  intros H [m ->]. apply final_inv in H as (acc & r0 & H & Hr).
  assert (Hs : same_but PULL_DATA_FIELDS (JObj m) acc).
  { eapply (for_each_rule _
              (fun _ a _ => same_but PULL_DATA_FIELDS (JObj m) a)
              (fun a _ _ => same_but PULL_DATA_FIELDS (JObj m) a));
      [| | |exact H].
    - auto.
    - intros x xs a s1 a' r1 s2 Ha Hx.
      assert (same_but PULL_DATA_FIELDS (JObj m) a').
      { eapply same_but_trans; [exact Ha|].
        destruct Ha as (? & ma & _ & -> & _).
        eapply pull_field_same; eauto. }
      destruct r1 as [[| |]|?|]; auto.
    - apply same_but_refl. }
  destruct r0; try discriminate. now injection Hr as ->.
Qed.

Lemma ascending_tail (seen : list json) (x : json) (rest : list json)
  (t : Z) :
  ascending L (seen ++ x :: rest) -> updated_on L x = Ok t ->
  Forall (fun y => exists ty, updated_on L y = Ok ty /\ t <= ty) rest.
Proof.
  unfold ascending. intros H Hx. induction seen as [|a seen IH].
  - simpl in H. apply StronglySorted_inv in H as [_ H].
    eapply Forall_impl; [|exact H]. simpl.
    intros y (ta & tb & Ha & Hb & Hle). exists tb. split; auto.
    congruence.
  - apply IH. simpl in H. now apply StronglySorted_inv in H.
Qed.

(** C1.  A run of the issue driver that yields [out] has received, for the
    issues list, records [seen ++ rest] where [out] is [seen] record by
    record, enriched: the yielded items are a prefix of the upstream list.
    Every yielded issue was updated at or before [to_date].  When the
    driver ends without an exception, either nothing of the list is left
    or the first record left is one updated after [to_date]: the sequence
    stops there, nothing is skipped and nothing after it is yielded.  When
    the upstream list is in ascending order of update time, every record
    left was updated after [to_date]. *)
Theorem fetch_issues_stops_at_to_date (exclude_user_data : bool)
  (fuel : nat) (from_date to_date : Z) (s : state) (out : list json)
  (r : result flow) (s' : state) :
  Gitee.__fetch_issues L exclude_user_data fuel from_date to_date [] s
    = ((out, r), s') ->
  exists ex seen rest,
    net s' = net s ++ ex /\
    received L OIssues ex = seen ++ rest /\
    Forall2 (same_but ISSUE_DATA_FIELDS) seen out /\
    Forall (fun it => exists t, updated_on L it = Ok t /\ t <= to_date) out /\
    ((exists f, r = Ok f) ->
     rest = [] \/
     exists x rest' t, rest = x :: rest' /\ updated_on L x = Ok t /\
                       to_date < t) /\
    (ascending L (seen ++ rest) -> (exists f, r = Ok f) ->
     Forall (fun x => exists t, updated_on L x = Ok t /\ to_date < t) rest).
Proof.
  intros H.
  change (harvest_loop L (fun t => t >? to_date) Gitee.__init_extra_issue_fields
            (fun issue =>
               final (for_each (Gitee.issue_field L exclude_user_data fuel)
                               TARGET_ISSUE_FIELDS) issue)
            fuel (GiteeClient.issues L (Some from_date)) [] s = ((out, r), s')) in H.
  eapply (harvest_loop_harvested ISSUE_DATA_FIELDS OIssues _ _ _
            (enrichment exclude_user_data)) in H.
  - destruct H as (ex & seen & rest & E & R & F2 & F & Hend).
    assert (Hend' : (exists f, r = Ok f) ->
              rest = [] \/
              exists x rest' t, rest = x :: rest' /\ updated_on L x = Ok t /\
                                to_date < t).
    { intros Hr. destruct (Hend Hr) as [->|(x & rest' & t & -> & Hx & Ht)];
        auto.
      right. exists x, rest', t. repeat split; auto. lia. }
    exists ex, seen, rest. repeat split; auto.
    + eapply Forall_impl; [|exact F]. simpl. intros it (t & Ht & Hs).
      exists t. split; auto. lia.
    + intros Hasc Hr.
      destruct (Hend' Hr) as [->|(x & rest' & t & -> & Hx & Ht)]; auto.
      constructor; [eauto|].
      eapply Forall_impl; [|eapply ascending_tail; eauto]. simpl.
      intros y (ty & Hy & Hle). exists ty. split; auto. lia.
  - simpl. intuition discriminate.
  - reflexivity.
  - apply init_extra_issue_fields_spec.
  - intros record. apply M_frame_final. apply step_frame_for_each.
    intros field. apply step_frame_issue_field. auto.
  - intros record s1 record' s2 Hen.
    eapply issue_fields_same; [exact Hen|].
    destruct record; try (simpl in Hen; discriminate). eauto.
  - reflexivity.
Qed.

(** C2.  A run of the pull-request driver that yields [out] has received,
    for the pull-request list, records [seen ++ rest] where [out] is
    [seen] record by record, enriched.  No yielded pull request was
    updated before [from_date] or after [to_date].  When the driver ends
    without an exception, either nothing of the list is left or the first
    record left is one updated before [from_date] or after [to_date]: the
    run stops at the first violation of either bound. *)
Theorem fetch_pull_requests_stops_at_either_bound (exclude_user_data : bool)
  (fuel : nat) (from_date to_date : Z) (s : state) (out : list json)
  (r : result flow) (s' : state) :
  Gitee.__fetch_pull_requests L exclude_user_data fuel from_date to_date [] s
    = ((out, r), s') ->
  exists ex seen rest,
    net s' = net s ++ ex /\
    received L OPulls ex = seen ++ rest /\
    Forall2 (same_but PULL_DATA_FIELDS) seen out /\
    Forall (fun it => exists t, updated_on L it = Ok t /\
                                from_date <= t /\ t <= to_date) out /\
    ((exists f, r = Ok f) ->
     rest = [] \/
     exists x rest' t, rest = x :: rest' /\ updated_on L x = Ok t /\
                       (t < from_date \/ to_date < t)).
Proof.
  intros H.
  change (harvest_loop L (fun t => (t <? from_date) || (t >? to_date))
            Gitee.__init_extra_pull_fields
            (fun pull =>
               final (for_each (Gitee.pull_field L exclude_user_data fuel)
                               TARGET_PULL_FIELDS) pull)
            fuel (GiteeClient.pulls L (Some from_date)) [] s = ((out, r), s')) in H.
  eapply (harvest_loop_harvested PULL_DATA_FIELDS OPulls _ _ _
            (enrichment exclude_user_data)) in H.
  - destruct H as (ex & seen & rest & E & R & F2 & F & Hend).
    exists ex, seen, rest. repeat split; auto.
    + eapply Forall_impl; [|exact F]. simpl. intros it (t & Ht & Hs).
      exists t. split; auto. apply orb_false_iff in Hs. lia.
    + intros Hr. destruct (Hend Hr) as [->|(x & rest' & t & -> & Hx & Ht)];
        auto.
      right. exists x, rest', t. repeat split; auto.
      apply orb_true_iff in Ht. lia.
  - simpl. intuition discriminate.
  - reflexivity.
  - apply init_extra_pull_fields_spec.
  - intros record. apply M_frame_final. apply step_frame_for_each.
    intros field. apply step_frame_pull_field. auto.
  - intros record s1 record' s2 Hen.
    eapply pull_fields_same; [exact Hen|].
    destruct record; try (simpl in Hen; discriminate). eauto.
  - reflexivity.
Qed.

(** ** Pagination *)

Lemma client_fetch_eq (o : origin) (url : string) (payload : option dict)
  (s : state) (rep : reply) (w : World) :
  HttpClient_fetch L (world s) url (GiteeClient.add_access_token L payload) = (rep, w) ->
  GiteeClient.fetch L o url payload s =
  (match rep with Reply x => Ok x | Failure e => Raise e end,
   mkState w (users s) (users_orgs s)
           (net s ++ [mkExchange o url (GiteeClient.add_access_token L payload) rep])
           (logs s)).
Proof.
  intros H. unfold GiteeClient.fetch. rewrite H. now destruct rep.
Qed.

Lemma for_pages_S {Acc : Type} (fuel : nat) (body : string -> step Acc)
  (g : pager) (acc : Acc) (s : state) :
  for_pages L (S fuel) body g acc s =
  match GiteeClient.fetch_items_next L g s with
  | (Ok (Some (items, g')), s') =>
      match body items acc s' with
      | ((acc', Ok Next), s'') => for_pages L fuel body g' acc' s''
      | ((acc', Ok Break), s'') => ((acc', Ok Next), s'')
      | r => r
      end
  | (Ok None, s') => ((acc, Ok Next), s')
  | (Raise e, s') => ((acc, Raise e), s')
  | (OutOfFuel, s') => ((acc, OutOfFuel), s')
  end.
Proof. reflexivity. Qed.

(** The pages that follow a page the generator has yielded. *)
Lemma pages_after_yield (o : origin) (pl : dict) (rs : list response) :
  forall (r : response) (pg : Z) (tp : option Z) (acc : list string)
         (s : state) (fuel : nat),
    match rs with
    | [] => links_next r = None
    | _ :: _ =>
        exists next, links_next r = Some next /\
          serves L (world s) next (GiteeClient.add_access_token L (Some pl)) rs
    end ->
    Forall (fun x => text x <> "") rs ->
    (rs <> [] -> tp <> None) ->
    (List.length rs < fuel)%nat ->
    exists s',
      for_pages L fuel (fun items => append items)
                (PagerYielded o pl r pg tp) acc s
      = ((acc ++ map text rs, Ok Next), s') /\
      List.length (net s') = (List.length (net s) + List.length rs)%nat.
Proof.
  induction rs as [|r1 rs IH]; intros r pg tp acc s fuel Hs Hne Htp Hfuel.
  - destruct fuel as [|fuel]; [simpl in Hfuel; lia|].
    exists s. rewrite for_pages_S. simpl. rewrite Hs. simpl.
    rewrite app_nil_r. auto.
  - destruct fuel as [|fuel]; [simpl in Hfuel; lia|].
    destruct Hs as (next & Hnext & w' & Hw & Hrest).
    destruct tp as [n|]; [|now destruct Htp].
    apply Forall_cons_iff in Hne as [Hr1 Hne].
    apply String.eqb_neq in Hr1.
    set (s1 := mkState w' (users s) (users_orgs s)
                 (net s ++ [mkExchange o next (GiteeClient.add_access_token L (Some pl))
                                       (Reply r1)])
                 (logs s ++ [mkLog DEBUG "Page: %i/%i" [JNum (pg + 1); JNum n]])).
    assert (Hstep : GiteeClient.fetch_items_next L (PagerYielded o pl r pg (Some n)) s
                    = (Ok (Some (text r1,
                                 PagerYielded o pl r1 (pg + 1) (Some n))), s1)).
    { simpl. rewrite Hnext. unfold bind.
      rewrite (client_fetch_eq _ _ _ _ _ _ Hw). simpl.
      unfold GiteeClient.while_items. now rewrite Hr1. }
    destruct (IH r1 (pg + 1) (Some n) (acc ++ [text r1]) s1 fuel)
      as (s' & Hrun & Hlen); auto.
    + discriminate.
    + simpl in Hfuel. lia.
    + exists s'. split.
      * rewrite for_pages_S, Hstep. unfold append at 1. rewrite Hrun.
        simpl. now rewrite <- app_assoc.
      * rewrite Hlen. unfold s1. simpl. rewrite length_app. simpl. lia.
Qed.

(** C3, as amended.  When the server answers the first request and the
    requests for the next links with [n] responses, the last of which is
    the only one without a next link, when none of these pages has an
    empty body, and when the [total_page] header of the first response is
    one the client gets through its logging with, the generator issues
    [n] requests and yields the [n] page bodies, in order, whatever value
    the header announces on any page. *)
Theorem fetch_items_yields_every_page (o : origin) (path : string)
  (payload : dict) (rs : list response) (s : state) (fuel : nat) :
  serves L (world s) (items_url L path)
         (GiteeClient.add_access_token L (Some payload)) rs ->
  Forall (fun r => text r <> "") rs ->
  total_page_logged rs ->
  (List.length rs < fuel)%nat ->
  exists s',
    pages L fuel (PagerNew o path payload) s = (Ok (map text rs), s') /\
    List.length (net s') = (List.length (net s) + List.length rs)%nat.
Proof.
  intros Hs Hne Hlog Hfuel.
  destruct rs as [|r rs]; [contradiction|].
  destruct fuel as [|fuel]; [simpl in Hfuel; lia|].
  destruct Hs as (w' & Hw & Hrest).
  apply Forall_cons_iff in Hne as [Hr Hne]. apply String.eqb_neq in Hr.
  set (tp := match header_total_page r with
             | Some (String c _) => int_of_char c
             | _ => None
             end).
  set (l0 := logs s ++ [mkLog DEBUG
                          ("Get Gitee paginated items from " ++ items_url L path)
                          []]).
  set (s1 := mkState w' (users s) (users_orgs s)
               (net s ++ [mkExchange o (items_url L path)
                                     (GiteeClient.add_access_token L (Some payload))
                                     (Reply r)])
               (match tp with
                | Some n => l0 ++ [mkLog DEBUG "Page: %i/%i" [JNum 1; JNum n]]
                | None => l0
                end)).
  assert (Hstep : GiteeClient.fetch_items_next L (PagerNew o path payload) s
                  = (Ok (Some (text r, PagerYielded o payload r 1 tp)), s1)).
  { simpl. unfold bind at 1. simpl. unfold bind at 1.
    fold (items_url L path).
    match goal with
    | |- context [GiteeClient.fetch L o ?u ?p ?st] =>
        rewrite (client_fetch_eq o u p st (Reply r) w' Hw)
    end.
    unfold s1, tp, l0. simpl in Hlog.
    destruct (header_total_page r) as [[|c h]|]; simpl.
    - unfold GiteeClient.while_items. now rewrite Hr.
    - destruct (int_of_char c) as [n|]; [|now destruct Hlog]. simpl.
      unfold GiteeClient.while_items. now rewrite Hr.
    - unfold GiteeClient.while_items. now rewrite Hr. }
  destruct (pages_after_yield o payload rs r 1 tp [text r] s1 fuel)
    as (s' & Hrun & Hlen); auto.
  - intros Hrs. unfold tp. simpl in Hlog.
    destruct (header_total_page r) as [[|c h]|]; auto.
  - simpl in Hfuel. lia.
  - exists s'. split.
    + unfold pages, final. rewrite for_pages_S, Hstep. unfold append at 1.
      simpl. now rewrite Hrun.
    + rewrite Hlen. unfold s1. simpl. rewrite length_app. simpl. lia.
Qed.

(** ** The scan of the action log *)

(** A loop whose body only computes on the local variable is a fold over
    the pages the generator yields. *)
Lemma for_pages_as_fold {Acc : Type} (body : string -> step Acc)
  (f : Acc -> string -> Acc) (fuel : nat) :
  forall (g : pager) (raws0 : list string) (s : state) (out : list string)
         (fl : flow) (s' : state),
    for_pages L fuel (fun items => append items) g raws0 s
      = ((out, Ok fl), s') ->
    exists raws, out = raws0 ++ raws /\
      forall acc,
        (forall raw a st, In raw raws ->
                          body raw a st = ((f a raw, Ok Next), st)) ->
        for_pages L fuel body g acc s = ((fold_left f raws acc, Ok Next), s').
Proof.
  induction fuel as [|fuel IH]; intros g raws0 s out fl s' H.
  - discriminate.
  - rewrite for_pages_S in H.
    destruct (GiteeClient.fetch_items_next L g s) as [[[[items g']|]|e|] s1] eqn:Hn;
      try discriminate.
    + unfold append at 1 in H.
      apply IH in H as (raws & -> & Hfold).
      exists (items :: raws). split; [now rewrite <- app_assoc|].
      intros acc Hbody. rewrite for_pages_S, Hn.
      rewrite (Hbody items acc s1 (or_introl eq_refl)).
      apply Hfold. intros raw a st Hin. apply Hbody. now right.
    + injection H as <- _ <-. exists []. split; [now rewrite app_nil_r|].
      intros acc _. now rewrite for_pages_S, Hn.
Qed.

(** The scan of one page. *)
Lemma scan_page (page : list json) (found : json) (s : state) :
  well_formed_log page ->
  for_each (fun action_log =>
      run (item action_log "action_type") (fun action_type =>
      if Gitee.is_merged_pr action_type then
        run (item action_log "user") (fun user =>
        run (item user "login") (fun login =>
        assign login Break))
      else exit Next)) page found s
  = ((match find is_merge_entry page with
      | Some entry => entry_login entry
      | None => found
      end, Ok Next), s).
Proof.
  intros Hwf. revert found.
  set (body := fun action_log : json => _).
  induction Hwf as [|entry page [[t Ht] Hm] _ IH]; intros found.
  - reflexivity.
  - assert (Hb : body entry found s
                 = if Gitee.is_merged_pr t
                   then ((entry_login entry, Ok Break), s)
                   else ((found, Ok Next), s)).
    { unfold body, run, item, pure. rewrite Ht.
      unfold is_merge_entry in Hm. rewrite Ht in Hm.
      destruct (Gitee.is_merged_pr t); [|reflexivity].
      destruct (Hm eq_refl) as (u & l & Hu & Hl).
      unfold entry_login. now rewrite Hu, Hl. }
    cbn [for_each find]. rewrite Hb. unfold is_merge_entry at 1.
    rewrite Ht. destruct (Gitee.is_merged_pr t); [reflexivity|apply IH].
Qed.

Lemma merged_by_scan_fold (raws : list string) (logs : list (list json))
  (found : json) :
  Forall2 (decodes L) raws logs ->
  fold_left (fun a raw =>
               match find is_merge_entry (records_of L raw) with
               | Some entry => entry_login entry
               | None => a
               end) raws found
  = merged_by_scan logs found.
Proof.
  intros H. revert found.
  induction H as [|raw page raws logs (d & Hd & Hp) _ IH]; intros found.
  - reflexivity.
  - simpl. rewrite <- IH. unfold records_of at 2. now rewrite Hd, Hp.
Qed.

Lemma get_user_organizations (login : json) (s : state) (u : json)
  (s' : state) :
  truthy login = true ->
  Gitee.__get_user L false login s = (Ok u, s') ->
  exists record orgs, u = JObj (dict_set "organizations" orgs record).
Proof.
  intros Ht H. unfold Gitee.__get_user in H. rewrite Ht in H. simpl in H.
  do 4 bind_ok H.
  apply set_item_inv in H as [H _].
  match type of H with
  | _ = setitem ?j _ _ => destruct j; try discriminate
  end.
  injection H as ->. eauto.
Qed.

(** C4.  When the generator of the action log of a pull request yields
    the pages [logs], [__get_pull_merged_by] returns what the scan policy
    says: the login of the first merge entry of the last page that has a
    merge entry ([None] when no page has one), having read every page.
    The driver then stores that login as [merged_by] and, when it is not
    empty and user data is collected, attaches the record that user
    resolution returns for it, a user record with its organizations, as
    [merged_by_data]. *)
Theorem merged_by_last_page_wins (fuel : nat) (number : json)
  (s s' : state) (raws : list string) (logs : list (list json)) :
  pages L fuel (GiteeClient.pull_action_logs L number) s = (Ok raws, s') ->
  Forall2 (decodes L) raws logs ->
  Forall well_formed_log logs ->
  Gitee.__get_pull_merged_by L fuel number s
    = (Ok (merged_by_scan logs JNull), s') /\
  forall (m : dict) (review_comments commits : json) (s0 s1 : state)
         (user : json) (s'' : state),
    dict_get "number" m = Some number ->
    truthy number = true ->
    Gitee.__get_pull_review_comments L false fuel number s0
      = (Ok review_comments, s1) ->
    Gitee.__get_pull_commits L fuel number s1 = (Ok commits, s) ->
    truthy (merged_by_scan logs JNull) = true ->
    Gitee.__get_user L false (merged_by_scan logs JNull) s' = (Ok user, s'') ->
    Gitee.pull_field L false fuel "number" (JObj m) s0
    = ((JObj (dict_set "merged_by_data" user
               (dict_set "merged_by" (merged_by_scan logs JNull)
                 (dict_set "commits_data" commits
                   (dict_set "review_comments_data" review_comments m)))),
        Ok Next), s'') /\
    exists record orgs, user = JObj (dict_set "organizations" orgs record).
Proof.
  intros Hpages Hdec Hwf.
  assert (Hscan : Gitee.__get_pull_merged_by L fuel number s
                  = (Ok (merged_by_scan logs JNull), s')).
  { apply final_inv in Hpages as (acc & r0 & Hrun & Hr).
    destruct r0 as [fl| |]; try discriminate. injection Hr as ->.
    apply (for_pages_as_fold
             (fun raw_action_logs =>
                run (loads L raw_action_logs) (fun action_logs =>
                run (iter action_logs) (fun l =>
                for_each (fun action_log =>
                  run (item action_log "action_type") (fun action_type =>
                  if Gitee.is_merged_pr action_type then
                    run (item action_log "user") (fun user =>
                    run (item user "login") (fun login =>
                    assign login Break))
                  else exit Next)) l)))
             (fun a raw =>
                match find is_merge_entry (records_of L raw) with
                | Some entry => entry_login entry
                | None => a
                end)) in Hrun as (raws' & Hraws & Hfold).
    simpl in Hraws. subst raws'.
    unfold Gitee.__get_pull_merged_by, final. rewrite (Hfold JNull).
    - now rewrite (merged_by_scan_fold _ _ _ Hdec).
    - intros raw a st Hin.
      assert (exists page, decodes L raw page /\ well_formed_log page)
        as (page & (d & Hd & Hp) & Hpage).
      { clear - Hdec Hwf Hin. induction Hdec as [|r p rs ps Hrp _ IH].
        - contradiction.
        - apply Forall_cons_iff in Hwf as [Hp Hps].
          destruct Hin as [->|Hin]; eauto. }
      unfold run at 1, loads at 1, pure at 1. rewrite Hd. simpl.
      unfold run at 1, iter at 1, pure at 1. rewrite Hp.
      unfold records_of. rewrite Hd, Hp. now apply scan_page. }
  split; [exact Hscan|].
  intros m rc cm s0 s1 u s'' Hnum Htruthy Hrc Hcm Hlogin Huser.
  split; [|eapply get_user_organizations; eauto].
  unfold Gitee.pull_field, run, item, set_item, pure, assign. simpl.
  rewrite Hnum, Htruthy. simpl. rewrite Hrc. simpl.
  rewrite (dict_get_set_other "review_comments_data" "number")
    by discriminate.
  rewrite Hnum, Hcm. simpl.
  rewrite (dict_get_set_other "commits_data" "number"),
    (dict_get_set_other "review_comments_data" "number") by discriminate.
  rewrite Hnum, Hscan. simpl.
  rewrite dict_get_set_same, Hlogin, Huser. reflexivity.
Qed.

(** ** User resolution and the identity cache *)

Lemma user_miss (login : json) (s : state) (raw : string) (s1 : state) :
  cache_get login (users s) = None ->
  GiteeClient.user L login s = (Ok raw, s1) ->
  hashable login = true /\
  users s1 = cache_set login raw (users s) /\
  users_orgs s1 = users_orgs s /\
  exists e, net s1 = net s ++ [e] /\ ex_origin e = OUser.
Proof.
  intros Hmiss H. unfold GiteeClient.user in H. rewrite Hmiss in H.
  destruct (hashable login); [|discriminate]. simpl in H.
  bind_ok H. apply logger_inv in Hbind as (_ & Hn & _ & Hu & Ho & _).
  bind_ok H. apply client_fetch_inv in Hbind as (rep & w & _ & -> & _).
  bind_ok H. injection Hbind as _ <-. injection H as <- <-. simpl.
  rewrite Hn, Hu, Ho. repeat split; auto. eexists. split; reflexivity.
Qed.

Lemma user_hit (login : json) (s : state) (raw : string) :
  hashable login = true -> cache_get login (users s) = Some raw ->
  GiteeClient.user L login s = (Ok raw, s).
Proof. intros Hh Hc. unfold GiteeClient.user. now rewrite Hh, Hc. Qed.

Lemma user_orgs_miss (login : json) (s : state) (raw : string)
  (s1 : state) :
  cache_get login (users_orgs s) = None ->
  GiteeClient.user_orgs L login s = (Ok raw, s1) ->
  hashable login = true /\
  users s1 = users s /\
  users_orgs s1 = cache_set login raw (users_orgs s) /\
  exists e, net s1 = net s ++ [e] /\ ex_origin e = OUserOrgs.
Proof.
  intros Hmiss H. unfold GiteeClient.user_orgs in H. rewrite Hmiss in H.
  destruct (hashable login); [|discriminate]. simpl in H.
  bind_ok H. bind_ok H. injection Hbind0 as _ <-. injection H as <- <-.
  unfold except_HTTPError in Hbind.
  match type of Hbind with
  | context [bind ?m ?k s] => destruct (bind m k s) as [r0 s0] eqn:Hf
  end.
  apply bind_inv in Hf as [(rsp & s2 & Hf & Hr)|[(e & Hf & ->)|(Hf & ->)]];
    apply client_fetch_inv in Hf as (rep & w & _ & -> & Hrep).
  - injection Hr as <- <-. injection Hbind as _ <-. simpl.
    repeat split; auto. eexists. split; reflexivity.
  - destruct e as [c| | | | | | | |]; try discriminate.
    destruct (c =? 404); [|discriminate].
    bind_ok Hbind. apply logger_inv in Hbind0 as (_ & Hn & _ & Hu & Ho & _).
    injection Hbind as _ <-. simpl. rewrite Hn, Hu, Ho. simpl.
    repeat split; auto. eexists. split; reflexivity.
  - discriminate.
Qed.

Lemma user_orgs_hit (login : json) (s : state) (raw : string) :
  hashable login = true -> cache_get login (users_orgs s) = Some raw ->
  GiteeClient.user_orgs L login s = (Ok raw, s).
Proof. intros Hh Hc. unfold GiteeClient.user_orgs. now rewrite Hh, Hc. Qed.

Lemma loads_inv (raw : string) (s : state) (r : result json) (s' : state) :
  loads L raw s = (r, s') -> r = of_sum (json_loads L raw) /\ s' = s.
Proof. apply pure_inv. Qed.

(** C5.  With user data collected, the first resolution of a login that is
    not empty and not yet in the caches, when it returns, has issued one
    request for the user and one for the organizations, and nothing else;
    a second resolution of the same login right after it returns the same
    record and leaves the state as it is: it issues no request. *)
Theorem get_user_twice (login : json) (s : state) (user_record : json)
  (s1 : state) :
  truthy login = true ->
  cache_get login (users s) = None ->
  cache_get login (users_orgs s) = None ->
  Gitee.__get_user L false login s = (Ok user_record, s1) ->
  (exists e_user e_orgs,
      net s1 = net s ++ [e_user; e_orgs] /\
      ex_origin e_user = OUser /\ ex_origin e_orgs = OUserOrgs) /\
  Gitee.__get_user L false login s1 = (Ok user_record, s1).
Proof.
  intros Ht Hu Ho H. unfold Gitee.__get_user in *. rewrite Ht in *. simpl in *.
  apply bind_inv in H as [(user_raw & s2 & H1 & H)|[(? & _ & ?)|(_ & ?)]];
    [|discriminate..].
  apply (user_miss _ _ _ _ Hu) in H1 as (Hh & Hu2 & Ho2 & e1 & Hn2 & He1).
  apply bind_inv in H as [(j & ? & H1 & H)|[(? & _ & ?)|(_ & ?)]];
    [|discriminate..].
  apply loads_inv in H1 as [Hj ->].
  apply bind_inv in H as [(orgs_raw & s3 & H1 & H)|[(? & _ & ?)|(_ & ?)]];
    [|discriminate..].
  rewrite <- Ho2 in Ho.
  apply (user_orgs_miss _ _ _ _ Ho) in H1 as (_ & Hu3 & Ho3 & e2 & Hn3 & He2).
  apply bind_inv in H as [(j2 & ? & H1 & H)|[(? & _ & ?)|(_ & ?)]];
    [|discriminate..].
  apply loads_inv in H1 as [Hj2 ->].
  apply set_item_inv in H as [Hset ->].
  split.
  - exists e1, e2. rewrite Hn3, Hn2, <- app_assoc. auto.
  - unfold bind.
    rewrite (user_hit login s3 user_raw Hh)
      by (rewrite Hu3, Hu2; now apply cache_get_set_same).
    unfold loads at 1, pure at 1. rewrite <- Hj.
    rewrite (user_orgs_hit login s3 orgs_raw Hh)
      by (rewrite Ho3; now apply cache_get_set_same).
    unfold loads, pure. rewrite <- Hj2.
    unfold set_item, pure. now rewrite <- Hset.
Qed.

(** ** Excluding user data *)

Lemma M_frame_get_user_when (e : bool) (allowed : origin -> bool)
  (login : json) :
  (e = false -> allowed OUser = true /\ allowed OUserOrgs = true) ->
  M_frame allowed (Gitee.__get_user L e login).
Proof.
  intros Ha. unfold Gitee.__get_user.
  destruct (negb (truthy login) || e) eqn:E; [apply M_frame_ret|].
  apply orb_false_iff in E as [_ ->]. destruct (Ha eq_refl).
  frame_auto; auto using M_frame_user, M_frame_user_orgs.
Qed.

Lemma step_frame_fetch_issues (e : bool) (allowed : origin -> bool)
  (fuel : nat) (from_date to_date : Z) :
  (forall o, enrichment e o = true -> allowed o = true) ->
  allowed OIssues = true ->
  step_frame allowed (Gitee.__fetch_issues L e fuel from_date to_date).
Proof.
  intros Hen Ho. unfold Gitee.__fetch_issues.
  apply step_frame_for_pages; [exact Ho|intro].
  frame_auto;
    auto using M_frame_init_extra_issue_fields, step_frame_issue_field.
Qed.

Lemma step_frame_fetch_pull_requests (e : bool) (allowed : origin -> bool)
  (fuel : nat) (from_date to_date : Z) :
  (forall o, enrichment e o = true -> allowed o = true) ->
  allowed OPulls = true ->
  step_frame allowed (Gitee.__fetch_pull_requests L e fuel from_date to_date).
Proof.
  intros Hen Ho. unfold Gitee.__fetch_pull_requests.
  apply step_frame_for_pages; [exact Ho|intro].
  frame_auto;
    auto using M_frame_init_extra_pull_fields, step_frame_pull_field.
Qed.

Lemma step_frame_fetch_repo_info (allowed : origin -> bool) :
  allowed ORepo = true -> allowed ORepoReleases = true ->
  step_frame allowed (Gitee.__fetch_repo_info L).
Proof.
  intros Hr Hl. unfold Gitee.__fetch_repo_info, GiteeClient.repo, GiteeClient.repo_releases.
  frame_auto; auto using M_frame_client_fetch.
  intros s r s' H. injection H as <- <-. apply frame_refl.
Qed.

(** C6.  User resolution returns [None] at once, leaving the state as it
    is, when the login is empty or user data is excluded.  Hence a run of
    the category dispatch with user data excluded, whatever the category,
    issues no request from [user] or [user_orgs], the two client methods
    behind the [users/...] endpoints, and it leaves the two caches that
    hold the answers of these endpoints as they were.  Nor does it look
    at the caches: run with other caches, it yields the same items and
    ends the same way.  So no field of a yielded item is computed from an
    answer of these endpoints, fresh or cached. *)
Theorem user_data_excluded (exclude_user_data : bool) (login : json)
  (fuel : nat) (category : string) (from_date to_date : Z)
  (s s' : state) (out : list json) (r : result flow) :
  (truthy login = false \/ exclude_user_data = true ->
   Gitee.__get_user L exclude_user_data login s = (Ok JNull, s)) /\
  (Gitee.fetch_items L true fuel category from_date to_date [] s
     = ((out, r), s') ->
   (exists ex, net s' = net s ++ ex /\
               Forall (fun e => ex_origin e <> OUser /\
                                ex_origin e <> OUserOrgs) ex) /\
   users s' = users s /\ users_orgs s' = users_orgs s) /\
  (forall t, same_but_caches s t ->
     fst (Gitee.fetch_items L true fuel category from_date to_date [] t)
     = fst (Gitee.fetch_items L true fuel category from_date to_date [] s)).
Proof.
  split; [|split].
  - intros H. unfold Gitee.__get_user.
    replace (negb (truthy login) || exclude_user_data) with true;
      [reflexivity|].
    destruct H as [-> | ->]; [reflexivity|now rewrite orb_true_r].
  - intros H.
    assert (F : frame not_a_user_request s s').
    { revert H. apply step_frame_at. unfold Gitee.fetch_items.
      assert (Hen : forall o, enrichment true o = true ->
                              not_a_user_request o = true)
        by now intros [].
      destruct (String.eqb category CATEGORY_ISSUE);
        [now apply step_frame_fetch_issues|].
      destruct (String.eqb category CATEGORY_PULL_REQUEST);
        [now apply step_frame_fetch_pull_requests|].
      now apply step_frame_fetch_repo_info. }
    destruct F as ((ex & E & F) & Hu & Ho). repeat split; auto.
    exists ex. split; auto. eapply Forall_impl; [|exact F]. simpl.
    intros e He. split; intros Heq; rewrite Heq in He; discriminate.
  - intros t Ht. symmetry.
    now apply (step_blind_fetch_items fuel category from_date to_date).
Qed.

(** ** Tolerated and propagated HTTP failures *)


Lemma app_cons_not_nil_eq {A : Type} (l before after : list A) (e : A) :
  l = l ++ before ++ e :: after -> False.
Proof.
  intros H. apply (f_equal (@List.length A)) in H.
  rewrite !length_app in H. simpl in H. lia.
Qed.



(** What a loop over the pages of a list has gathered.  The body of the
    loop reads the records of a page one after the other; for every
    record it appends one entry to the local list, or it raises.  When
    the loop is over, or when a request for a page of the list has
    failed, the loop has an entry for every record it has received, in
    the order of the records: a request for a page fails between two
    pages, never in the middle of one. *)

Section Gather.

Variable o : origin.
Variable allowed : origin -> bool.
Variable P : json -> json -> Prop.
Variable record_step : json -> step (list json).

Hypothesis allowed_o : allowed o = false.
Hypothesis record_frame : forall x, step_frame allowed (record_step x).
Hypothesis record_spec :
  forall x acc s acc' r s', record_step x acc s = ((acc', r), s') ->
    match r with
    | Ok Next => exists y, acc' = acc ++ [y] /\ P x y
    | Ok _ => False
    | _ => True
    end.





End Gather.








(** ** Comments without a user *)

(** C8.  When the first comment of the first page of the comments of an
    issue is an object without a [user] field, [__get_issue_comments]
    raises [KeyError] for [user]: it sets no [user_data] and records no
    warning, where [__get_pull_review_comments] has a guard. *)
Theorem issue_comment_without_user_raises (exclude_user_data : bool)
  (fuel : nat) (issue_number : json) (s : state) (raw : string)
  (g' : pager) (s1 : state) (comment : dict) (rest : list json) :
  GiteeClient.fetch_items_next L (GiteeClient.issue_comments L issue_number) s
    = (Ok (Some (raw, g')), s1) ->
  decodes L raw (JObj comment :: rest) ->
  dict_get "user" comment = None ->
  Gitee.__get_issue_comments L exclude_user_data (S fuel) issue_number s
    = (Raise (KeyError "user"), s1).
Proof.
  intros Hn (d & Hd & Hl) Hu.
  unfold Gitee.__get_issue_comments, bind, final. rewrite for_pages_S, Hn.
  unfold run at 1, loads at 1, pure at 1. rewrite Hd. simpl.
  unfold run at 1, iter at 1, pure at 1. rewrite Hl. simpl.
  unfold run at 1, get at 1, pure at 1. simpl.
  destruct (dict_get "id" comment);
    unfold run at 1, item at 1, pure at 1; simpl; now rewrite Hu.
Qed.

(** The guard of the sibling: a review comment without a user, or with an
    empty one, gets [user_data] set to [None], with a warning about its
    [url]. *)
Lemma review_comment_without_user (exclude_user_data : bool)
  (comment : dict) (url : json) (acc : list json) (s : state) :
  (dict_get "user" comment = None \/
   exists user, dict_get "user" comment = Some user /\ truthy user = false) ->
  dict_get "url" comment = Some url ->
  run (get (JObj comment) "id") (fun comment_id =>
  run (get (JObj comment) "user") (fun user =>
  run (if negb (truthy user) then
         bind (item (JObj comment) "url") (fun url =>
         bind (logger WARNING "Missing user info for %s" [url]) (fun _ =>
         set_item (JObj comment) "user_data" JNull))
       else
         bind (item user "login") (fun login =>
         bind (Gitee.__get_user L exclude_user_data login) (fun user_data =>
         set_item (JObj comment) "user_data" user_data)))
      (fun comment => append comment))) acc s
  = ((acc ++ [JObj (dict_set "user_data" JNull comment)], Ok Next),
     mkState (world s) (users s) (users_orgs s) (net s)
             (logs s ++ [mkLog WARNING "Missing user info for %s" [url]])).
Proof.
  intros Hu Hurl.
  unfold run at 1, get at 1, pure at 1. simpl.
  assert (Hget : exists user, py_get (JObj comment) "user" = Ok user /\
                              truthy user = false).
  { simpl. destruct Hu as [->|(user & -> & Ht)]; eauto. }
  destruct Hget as (user & Hget & Ht).
  destruct (dict_get "id" comment);
    unfold run at 1, get at 1, pure at 1; rewrite Hget;
    unfold run, bind, item, pure, logger, set_item, append; rewrite Ht;
    simpl; rewrite Hurl; reflexivity.
Qed.

(** ** Categories *)

(** C9.  The category of an item is a function of the presence of the two
    fields [base] and [forks_count]: with [base] it is [pull_request];
    without [base] and with [forks_count] it is [repository]; without
    both it is [issue].  The three categories differ from one another, so
    every item has exactly one of them. *)
Theorem metadata_category_by_shape (item : dict) :
  Gitee.metadata_category item
  = (if dict_in "base" item then CATEGORY_PULL_REQUEST
     else if dict_in "forks_count" item then CATEGORY_REPO
     else CATEGORY_ISSUE) /\
  ((dict_in "base" item = true /\
    Gitee.metadata_category item = CATEGORY_PULL_REQUEST) \/
   (dict_in "base" item = false /\ dict_in "forks_count" item = true /\
    Gitee.metadata_category item = CATEGORY_REPO) \/
   (dict_in "base" item = false /\ dict_in "forks_count" item = false /\
    Gitee.metadata_category item = CATEGORY_ISSUE)) /\
  CATEGORY_PULL_REQUEST <> CATEGORY_REPO /\
  CATEGORY_PULL_REQUEST <> CATEGORY_ISSUE /\
  CATEGORY_REPO <> CATEGORY_ISSUE.
Proof.
  unfold Gitee.metadata_category.
  split; [reflexivity|]. split; [|repeat split; discriminate].
  destruct (dict_in "base" item); [now left|].
  destruct (dict_in "forks_count" item); right; [left|right]; auto.
Qed.

(** The category dispatch on its own: it sends [issue] to the issue
    driver, [pull_request] to the pull-request driver, and what is left
    to the repository driver.  It has no test of its own for the
    repository category: the categories are checked before it is
    called. *)
Lemma fetch_items_dispatch (exclude_user_data : bool) (fuel : nat)
  (category : string) (from_date to_date : Z) :
  (category = CATEGORY_ISSUE ->
   Gitee.fetch_items L exclude_user_data fuel category from_date to_date
   = Gitee.__fetch_issues L exclude_user_data fuel from_date to_date) /\
  (category = CATEGORY_PULL_REQUEST ->
   Gitee.fetch_items L exclude_user_data fuel category from_date to_date
   = Gitee.__fetch_pull_requests L exclude_user_data fuel from_date to_date) /\
  (category <> CATEGORY_ISSUE -> category <> CATEGORY_PULL_REQUEST ->
   Gitee.fetch_items L exclude_user_data fuel category from_date to_date
   = Gitee.__fetch_repo_info L).
Proof.
  unfold Gitee.fetch_items. repeat split.
  - intros ->. reflexivity.
  - intros ->. reflexivity.
  - intros H1 H2. apply String.eqb_neq in H1, H2. now rewrite H1, H2.
Qed.

(** A category the backend declares is handed to the category dispatch. *)
Lemma Backend_fetch_declared
  (dispatch : string -> Z -> Z -> step (list json)) (category : string)
  (filter_classified : bool) (from_date to_date : Z) :
  In category Gitee.CATEGORIES ->
  Gitee.Backend_fetch dispatch category filter_classified from_date to_date
  = dispatch category from_date to_date.
Proof.
  intros H. unfold Gitee.Backend_fetch.
  replace (existsb (String.eqb category) Gitee.CATEGORIES) with true;
    [reflexivity|].
  symmetry. apply existsb_exists. exists category. split; auto.
  apply String.eqb_refl.
Qed.

(** C10.  A fetch with a category that is none of [issue], [pull_request]
    and [repository] raises [BackendError] to the caller, with nothing
    yielded.  It has issued no request: the exchanges with the server,
    the server and the two caches of the client are as they were before
    the call.  The category dispatch has not been called for that value:
    whatever function stands for the dispatch, [Backend.fetch] raises the
    error without consulting it, so that none of the three category
    drivers gets the value. *)
Theorem invalid_category_is_a_configuration_error
  (fuel : nat) (category : string) (from_date to_date : option Z)
  (filter_classified : bool) (acc : list json) (s : state) :
  category <> CATEGORY_ISSUE ->
  category <> CATEGORY_PULL_REQUEST ->
  category <> CATEGORY_REPO ->
  (exists s',
     Gitee.fetch L Gitee.Backend_fetch fuel category from_date to_date
                 filter_classified acc s
     = ((acc, Raise BackendError), s') /\
     net s' = net s /\ world s' = world s /\
     users s' = users s /\ users_orgs s' = users_orgs s) /\
  (forall (dispatch : string -> Z -> Z -> step (list json))
          (from_date' to_date' : Z) (acc0 : list json) (s0 : state),
     Gitee.Backend_fetch dispatch category filter_classified
                         from_date' to_date' acc0 s0
     = ((acc0, Raise BackendError), s0)).
Proof.
  intros H1 H2 H3.
  assert (Hout : existsb (String.eqb category) Gitee.CATEGORIES = false).
  { apply String.eqb_neq in H1, H2, H3. simpl. now rewrite H1, H2, H3. }
  assert (Hraise : forall (dispatch : string -> Z -> Z -> step (list json))
                          (from_date' to_date' : Z) (acc0 : list json)
                          (s0 : state),
             Gitee.Backend_fetch dispatch category filter_classified
                                 from_date' to_date' acc0 s0
             = ((acc0, Raise BackendError), s0)).
  { intros. unfold Gitee.Backend_fetch. now rewrite Hout. }
  split; [|exact Hraise].
  unfold Gitee.fetch, run.
  destruct filter_classified; unfold logger, ret; rewrite Hraise;
    eexists; repeat split.
Qed.

(** ** What a harvest keeps

    Whatever the client and the backend do to the state, they do it by
    logging, by [GiteeClient.fetch] and by the two cached methods [user]
    and [user_orgs].  So a relation between states that is reflexive and
    transitive and that these four keep is kept by every piece of the
    backend. *)

Section Keeps.

Variable R : state -> state -> Prop.
Hypothesis R_refl : forall s, R s s.
Hypothesis R_trans : forall s1 s2 s3, R s1 s2 -> R s2 s3 -> R s1 s3.
Hypothesis R_logger :
  forall l msg args, M_keeps R (@logger World l msg args).
Hypothesis R_fetch :
  forall o url payload, M_keeps R (GiteeClient.fetch L o url payload).
Hypothesis R_user : forall login, M_keeps R (GiteeClient.user L login).
Hypothesis R_user_orgs :
  forall login, M_keeps R (GiteeClient.user_orgs L login).

Lemma keeps_ret {A : Type} (a : A) : M_keeps R (@ret World A a).
Proof. intros s r s' H. injection H as <- <-. apply R_refl. Qed.

Lemma keeps_raise {A : Type} (e : exn) : M_keeps R (@raise World A e).
Proof. intros s r s' H. injection H as <- <-. apply R_refl. Qed.

Lemma keeps_pure {A : Type} (x : result A) : M_keeps R (@pure World A x).
Proof. intros s r s' H. injection H as <- <-. apply R_refl. Qed.

Lemma keeps_bind {A B : Type} (m : M A) (k : A -> M B) :
  M_keeps R m -> (forall a, M_keeps R (k a)) -> M_keeps R (bind m k).
Proof.
  intros Hm Hk s r s' H.
  apply bind_inv in H as [(a & s1 & H1 & H2)|[(e & H1 & _)|(H1 & _)]].
  - eapply R_trans; [eapply Hm|eapply Hk]; eauto.
  - eapply Hm; eauto.
  - eapply Hm; eauto.
Qed.

Lemma keeps_run {Acc A : Type} (m : M A) (k : A -> step Acc) :
  M_keeps R m -> (forall a, step_keeps R (k a)) -> step_keeps R (run m k).
Proof.
  intros Hm Hk acc s acc' r s' H.
  apply run_inv in H as [(a & s1 & H1 & H2)|[(e & H1 & _)|(H1 & _)]].
  - eapply R_trans; [eapply Hm|eapply Hk]; eauto.
  - eapply Hm; eauto.
  - eapply Hm; eauto.
Qed.

Lemma keeps_exit {Acc : Type} (f : flow) : step_keeps R (@exit World Acc f).
Proof. intros acc s acc' r s' H. injection H as <- <- <-. apply R_refl. Qed.

Lemma keeps_append {X : Type} (x : X) : step_keeps R (@append World X x).
Proof. intros acc s acc' r s' H. injection H as <- <- <-. apply R_refl. Qed.

Lemma keeps_assign {Acc : Type} (x : Acc) (f : flow) :
  step_keeps R (@assign World Acc x f).
Proof. intros acc s acc' r s' H. injection H as <- <- <-. apply R_refl. Qed.

Lemma keeps_final {Acc : Type} (st : step Acc) (init : Acc) :
  step_keeps R st -> M_keeps R (final st init).
Proof.
  intros Hst s r s' H. apply final_inv in H as (acc & r0 & H & _).
  eapply Hst; eauto.
Qed.

Lemma keeps_for_each {X Acc : Type} (body : X -> step Acc) (xs : list X) :
  (forall x, step_keeps R (body x)) -> step_keeps R (for_each body xs).
Proof.
  intros Hb acc s acc' r s' H.
  eapply (for_each_rule body (fun _ _ s1 => R s s1) (fun _ _ s1 => R s s1));
    [| |apply R_refl|exact H].
  - auto.
  - intros x xs0 a0 s0 a1 r1 s1 HI Hx.
    assert (R s s1) by (eapply R_trans; [exact HI|eapply Hb; eauto]).
    destruct r1 as [[| |]|e|]; auto.
Qed.

Lemma keeps_while_items (o : origin) (pl : dict) (rsp : response) (pg : Z)
  (tp : option Z) :
  M_keeps R (GiteeClient.while_items (World := World) o pl rsp pg tp).
Proof.
  unfold GiteeClient.while_items. destruct (String.eqb (text rsp) "");
    apply keeps_ret.
Qed.

Lemma keeps_fetch_items_next (g : pager) :
  M_keeps R (GiteeClient.fetch_items_next L g).
Proof.
  destruct g as [o path pl|o pl rsp pg tp]; simpl.
  - apply keeps_bind; [apply R_logger|intros _].
    apply keeps_bind; [apply R_fetch|intros rsp].
    apply keeps_bind; [|intros tp; apply keeps_while_items].
    destruct (header_total_page rsp) as [[|c h]|]; try apply keeps_ret.
    destruct (int_of_char c); [|apply keeps_raise].
    apply keeps_bind; [apply R_logger|intros _; apply keeps_ret].
  - destruct (links_next rsp); [|apply keeps_ret].
    apply keeps_bind; [apply R_fetch|intros rsp'].
    apply keeps_bind; [|intros _; apply keeps_while_items].
    destruct tp; [apply R_logger|apply keeps_raise].
Qed.

Lemma keeps_for_pages {Acc : Type} (fuel : nat) (body : string -> step Acc)
  (g : pager) :
  (forall items, step_keeps R (body items)) ->
  step_keeps R (for_pages L fuel body g).
Proof.
  intros Hb acc s acc' r s' H.
  eapply (for_pages_rule body (fun _ _ s1 => R s s1) (fun _ _ s1 => R s s1));
    [| |apply R_refl|exact H].
  - auto.
  - intros g1 a1 s1 r1 s2 HI Hn.
    assert (F : R s s2)
      by (eapply R_trans; [exact HI|eapply keeps_fetch_items_next; eauto]).
    destruct r1 as [[[items g2]|]|e|]; auto.
    intros a3 r3 s3 Hbody.
    assert (F' : R s s3) by (eapply R_trans; [exact F|eapply Hb; eauto]).
    destruct r3 as [[| |]|e|]; auto.
Qed.

Lemma keeps_at {A : Type} (m : M A) :
  M_keeps R m -> forall s r s', m s = (r, s') -> R s s'.
Proof. intros H s r s'. apply H. Qed.

Lemma step_keeps_at {Acc : Type} (st : step Acc) (acc : Acc) :
  step_keeps R st ->
  forall s acc' r s', st acc s = ((acc', r), s') -> R s s'.
Proof. intros H s acc' r s'. apply H. Qed.

Create HintDb keeps.
#[local] Hint Resolve R_logger R_fetch R_user R_user_orgs : keeps.

Ltac keeps_step :=
  first
    [ solve [auto 2 with keeps nocore]
    | apply keeps_ret | apply keeps_raise | apply keeps_pure
    | apply keeps_exit | apply keeps_append | apply keeps_assign
    | apply keeps_bind; [|intro]
    | apply keeps_run; [|intro]
    | apply keeps_final
    | apply keeps_for_each; intro
    | apply keeps_for_pages; intro
    | match goal with
      | |- M_keeps _ (if ?b then _ else _) => destruct b
      | |- step_keeps _ (if ?b then _ else _) => destruct b
      end ].

Ltac keeps_auto :=
  unfold loads, iter, item, set_item, get; repeat keeps_step.

Lemma keeps_get_user (e : bool) (login : json) :
  M_keeps R (Gitee.__get_user L e login).
Proof. unfold Gitee.__get_user. keeps_auto. Qed.
#[local] Hint Resolve keeps_get_user : keeps.

Lemma keeps_get_users (e : bool) (items : json) :
  M_keeps R (Gitee.__get_users L e items).
Proof. unfold Gitee.__get_users. keeps_auto. Qed.

Lemma keeps_get_issue_assignee (e : bool) (raw : json) :
  M_keeps R (Gitee.__get_issue_assignee L e raw).
Proof. unfold Gitee.__get_issue_assignee. keeps_auto. Qed.

Lemma keeps_get_issue_collaborators (e : bool) (raw : json) :
  M_keeps R (Gitee.__get_issue_collaborators L e raw).
Proof. unfold Gitee.__get_issue_collaborators. keeps_auto. Qed.

Lemma keeps_get_issue_comments (e : bool) (fuel : nat) (n : json) :
  M_keeps R (Gitee.__get_issue_comments L e fuel n).
Proof. unfold Gitee.__get_issue_comments. keeps_auto. Qed.

Lemma keeps_get_pull_merged_by (fuel : nat) (n : json) :
  M_keeps R (Gitee.__get_pull_merged_by L fuel n).
Proof. unfold Gitee.__get_pull_merged_by. keeps_auto. Qed.

Lemma keeps_tolerate_404 (st : step (list json)) (msg : string) (n : json) :
  step_keeps R st -> M_keeps R (Gitee.tolerate_404 st msg n).
Proof.
  intros Hst s r s' H. unfold Gitee.tolerate_404 in H.
  destruct (st [] s) as [[acc r1] s1] eqn:E.
  assert (F : R s s1) by (eapply Hst; eauto).
  destruct r1 as [f|[c| | | | | | | |]|]; try (injection H as <- <-; exact F).
  destruct (c =? 404); [|injection H as <- <-; exact F].
  eapply R_trans; [exact F|]. revert H. apply keeps_at. keeps_auto.
Qed.

Lemma keeps_get_pull_commits (fuel : nat) (n : json) :
  M_keeps R (Gitee.__get_pull_commits L fuel n).
Proof.
  unfold Gitee.__get_pull_commits. apply keeps_tolerate_404. keeps_auto.
Qed.

Lemma keeps_get_pull_review_comments (e : bool) (fuel : nat) (n : json) :
  M_keeps R (Gitee.__get_pull_review_comments L e fuel n).
Proof.
  unfold Gitee.__get_pull_review_comments. apply keeps_tolerate_404.
  keeps_auto.
Qed.

#[local] Hint Resolve keeps_get_users keeps_get_issue_assignee
  keeps_get_issue_collaborators keeps_get_issue_comments
  keeps_get_pull_merged_by keeps_get_pull_commits
  keeps_get_pull_review_comments : keeps.

Lemma keeps_issue_field (e : bool) (fuel : nat) (field : string) :
  step_keeps R (Gitee.issue_field L e fuel field).
Proof.
  unfold Gitee.issue_field. intros issue. apply step_keeps_at. keeps_auto.
Qed.

Lemma keeps_pull_field (e : bool) (fuel : nat) (field : string) :
  step_keeps R (Gitee.pull_field L e fuel field).
Proof.
  unfold Gitee.pull_field. intros pull. apply step_keeps_at. keeps_auto.
Qed.
#[local] Hint Resolve keeps_issue_field keeps_pull_field : keeps.

Lemma keeps_fetch_issues (e : bool) (fuel : nat) (from_date to_date : Z) :
  step_keeps R (Gitee.__fetch_issues L e fuel from_date to_date).
Proof.
  unfold Gitee.__fetch_issues, Gitee.__init_extra_issue_fields. keeps_auto.
Qed.

Lemma keeps_fetch_pull_requests (e : bool) (fuel : nat)
  (from_date to_date : Z) :
  step_keeps R (Gitee.__fetch_pull_requests L e fuel from_date to_date).
Proof.
  unfold Gitee.__fetch_pull_requests, Gitee.__init_extra_pull_fields.
  keeps_auto.
Qed.

Lemma keeps_fetch_repo_info : step_keeps R (Gitee.__fetch_repo_info L).
Proof.
  unfold Gitee.__fetch_repo_info, GiteeClient.repo, GiteeClient.repo_releases.
  keeps_auto.
  intros s r s' H. injection H as <- <-. apply R_refl.
Qed.

Lemma keeps_fetch_items (e : bool) (fuel : nat) (category : string)
  (from_date to_date : Z) :
  step_keeps R (Gitee.fetch_items L e fuel category from_date to_date).
Proof.
  unfold Gitee.fetch_items.
  destruct (String.eqb category CATEGORY_ISSUE);
    [apply keeps_fetch_issues|].
  destruct (String.eqb category CATEGORY_PULL_REQUEST);
    [apply keeps_fetch_pull_requests|apply keeps_fetch_repo_info].
Qed.

End Keeps.

(** ** The two cached methods of the client *)

Lemma cache_get_set_miss (k k' : json) (v v' : string) (c : cache) :
  cache_get k c = None -> cache_get k' c = Some v' ->
  cache_get k' (cache_set k v c) = Some v'.
Proof.
  induction c as [|[k0 v0] c IH]; simpl; [discriminate|].
  destruct (key_eqb k k0) eqn:E; [discriminate|]. intros Hk Hk'. simpl.
  destruct (key_eqb k' k0); auto.
Qed.

(** [GiteeClient.user], case by case: a login that cannot be a key, a
    login found in the cache, and a login that is looked up, whose
    request is answered or fails. *)
Lemma user_spec (login : json) (s : state) (r : result string)
  (s' : state) :
  GiteeClient.user L login s = (r, s') ->
  (hashable login = false /\ r = Raise TypeError /\ s' = s) \/
  (hashable login = true /\ s' = s /\
   exists raw, cache_get login (users s) = Some raw /\ r = Ok raw) \/
  (hashable login = true /\ cache_get login (users s) = None /\
   users_orgs s' = users_orgs s /\
   exists e, net s' = net s ++ [e] /\ ex_origin e = OUser /\
     ex_url e = urijoin L [JStr (base_url L); JStr "users"; login] /\
     match ex_reply e with
     | Reply rsp =>
         r = Ok (text rsp) /\
         users s' = cache_set login (text rsp) (users s)
     | Failure x => r = Raise x /\ users s' = users s
     end).
Proof.
  unfold GiteeClient.user. destruct (hashable login); simpl.
  2: { intros H. injection H as <- <-. auto. }
  destruct (cache_get login (users s)) as [raw|] eqn:Hc.
  { intros H. injection H as <- <-. right. left. eauto. }
  intros H. right. right. do 3 (split; auto).
  - unfold bind, logger, GiteeClient.fetch, set_users, ret in H. simpl in H.
    destruct (HttpClient_fetch L (world s) _ _) as [[rsp|x] w];
      injection H as <- <-; reflexivity.
  - unfold bind, logger, GiteeClient.fetch, set_users, ret in H. simpl in H.
    destruct (HttpClient_fetch L (world s) _ _) as [rep w] eqn:Ht.
    eexists (mkExchange OUser _ _ rep).
    destruct rep as [rsp|x]; injection H as <- <-; simpl; auto.
Qed.

(** [GiteeClient.user_orgs], case by case; a request answered "not found"
    is taken for the text of the empty list. *)
Lemma user_orgs_spec (login : json) (s : state) (r : result string)
  (s' : state) :
  GiteeClient.user_orgs L login s = (r, s') ->
  (hashable login = false /\ r = Raise TypeError /\ s' = s) \/
  (hashable login = true /\ s' = s /\
   exists raw, cache_get login (users_orgs s) = Some raw /\ r = Ok raw) \/
  (hashable login = true /\ cache_get login (users_orgs s) = None /\
   users s' = users s /\
   exists e, net s' = net s ++ [e] /\ ex_origin e = OUserOrgs /\
     ex_url e = urijoin L [JStr (base_url L); JStr "users"; login;
                           JStr "orgs"] /\
     match ex_reply e with
     | Reply rsp =>
         r = Ok (text rsp) /\
         users_orgs s' = cache_set login (text rsp) (users_orgs s)
     | Failure (HTTPError c) =>
         if c =? 404 then
           r = Ok "[]" /\ users_orgs s' = cache_set login "[]" (users_orgs s)
         else r = Raise (HTTPError c) /\ users_orgs s' = users_orgs s
     | Failure x => r = Raise x /\ users_orgs s' = users_orgs s
     end).
Proof.
  unfold GiteeClient.user_orgs. destruct (hashable login); simpl.
  2: { intros H. injection H as <- <-. auto. }
  destruct (cache_get login (users_orgs s)) as [raw|] eqn:Hc.
  { intros H. injection H as <- <-. right. left. eauto. }
  intros H. right. right. do 2 (split; auto).
  unfold bind, except_HTTPError, bind, logger, GiteeClient.fetch,
    set_users_orgs, ret, raise in H. simpl in H.
  destruct (HttpClient_fetch L (world s) _ _) as [rep w] eqn:Ht.
  destruct rep as [rsp|x].
  - injection H as <- <-. simpl. split; auto.
    eexists (mkExchange OUserOrgs _ _ (Reply rsp)). simpl. auto 6.
  - destruct x as [c| | | | | | | |];
      try (injection H as <- <-; simpl; split; auto;
           eexists (mkExchange OUserOrgs _ _ (Failure _)); simpl; auto 6).
    destruct (c =? 404) eqn:Ec; injection H as <- <-; simpl; split; auto;
      eexists (mkExchange OUserOrgs _ _ (Failure (HTTPError c))); simpl;
      rewrite Ec; auto 6.
Qed.

(** ** The caches only grow *)

Lemma caches_grow_refl (s : state) : caches_grow s s.
Proof. split; auto. Qed.

Lemma caches_grow_trans (s1 s2 s3 : state) :
  caches_grow s1 s2 -> caches_grow s2 s3 -> caches_grow s1 s3.
Proof. intros [U1 O1] [U2 O2]. split; auto. Qed.

Lemma caches_grow_same (s s' : state) :
  users s' = users s -> users_orgs s' = users_orgs s -> caches_grow s s'.
Proof. intros Hu Ho. split; intros k v; rewrite ?Hu, ?Ho; auto. Qed.

Lemma caches_grow_logger (l : level) (msg : string) (args : list json) :
  M_keeps caches_grow (@logger World l msg args).
Proof. intros s r s' H. injection H as <- <-. now apply caches_grow_same. Qed.

Lemma caches_grow_fetch (o : origin) (url : string) (payload : option dict) :
  M_keeps caches_grow (GiteeClient.fetch L o url payload).
Proof.
  intros s r s' H. apply client_fetch_inv in H as (rep & w & _ & -> & _).
  now apply caches_grow_same.
Qed.

Lemma caches_grow_user (login : json) :
  M_keeps caches_grow (GiteeClient.user L login).
Proof.
  intros s r s' H.
  apply user_spec in H
      as [(_ & _ & ->)|[(_ & -> & _)|(_ & Hc & Ho & e & _ & _ & _ & He)]];
    try apply caches_grow_refl.
  destruct (ex_reply e) as [rsp|x]; destruct He as [_ Hu].
  - split; intros k v; rewrite ?Hu, ?Ho; auto.
    now apply cache_get_set_miss.
  - now apply caches_grow_same.
Qed.

Lemma caches_grow_user_orgs (login : json) :
  M_keeps caches_grow (GiteeClient.user_orgs L login).
Proof.
  intros s r s' H.
  apply user_orgs_spec in H
      as [(_ & _ & ->)|[(_ & -> & _)|(_ & Hc & Hu & e & _ & _ & _ & He)]];
    try apply caches_grow_refl.
  assert (Hcase : users_orgs s' = users_orgs s \/
                  exists v, users_orgs s' = cache_set login v (users_orgs s)).
  { destruct (ex_reply e) as [rsp|[c| | | | | | | |]];
      try (destruct He as [_ He]; eauto).
    destruct (c =? 404); destruct He as [_ He]; eauto. }
  destruct Hcase as [Ho|[v Ho]].
  - now apply caches_grow_same.
  - split; intros k v'; rewrite ?Hu, ?Ho; auto.
    now apply cache_get_set_miss.
Qed.

Lemma caches_grow_fetch_items (e : bool) (fuel : nat) (category : string)
  (from_date to_date : Z) :
  step_keeps caches_grow
    (Gitee.fetch_items L e fuel category from_date to_date).
Proof.
  apply (keeps_fetch_items caches_grow caches_grow_refl caches_grow_trans
           caches_grow_logger caches_grow_fetch caches_grow_user
           caches_grow_user_orgs).
Qed.

(** X2.  Whatever the category and however it ends, a run of the category
    dispatch takes nothing out of the two caches of the client and
    changes no entry of them: a login that had a cached answer before the
    run has the same cached answer after it. *)
Theorem caches_only_grow (exclude_user_data : bool) (fuel : nat)
  (category : string) (from_date to_date : Z) (acc : list json)
  (s : state) (out : list json) (r : result flow) (s' : state) :
  Gitee.fetch_items L exclude_user_data fuel category from_date to_date
                    acc s = ((out, r), s') ->
  (forall login raw, cache_get login (users s) = Some raw ->
                     cache_get login (users s') = Some raw) /\
  (forall login raw, cache_get login (users_orgs s) = Some raw ->
                     cache_get login (users_orgs s') = Some raw).
Proof. apply caches_grow_fetch_items. Qed.

Lemma user_ok_cached (login : json) (s : state) (raw : string)
  (s1 : state) :
  GiteeClient.user L login s = (Ok raw, s1) ->
  hashable login = true /\ cache_get login (users s1) = Some raw.
Proof.
  intros H.
  apply user_spec in H
      as [(_ & ? & _)|[(Hh & -> & raw' & Hc & Hr)
                      |(Hh & _ & _ & e & _ & _ & _ & He)]];
    [discriminate| |].
  - injection Hr as ->. auto.
  - destruct (ex_reply e) as [rsp|x]; destruct He as [Hr Hu];
      [|discriminate].
    injection Hr as ->. rewrite Hu. split; auto.
    now apply cache_get_set_same.
Qed.

Lemma user_orgs_ok_cached (login : json) (s : state) (raw : string)
  (s1 : state) :
  GiteeClient.user_orgs L login s = (Ok raw, s1) ->
  hashable login = true /\ cache_get login (users_orgs s1) = Some raw.
Proof.
  intros H.
  apply user_orgs_spec in H
      as [(_ & ? & _)|[(Hh & -> & raw' & Hc & Hr)
                      |(Hh & _ & _ & e & _ & _ & _ & He)]];
    [discriminate| |].
  - injection Hr as ->. auto.
  - assert (users_orgs s1 = cache_set login raw (users_orgs s)) as ->.
    { destruct (ex_reply e) as [rsp|[c| | | | | | | |]];
        try (destruct He as [Hr Hu]; (discriminate || (injection Hr as ->));
             exact Hu).
      destruct (c =? 404); destruct He as [Hr Hu];
        (discriminate || (injection Hr as ->)); exact Hu. }
    split; auto. now apply cache_get_set_same.
Qed.

(** What a resolution that returned a record has left in the caches. *)
Lemma get_user_ok_cached (login : json) (s : state) (u : json)
  (s1 : state) :
  truthy login = true ->
  Gitee.__get_user L false login s = (Ok u, s1) ->
  hashable login = true /\
  exists user_raw orgs_raw user orgs,
    cache_get login (users s1) = Some user_raw /\
    cache_get login (users_orgs s1) = Some orgs_raw /\
    json_loads L user_raw = inl user /\
    json_loads L orgs_raw = inl orgs /\
    setitem user "organizations" orgs = Ok u.
Proof.
  intros Ht H. unfold Gitee.__get_user in H. rewrite Ht in H. simpl in H.
  apply bind_inv in H as [(user_raw & s2 & H1 & H)|[(? & _ & ?)|(_ & ?)]];
    [|discriminate..].
  pose proof (user_ok_cached _ _ _ _ H1) as [Hh Hu].
  apply bind_inv in H as [(user & ? & H2 & H)|[(? & _ & ?)|(_ & ?)]];
    [|discriminate..].
  apply loads_inv in H2 as [Hj ->].
  apply bind_inv in H as [(orgs_raw & s3 & H3 & H)|[(? & _ & ?)|(_ & ?)]];
    [|discriminate..].
  pose proof (user_orgs_ok_cached _ _ _ _ H3) as [_ Ho].
  apply caches_grow_user_orgs in H3 as [Hg _].
  apply bind_inv in H as [(orgs & ? & H4 & H)|[(? & _ & ?)|(_ & ?)]];
    [|discriminate..].
  apply loads_inv in H4 as [Hj2 ->].
  apply set_item_inv in H as [Hset ->].
  split; auto. exists user_raw, orgs_raw, user, orgs.
  repeat split; auto.
  - destruct (json_loads L user_raw); [|discriminate]. simpl in Hj. congruence.
  - destruct (json_loads L orgs_raw); [|discriminate]. simpl in Hj2. congruence.
Qed.

(** A resolution that has returned a record returns it again, without a
    request, in any state where the caches have only grown since. *)
Lemma get_user_again (login : json) (s0 : state) (u : json)
  (s1 s2 : state) :
  Gitee.__get_user L false login s0 = (Ok u, s1) ->
  caches_grow s1 s2 ->
  Gitee.__get_user L false login s2 = (Ok u, s2).
Proof.
  intros H1 [Gu Go]. destruct (truthy login) eqn:Ht.
  2: { unfold Gitee.__get_user in *. rewrite Ht in *. simpl in *.
       now injection H1 as <- _. }
  apply (get_user_ok_cached _ _ _ _ Ht) in H1
      as (Hh & user_raw & orgs_raw & user & orgs & Hu & Ho & Hj & Hj2 & Hset).
  unfold Gitee.__get_user. rewrite Ht. simpl. unfold bind.
  rewrite (user_hit login s2 user_raw Hh (Gu _ _ Hu)).
  unfold loads at 1, pure at 1. rewrite Hj. simpl.
  rewrite (user_orgs_hit login s2 orgs_raw Hh (Go _ _ Ho)).
  unfold loads, pure. rewrite Hj2. simpl.
  unfold set_item, pure. now rewrite Hset.
Qed.

(** X3.  Once user resolution has returned the record of a login, the
    login is never requested again: after any run of the category
    dispatch that follows, however that run ends, resolving the same
    login returns the same record and leaves the state as it is, so it
    issues no request. *)
Theorem resolved_user_is_not_requested_again (login : json) (s0 : state)
  (user_record : json) (s1 : state) (exclude_user_data : bool) (fuel : nat)
  (category : string) (from_date to_date : Z) (acc out : list json)
  (r : result flow) (s2 : state) :
  Gitee.__get_user L false login s0 = (Ok user_record, s1) ->
  Gitee.fetch_items L exclude_user_data fuel category from_date to_date
                    acc s1 = ((out, r), s2) ->
  Gitee.__get_user L false login s2 = (Ok user_record, s2).
Proof.
  intros H1 Hrun. eapply get_user_again; [exact H1|].
  eapply caches_grow_fetch_items; eauto.
Qed.

(** X4.  A request for the organizations of a login that is answered
    "not found" is remembered as the text of the empty list: the call
    returns that text, and after any run of the category dispatch that
    follows the same call returns it again without a request. *)
Theorem user_orgs_not_found_is_remembered (login : json) (s : state)
  (orgs : result string) (s1 : state) (exclude_user_data : bool)
  (fuel : nat) (category : string) (from_date to_date : Z)
  (acc out : list json) (r : result flow) (s2 : state) :
  GiteeClient.user_orgs L login s = (orgs, s1) ->
  first_answered_with OUserOrgs 404 s s1 ->
  Gitee.fetch_items L exclude_user_data fuel category from_date to_date
                    acc s1 = ((out, r), s2) ->
  orgs = Ok "[]" /\ GiteeClient.user_orgs L login s2 = (Ok "[]", s2).
Proof.
  intros H (e0 & after & E & Ho0 & Hr0) Hrun.
  assert (Hok : orgs = Ok "[]").
  { apply user_orgs_spec in H
        as [(_ & _ & ->)|[(_ & -> & _)|(_ & _ & _ & e & Hn & _ & _ & He)]].
    - exfalso. apply (app_cons_not_nil_eq (net s) [] after e0). exact E.
    - exfalso. apply (app_cons_not_nil_eq (net s) [] after e0). exact E.
    - rewrite Hn in E. apply app_inv_head in E. injection E as -> _.
      rewrite Hr0 in He. simpl in He. now destruct He. }
  split; auto. subst orgs.
  apply user_orgs_ok_cached in H as [Hh Hc].
  apply caches_grow_fetch_items in Hrun as [_ Go].
  apply user_orgs_hit; auto.
Qed.

(** X5.  A call of [user] or of [user_orgs] that raises leaves the two
    caches as they were: the failure is not remembered. *)
Theorem failed_lookup_is_not_cached (login : json) (s : state) (e : exn)
  (s' : state) :
  (GiteeClient.user L login s = (Raise e, s') ->
   users s' = users s /\ users_orgs s' = users_orgs s) /\
  (GiteeClient.user_orgs L login s = (Raise e, s') ->
   users s' = users s /\ users_orgs s' = users_orgs s).
Proof.
  split; intros H.
  - apply user_spec in H
        as [(Hh & _ & ->)|[(_ & _ & ? & _ & ?)
                          |(_ & Hc & Ho & x & _ & _ & _ & He)]];
      [auto|discriminate|].
    destruct (ex_reply x); destruct He as [? Hu]; [discriminate|auto].
  - apply user_orgs_spec in H
        as [(Hh & _ & ->)|[(_ & _ & ? & _ & ?)
                          |(_ & Hc & Hu & x & _ & _ & _ & He)]];
      [auto|discriminate|].
    destruct (ex_reply x) as [rsp|[c| | | | | | | |]];
      try (destruct He as [? Ho]; (discriminate || auto)).
    destruct (c =? 404); destruct He as [? Ho]; (discriminate || auto).
Qed.

(** X21.  The answer to a user request is remembered before it is
    decoded: when the text the server sent for a login is not JSON, user
    resolution raises the decoding error, and after any run of the
    category dispatch that follows it raises the same error again
    without asking the server. *)
Theorem undecodable_user_is_remembered (login : json) (s : state)
  (raw : string) (s1 : state) (x : exn) (exclude_user_data : bool)
  (fuel : nat) (category : string) (from_date to_date : Z)
  (acc out : list json) (r : result flow) (s2 : state) :
  truthy login = true ->
  GiteeClient.user L login s = (Ok raw, s1) ->
  json_loads L raw = inr x ->
  Gitee.fetch_items L exclude_user_data fuel category from_date to_date
                    acc s1 = ((out, r), s2) ->
  Gitee.__get_user L false login s = (Raise x, s1) /\
  Gitee.__get_user L false login s2 = (Raise x, s2).
Proof.
  intros Ht Hu Hj Hrun.
  unfold Gitee.__get_user. rewrite Ht. simpl. unfold bind. rewrite Hu.
  unfold loads at 1, pure at 1. rewrite Hj. simpl. split; auto.
  apply user_ok_cached in Hu as [Hh Hc].
  apply caches_grow_fetch_items in Hrun as [Gu _].
  rewrite (user_hit login s2 raw Hh (Gu _ _ Hc)).
  unfold loads, pure. now rewrite Hj.
Qed.

(** ** The access token *)

Lemma add_access_token_carries (tok : string) (payload : option dict) :
  access_token L = Some tok -> tok <> "" ->
  exists p, GiteeClient.add_access_token L payload = Some p /\
            dict_get "access_token" p = Some (JStr tok).
Proof.
  intros Ht Hne. unfold GiteeClient.add_access_token. rewrite Ht.
  apply String.eqb_neq in Hne. rewrite Hne.
  eexists. split; [reflexivity|]. apply dict_get_set_same.
Qed.

Lemma requests_all_refl (P : exchange -> Prop) (s : state) :
  requests_all P s s.
Proof. exists []. now rewrite app_nil_r. Qed.

Lemma requests_all_trans (P : exchange -> Prop) (s1 s2 s3 : state) :
  requests_all P s1 s2 -> requests_all P s2 s3 -> requests_all P s1 s3.
Proof.
  intros (ex1 & E1 & F1) (ex2 & E2 & F2). exists (ex1 ++ ex2).
  rewrite E2, E1, app_assoc. split; auto. apply Forall_app. auto.
Qed.

Lemma requests_all_same (P : exchange -> Prop) (s s' : state) :
  net s' = net s -> requests_all P s s'.
Proof. intros E. exists []. now rewrite app_nil_r. Qed.

(** The two cached methods keep a relation that the logger, [fetch] and
    the two assignments to a cache keep. *)
Lemma keeps_user_by_parts (R : state -> state -> Prop) (login : json) :
  (forall s, R s s) ->
  (forall s1 s2 s3, R s1 s2 -> R s2 s3 -> R s1 s3) ->
  (forall l msg args, M_keeps R (@logger World l msg args)) ->
  (forall o url payload, M_keeps R (GiteeClient.fetch L o url payload)) ->
  (forall k v, M_keeps R (@set_users World k v)) ->
  M_keeps R (GiteeClient.user L login).
Proof.
  intros Hrefl Htrans Hlog Hfetch Hset s r s' H.
  unfold GiteeClient.user in H.
  destruct (negb (hashable login)); [injection H as <- <-; auto|].
  destruct (cache_get login (users s)); [injection H as <- <-; auto|].
  revert H. apply (keeps_at R).
  repeat first [ apply Hlog | apply Hfetch | apply Hset
               | apply (keeps_ret R Hrefl)
               | apply (keeps_bind R Htrans); [|intro] ].
Qed.

Lemma keeps_user_orgs_by_parts (R : state -> state -> Prop) (login : json) :
  (forall s, R s s) ->
  (forall s1 s2 s3, R s1 s2 -> R s2 s3 -> R s1 s3) ->
  (forall l msg args, M_keeps R (@logger World l msg args)) ->
  (forall o url payload, M_keeps R (GiteeClient.fetch L o url payload)) ->
  (forall k v, M_keeps R (@set_users_orgs World k v)) ->
  M_keeps R (GiteeClient.user_orgs L login).
Proof.
  intros Hrefl Htrans Hlog Hfetch Hset s r s' H.
  unfold GiteeClient.user_orgs in H.
  destruct (negb (hashable login)); [injection H as <- <-; auto|].
  destruct (cache_get login (users_orgs s)); [injection H as <- <-; auto|].
  revert H. apply (keeps_at R).
  apply (keeps_bind R Htrans).
  - intros s0 r0 s1 H. unfold except_HTTPError in H.
    match type of H with
    | context [bind ?m ?k s0] => destruct (bind m k s0) as [r1 s2] eqn:Hf
    end.
    assert (F : R s0 s2).
    { revert Hf. apply (keeps_at R).
      apply (keeps_bind R Htrans); [apply Hfetch|intro].
      apply (keeps_ret R Hrefl). }
    destruct r1 as [a|[c| | | | | | | |]|]; try (injection H as <- <-; exact F).
    eapply Htrans; [exact F|]. revert H. apply (keeps_at R).
    destruct (c =? 404); [|apply (keeps_raise R Hrefl)].
    apply (keeps_bind R Htrans); [apply Hlog|intro].
    apply (keeps_ret R Hrefl).
  - intro. apply (keeps_bind R Htrans); [apply Hset|intro].
    apply (keeps_ret R Hrefl).
Qed.

Section Token.

Variable tok : string.
Hypothesis token_set : access_token L = Some tok.
Hypothesis token_not_empty : tok <> "".

Lemma token_logger (l : level) (msg : string) (args : list json) :
  M_keeps (requests_all (carries_token tok)) (@logger World l msg args).
Proof. intros s r s' H. injection H as <- <-. now apply requests_all_same. Qed.

Lemma token_fetch (o : origin) (url : string) (payload : option dict) :
  M_keeps (requests_all (carries_token tok))
          (GiteeClient.fetch L o url payload).
Proof.
  intros s r s' H. apply client_fetch_inv in H as (rep & w & _ & -> & _).
  eexists. split; [reflexivity|]. constructor; [|constructor].
  now apply add_access_token_carries.
Qed.

Lemma token_set_users (k : json) (v : string) :
  M_keeps (requests_all (carries_token tok)) (@set_users World k v).
Proof. intros s r s' H. injection H as <- <-. now apply requests_all_same. Qed.

Lemma token_set_users_orgs (k : json) (v : string) :
  M_keeps (requests_all (carries_token tok)) (@set_users_orgs World k v).
Proof. intros s r s' H. injection H as <- <-. now apply requests_all_same. Qed.

Lemma token_fetch_items (e : bool) (fuel : nat) (category : string)
  (from_date to_date : Z) :
  step_keeps (requests_all (carries_token tok))
    (Gitee.fetch_items L e fuel category from_date to_date).
Proof.
  apply keeps_fetch_items.
  - apply requests_all_refl.
  - apply requests_all_trans.
  - apply token_logger.
  - apply token_fetch.
  - intro. apply keeps_user_by_parts;
      [ apply requests_all_refl | apply requests_all_trans
      | apply token_logger | apply token_fetch | apply token_set_users ].
  - intro. apply keeps_user_orgs_by_parts;
      [ apply requests_all_refl | apply requests_all_trans
      | apply token_logger | apply token_fetch
      | apply token_set_users_orgs ].
Qed.

End Token.

(** X1.  When the client has an access token, every request of a run of
    the category dispatch goes out with that token as its [access_token]
    parameter: the first request of every list, the requests for the next
    links, and the requests for users, organizations and the
    repository. *)
Theorem every_request_carries_the_token (tok : string)
  (exclude_user_data : bool) (fuel : nat) (category : string)
  (from_date to_date : Z) (acc : list json) (s : state) (out : list json)
  (r : result flow) (s' : state) :
  access_token L = Some tok -> tok <> "" ->
  Gitee.fetch_items L exclude_user_data fuel category from_date to_date
                    acc s = ((out, r), s') ->
  exists ex, net s' = net s ++ ex /\ Forall (carries_token tok) ex.
Proof.
  intros Ht Hne H. eapply token_fetch_items; eauto.
Qed.

(** ** What a request asks for *)

Lemma dict_set_twice (k : string) (v : json) (m : dict) :
  dict_set k v (dict_set k v m) = dict_set k v m.
Proof.
  induction m as [|[k' v'] m IH]; simpl.
  - now rewrite String.eqb_refl.
  - destruct (String.eqb k k') eqn:E; simpl.
    + now rewrite String.eqb_refl.
    + now rewrite E, IH.
Qed.

Lemma dict_set_not_empty (k : string) (v : json) (m : dict) :
  exists kv m', dict_set k v m = kv :: m'.
Proof.
  destruct m as [|[k' v'] m]; simpl; eauto.
  destruct (String.eqb k k'); eauto.
Qed.

(** X6.  [GiteeClient.fetch] adds the access token to the parameters of
    the caller and keeps every other parameter as the caller gave it;
    adding the token to a payload that has it already changes nothing,
    so the payload of a list is the same on every page. *)
Theorem add_access_token_keeps_the_payload (payload : option dict) :
  (forall p, payload = Some p ->
     exists p', GiteeClient.add_access_token L payload = Some p' /\
       forall k, k <> "access_token" -> dict_get k p' = dict_get k p) /\
  GiteeClient.add_access_token L (GiteeClient.add_access_token L payload)
  = GiteeClient.add_access_token L payload.
Proof.
  unfold GiteeClient.add_access_token.
  destruct (access_token L) as [tok|]; [|split; eauto; intros p ->; eauto].
  destruct (String.eqb tok ""); [split; eauto; intros p ->; eauto|].
  split.
  - intros p ->. eexists. split; [reflexivity|]. intros k Hk.
    rewrite dict_get_set_other by exact Hk. now destruct p.
  - assert (Hid : forall X : dict,
               match X with [] => [] | kv :: p' => kv :: p' end = X)
      by (now intros [|]).
    cbv beta iota zeta. rewrite !Hid. now rewrite dict_set_twice.
Qed.

(** One step of a generator issues requests of its client method only,
    with the payload the generator was created with, and hands both over
    to the generator it leaves. *)
Lemma fetch_items_next_payload (g : pager) (s : state)
  (r : result (option (string * pager))) (s1 : state) :
  GiteeClient.fetch_items_next L g s = (r, s1) ->
  requests_all (fun e => ex_origin e = pager_origin g /\
                         ex_payload e = GiteeClient.add_access_token L
                                          (Some (pager_payload g))) s s1 /\
  forall items g', r = Ok (Some (items, g')) ->
                   pager_origin g' = pager_origin g /\
                   pager_payload g' = pager_payload g.
Proof.
  assert (W : forall o pl rsp pg tp (s0 s2 : state) items g',
             GiteeClient.while_items o pl rsp pg tp s0
             = (Ok (Some (items, g')), s2) ->
             pager_origin g' = o /\ pager_payload g' = pl).
  { intros o pl rsp pg tp s0 s2 items g' H.
    unfold GiteeClient.while_items in H.
    destruct (String.eqb (text rsp) ""); [discriminate|].
    injection H as _ <- _. auto. }
  assert (F : forall o url pl (s0 : state) r0 s2,
             GiteeClient.fetch L o url (Some pl) s0 = (r0, s2) ->
             requests_all
               (fun e => ex_origin e = o /\
                         ex_payload e = GiteeClient.add_access_token L
                                          (Some pl)) s0 s2).
  { intros o url pl s0 r0 s2 H.
    apply client_fetch_inv in H as (rep & w & _ & -> & _).
    eexists. split; [reflexivity|]. constructor; [|constructor]. auto. }
  destruct g as [o path pl|o pl rsp pg tp]; simpl; intros H.
  - apply bind_inv in H as [(a & s2 & Hl & H)|[(e & Hl & ?)|(Hl & ?)]];
      apply logger_inv in Hl as (Ha & Hn & _); try discriminate.
    apply bind_inv in H as [(x & s3 & Hf & H)|[(e & Hf & ->)|(Hf & ->)]];
      apply F in Hf.
    all: assert (Hs : requests_all
                     (fun e => ex_origin e = o /\
                               ex_payload e = GiteeClient.add_access_token L
                                                (Some pl)) s s2)
        by (now apply requests_all_same).
    2, 3: split; [eapply requests_all_trans; eauto|discriminate].
    apply bind_inv in H as [(tp & s4 & Ht & H)|[(e & Ht & ->)|(Ht & ->)]];
      apply total_page_spec in Ht as [Ht _].
    + pose proof H as H'. apply while_items_inv in H' as [-> _].
      split.
      * eapply requests_all_trans; [exact Hs|].
        eapply requests_all_trans; [exact Hf|].
        now apply requests_all_same.
      * intros items g' ->. eapply W; eauto.
    + split; [|discriminate].
      eapply requests_all_trans; [exact Hs|].
      eapply requests_all_trans; [exact Hf|].
      now apply requests_all_same.
    + split; [|discriminate].
      eapply requests_all_trans; [exact Hs|].
      eapply requests_all_trans; [exact Hf|].
      now apply requests_all_same.
  - destruct (links_next rsp) as [url|].
    2: { injection H as <- <-. split; [apply requests_all_refl|discriminate]. }
    apply bind_inv in H as [(x & s3 & Hf & H)|[(e & Hf & ->)|(Hf & ->)]];
      apply F in Hf.
    2, 3: split; [exact Hf|discriminate].
    apply bind_inv in H as [(u & s4 & Ht & H)|[(e & Ht & ->)|(Ht & ->)]].
    + destruct tp as [n|]; [|discriminate].
      apply logger_inv in Ht as (_ & Hn4 & _).
      pose proof H as H'. apply while_items_inv in H' as [-> _].
      split.
      * eapply requests_all_trans; [exact Hf|]. now apply requests_all_same.
      * intros items g' ->. eapply W; eauto.
    + destruct tp as [n|].
      * apply logger_inv in Ht as (? & _). discriminate.
      * injection Ht as <- <-. split; [exact Hf|discriminate].
    + destruct tp as [n|]; [|discriminate].
      apply logger_inv in Ht as (? & _). discriminate.
Qed.

Lemma requests_all_impl (P Q : exchange -> Prop) (s s' : state) :
  (forall e, P e -> Q e) -> requests_all P s s' -> requests_all Q s s'.
Proof.
  intros HPQ (ex & E & F). exists ex. split; auto.
  eapply Forall_impl; [|exact F]. auto.
Qed.

Lemma requests_all_frame (allowed : origin -> bool) (o : origin)
  (P : exchange -> Prop) (s s' : state) :
  allowed o = false -> frame allowed s s' ->
  requests_all (fun e => ex_origin e = o -> P e) s s'.
Proof.
  intros Ho ((ex & E & F) & _). exists ex. split; auto.
  eapply Forall_impl; [|exact F]. simpl. intros e He Heq. congruence.
Qed.

(** The requests a loop over a generator issues for the list of the
    generator all carry the payload the generator was created with, when
    the body of the loop issues no request for that list. *)
Lemma for_pages_requests {Acc : Type} (allowed : origin -> bool)
  (fuel : nat) (body : string -> step Acc) (g : pager) :
  allowed (pager_origin g) = false ->
  (forall items, step_frame allowed (body items)) ->
  step_keeps
    (requests_all (fun e => ex_origin e = pager_origin g ->
                            ex_payload e = GiteeClient.add_access_token L
                                             (Some (pager_payload g))))
    (for_pages L fuel body g).
Proof.
  intros Ho Hb acc s acc' r s' H.
  set (R := requests_all (fun e => ex_origin e = pager_origin g ->
                                   ex_payload e = GiteeClient.add_access_token L
                                                    (Some (pager_payload g)))).
  eapply (for_pages_rule body
            (fun g1 _ s1 => pager_origin g1 = pager_origin g /\
                            pager_payload g1 = pager_payload g /\ R s s1)
            (fun _ _ s1 => R s s1));
    [| |split; [reflexivity|split; [reflexivity|apply requests_all_refl]]
     |exact H].
  - intros g1 a1 s1 (_ & _ & HI). exact HI.
  - intros g1 a1 s1 r1 s2 (Hg & Hp & HI) Hn.
    apply fetch_items_next_payload in Hn as [Hn Hnext].
    rewrite Hg, Hp in Hn.
    assert (F : R s s2).
    { eapply requests_all_trans; [exact HI|].
      eapply requests_all_impl; [|exact Hn]. simpl. now intros e [_ He] _. }
    destruct r1 as [[[items g2]|]|e|]; auto.
    intros a3 r3 s3 Hbody.
    assert (F' : R s s3).
    { eapply requests_all_trans; [exact F|].
      eapply requests_all_frame; [exact Ho|]. eapply Hb; eauto. }
    destruct r3 as [[| |]|e|]; auto.
    destruct (Hnext _ _ eq_refl) as [Hg2 Hp2].
    repeat split; auto; congruence.
Qed.

(** X7.  Every request the issue driver sends for the issues list, the
    first one and those for the next links, asks for the issues in any
    state, [max_items] a page, sorted by update time in ascending order
    and updated since [from_date], and for nothing else but the access
    token.  The lower bound of the time window is left to the server:
    it is this [since] parameter. *)
Theorem issue_list_requests (exclude_user_data : bool) (fuel : nat)
  (from_date to_date : Z) (acc : list json) (s : state) (out : list json)
  (r : result flow) (s' : state) :
  Gitee.__fetch_issues L exclude_user_data fuel from_date to_date acc s
    = ((out, r), s') ->
  exists ex, net s' = net s ++ ex /\
    Forall (fun e => ex_origin e = OIssues ->
                     ex_payload e
                     = GiteeClient.add_access_token L
                         (Some [("state", JStr "all");
                                ("per_page", JNum (max_items L));
                                ("direction", JStr "asc");
                                ("sort", JStr "updated");
                                ("since", JStr (isoformat L from_date))]))
           ex.
Proof.
  unfold Gitee.__fetch_issues. intros H.
  eapply (for_pages_requests (enrichment exclude_user_data)) in H.
  - exact H.
  - reflexivity.
  - intro. frame_auto;
      auto using M_frame_init_extra_issue_fields, step_frame_issue_field.
Qed.

(** X8.  Every request the pull-request driver sends for the list of
    pull requests asks for them in any state, a hundred a page whatever
    [max_items] is, sorted by update time in ascending order and updated
    since [from_date], and for nothing else but the access token. *)
Theorem pull_list_requests (exclude_user_data : bool) (fuel : nat)
  (from_date to_date : Z) (acc : list json) (s : state) (out : list json)
  (r : result flow) (s' : state) :
  Gitee.__fetch_pull_requests L exclude_user_data fuel from_date to_date
                              acc s = ((out, r), s') ->
  exists ex, net s' = net s ++ ex /\
    Forall (fun e => ex_origin e = OPulls ->
                     ex_payload e
                     = GiteeClient.add_access_token L
                         (Some [("state", JStr "all");
                                ("per_page", JNum 100);
                                ("direction", JStr "asc");
                                ("sort", JStr "updated");
                                ("since", JStr (isoformat L from_date))]))
           ex.
Proof.
  unfold Gitee.__fetch_pull_requests. intros H.
  eapply (for_pages_requests (enrichment exclude_user_data)) in H.
  - exact H.
  - reflexivity.
  - intro. frame_auto;
      auto using M_frame_init_extra_pull_fields, step_frame_pull_field.
Qed.

Lemma tolerate_404_requests (P : exchange -> Prop) (st : step (list json))
  (msg : string) (n : json) :
  step_keeps (requests_all P) st ->
  M_keeps (requests_all P) (Gitee.tolerate_404 st msg n).
Proof.
  intros Hst s r s' H. unfold Gitee.tolerate_404 in H.
  destruct (st [] s) as [[acc r1] s1] eqn:E.
  assert (F : requests_all P s s1) by (eapply Hst; eauto).
  destruct r1 as [f|[c| | | | | | | |]|]; try (injection H as <- <-; exact F).
  destruct (c =? 404); [|injection H as <- <-; exact F].
  injection H as <- <-. eapply requests_all_trans; [exact F|].
  now apply requests_all_same.
Qed.

(** X27.  What the four sub-fetches ask for with every request of their
    list: the comments of an issue and the commits of a pull request a
    hundred a page, the review comments of a pull request a hundred a
    page in ascending order, the action log of a pull request with no
    parameter of its own; and the access token in each case. *)
Theorem sub_fetch_requests (exclude_user_data : bool) (fuel : nat)
  (number : json) (s : state) (r : result json) (s' : state) :
  (Gitee.__get_issue_comments L exclude_user_data fuel number s = (r, s') ->
   requests_all
     (fun e => ex_origin e = OIssueComments ->
               ex_payload e = GiteeClient.add_access_token L
                                (Some [("per_page", JNum 100)])) s s') /\
  (Gitee.__get_pull_commits L fuel number s = (r, s') ->
   requests_all
     (fun e => ex_origin e = OPullCommits ->
               ex_payload e = GiteeClient.add_access_token L
                                (Some [("per_page", JNum 100)])) s s') /\
  (Gitee.__get_pull_review_comments L exclude_user_data fuel number s
   = (r, s') ->
   requests_all
     (fun e => ex_origin e = OPullReviewComments ->
               ex_payload e = GiteeClient.add_access_token L
                                (Some [("per_page", JNum 100);
                                       ("direction", JStr "asc")])) s s') /\
  (Gitee.__get_pull_merged_by L fuel number s = (r, s') ->
   requests_all
     (fun e => ex_origin e = OPullActionLogs ->
               ex_payload e = GiteeClient.add_access_token L (Some [])) s s').
Proof.
  pose (users_only := fun o => match o with
                               | OUser | OUserOrgs => true
                               | _ => false
                               end).
  assert (Hu : forall login,
             M_frame users_only (Gitee.__get_user L exclude_user_data login))
    by (intro; now apply M_frame_get_user_when).
  split; [|split; [|split]]; intros H.
  - unfold Gitee.__get_issue_comments in H.
    apply bind_inv in H as [(a & s1 & H1 & H2)|[(x & H1 & _)|(H1 & _)]];
      [injection H2 as _ <-| |];
      apply final_inv in H1 as (acc & r0 & H1 & _);
      (eapply (for_pages_requests users_only) in H1;
       [exact H1|reflexivity|intro; frame_auto]).
  - revert H. apply tolerate_404_requests.
    apply (for_pages_requests users_only); [reflexivity|intro; frame_auto].
  - revert H. apply tolerate_404_requests.
    apply (for_pages_requests users_only); [reflexivity|intro; frame_auto].
  - unfold Gitee.__get_pull_merged_by in H.
    apply final_inv in H as (acc & r0 & H & _).
    eapply (for_pages_requests users_only) in H;
      [exact H|reflexivity|intro; frame_auto].
Qed.

(** ** The sub-fetches on a listing that is read to its end *)

(** A loop whose body appends to the local list what it computes from a
    page appends what it computes from every page the generator
    yields. *)
Lemma for_pages_as_concat {X : Type} (body : string -> step (list X))
  (f : string -> list X) (fuel : nat) (g : pager) (s : state)
  (raws : list string) (s' : state) :
  pages L fuel g s = (Ok raws, s') ->
  (forall raw a st,
      In raw raws -> body raw a st = ((a ++ f raw, Ok Next), st)) ->
  for_pages L fuel body g [] s = ((flat_map f raws, Ok Next), s').
Proof.
  intros Hpages Hbody.
  apply final_inv in Hpages as (acc & r0 & Hrun & Hr).
  destruct r0 as [fl| |]; try discriminate. injection Hr as Hr. subst acc.
  apply (for_pages_as_fold body (fun a raw => a ++ f raw)) in Hrun
      as (raws' & Hraws & Hfold).
  simpl in Hraws. subst raws'. rewrite (Hfold [] Hbody). f_equal. f_equal.
  assert (G : forall a, fold_left (fun a raw => a ++ f raw) raws a
                        = a ++ flat_map f raws).
  { clear. induction raws as [|raw raws IH]; intros a; simpl.
    - now rewrite app_nil_r.
    - now rewrite IH, app_assoc. }
  apply (G []).
Qed.

Lemma decodes_records_of (raw : string) (page : list json) :
  decodes L raw page -> records_of L raw = page.
Proof. intros (d & Hd & Hp). unfold records_of. now rewrite Hd, Hp. Qed.

Lemma flat_map_records_of (raws : list string) (pgs : list (list json)) :
  Forall2 (decodes L) raws pgs ->
  flat_map (records_of L) raws = List.concat pgs.
Proof.
  induction 1 as [|raw page raws pgs Hd _ IH]; simpl; auto.
  now rewrite IH, (decodes_records_of _ _ Hd).
Qed.

(** The body of a loop over the records of a page, run on a page that
    decodes. *)
Lemma loop_on_a_page {Acc : Type} (body : json -> step Acc) (raw : string)
  (acc : Acc) (s : state) (d : json) (page : list json) :
  json_loads L raw = inl d -> py_iter d = Ok page ->
  run (loads L raw) (fun decoded =>
  run (iter decoded) (fun l => for_each body l)) acc s
  = for_each body page acc s.
Proof.
  intros Hd Hp. unfold run, loads, iter, pure. rewrite Hd. simpl.
  now rewrite Hp.
Qed.

Lemma Forall2_map_of {A B : Type} (P : A -> B -> Prop) (f : A -> B)
  (l : list A) (k : list B) :
  (forall a b, P a b -> b = f a) -> Forall2 P l k ->
  k = map f l /\ Forall (fun a => P a (f a)) l.
Proof.
  intros Hf. induction 1 as [|a b l k Hab _ [-> IH]]; simpl; auto.
  pose proof (Hf _ _ Hab) as ->. auto.
Qed.

Lemma Forall_map_Forall2 {A B : Type} (P : A -> B -> Prop) (f : A -> B)
  (l : list A) :
  Forall (fun a => P a (f a)) l -> Forall2 P l (map f l).
Proof. induction 1; simpl; auto. Qed.

Lemma Forall_in_concat {A : Type} (Q : A -> Prop) (pgs : list (list A))
  (page : list A) :
  Forall Q (List.concat pgs) -> In page pgs -> Forall Q page.
Proof.
  induction pgs as [|p pgs IH]; simpl; [contradiction|].
  intros H [->|Hin]; apply Forall_app in H as [H1 H2]; auto.
Qed.

Lemma decodes_in (raws : list string) (pgs : list (list json))
  (raw : string) :
  Forall2 (decodes L) raws pgs -> In raw raws ->
  exists d page, json_loads L raw = inl d /\ py_iter d = Ok page /\
                 In page pgs.
Proof.
  induction 1 as [|r p rs ps (d & Hd & Hp) _ IH]; [contradiction|].
  intros [->|Hin].
  - exists d, p. simpl. auto.
  - destruct (IH Hin) as (d' & page & ? & ? & ?). exists d', page.
    simpl. auto.
Qed.

Lemma flat_map_map_of {A B C : Type} (f : B -> C) (g : A -> list B)
  (l : list A) :
  flat_map (fun a => map f (g a)) l = map f (flat_map g l).
Proof.
  induction l as [|a l IH]; simpl; auto. now rewrite IH, map_app.
Qed.

Lemma collect_hashes (l hashes acc : list json) (s : state) :
  Forall2 (fun commit sha => getitem commit "sha" = Ok sha) l hashes ->
  for_each (fun commit =>
      run (item commit "sha") (fun commit_hash =>
      append commit_hash)) l acc s
  = ((acc ++ hashes, Ok Next), s).
Proof.
  intros H. revert acc.
  induction H as [|c sha l hashes Hc _ IH]; intros acc; simpl.
  - now rewrite app_nil_r.
  - unfold run at 1, item at 1, pure at 1. rewrite Hc.
    unfold append at 1. rewrite IH. now rewrite <- app_assoc.
Qed.

(** X9.  When every page of the commits of a pull request is listed and
    every commit has a [sha], the commits fetch returns the hashes of
    all the commits of all the pages, in the order of the listing; it
    issues the requests of the listing and nothing else. *)
Theorem pull_commits_are_the_hashes (fuel : nat) (number : json)
  (s s' : state) (raws : list string) (pgs : list (list json))
  (hashes : list json) :
  pages L fuel (GiteeClient.pull_commits L number) s = (Ok raws, s') ->
  Forall2 (decodes L) raws pgs ->
  Forall2 (fun commit sha => getitem commit "sha" = Ok sha)
          (List.concat pgs) hashes ->
  Gitee.__get_pull_commits L fuel number s = (Ok (JArr hashes), s').
Proof.
  intros Hpages Hdec Hsha.
  set (sha_of := fun commit => match getitem commit "sha" with
                               | Ok sha => sha
                               | _ => JNull
                               end).
  assert (Hf : forall c sha, getitem c "sha" = Ok sha -> sha = sha_of c)
    by (intros c sha Hc; unfold sha_of; now rewrite Hc).
  destruct (Forall2_map_of _ sha_of _ _ Hf Hsha) as [Hh Hall]. subst hashes.
  unfold Gitee.__get_pull_commits, Gitee.tolerate_404.
  rewrite (for_pages_as_concat _
             (fun raw => map sha_of (records_of L raw)) _ _ _ _ _ Hpages).
  - now rewrite flat_map_map_of, (flat_map_records_of _ _ Hdec).
  - intros raw a st Hin.
    destruct (decodes_in _ _ _ Hdec Hin) as (d & page & Hd & Hp & Hpg).
    rewrite (loop_on_a_page _ _ _ _ _ _ Hd Hp).
    unfold records_of. rewrite Hd, Hp.
    apply collect_hashes. apply Forall_map_Forall2.
    eapply Forall_in_concat; eauto.
Qed.

(** A loop that appends to the local list one value for every element,
    computed without touching the state. *)
Lemma for_each_collect {A X : Type} (body : A -> step (list X))
  (f : A -> X) (l : list A) (acc : list X) (s : state) :
  Forall (fun a => forall acc0, body a acc0 s = ((acc0 ++ [f a], Ok Next), s))
         l ->
  for_each body l acc s = ((acc ++ map f l, Ok Next), s).
Proof.
  intros H. revert acc. induction H as [|a l Ha _ IH]; intros acc; simpl.
  - now rewrite app_nil_r.
  - now rewrite Ha, IH, <- app_assoc.
Qed.

(** X10.  With user data excluded, the fetch of the comments of an issue
    whose listing is read to its end returns every comment of every
    page, in the order of the listing, as it was received but for the
    field [user_data], which is [None]; every comment has to name the
    login of its user all the same. *)
Theorem issue_comments_without_user_data (fuel : nat) (number : json)
  (s s' : state) (raws : list string) (pgs : list (list json))
  (comments : list json) :
  pages L fuel (GiteeClient.issue_comments L number) s = (Ok raws, s') ->
  Forall2 (decodes L) raws pgs ->
  Forall2 (fun comment out =>
             (exists user login, getitem comment "user" = Ok user /\
                                 getitem user "login" = Ok login) /\
             setitem comment "user_data" JNull = Ok out)
          (List.concat pgs) comments ->
  Gitee.__get_issue_comments L true fuel number s
  = (Ok (JArr comments), s').
Proof.
  intros Hpages Hdec Hout.
  set (out_of := fun comment => match setitem comment "user_data" JNull with
                                | Ok out => out
                                | _ => JNull
                                end).
  assert (Hf : forall c out,
             (exists user login, getitem c "user" = Ok user /\
                                 getitem user "login" = Ok login) /\
             setitem c "user_data" JNull = Ok out -> out = out_of c)
    by (intros c out [_ Hc]; unfold out_of; now rewrite Hc).
  destruct (Forall2_map_of _ out_of _ _ Hf Hout) as [Hh Hall]. subst comments.
  unfold Gitee.__get_issue_comments, bind, final.
  rewrite (for_pages_as_concat _
             (fun raw => map out_of (records_of L raw)) _ _ _ _ _ Hpages).
  - unfold ret. now rewrite flat_map_map_of, (flat_map_records_of _ _ Hdec).
  - intros raw a st Hin.
    destruct (decodes_in _ _ _ Hdec Hin) as (d & page & Hd & Hp & Hpg).
    rewrite (loop_on_a_page _ _ _ _ _ _ Hd Hp).
    unfold records_of. rewrite Hd, Hp.
    apply for_each_collect.
    eapply Forall_impl; [|eapply Forall_in_concat; [exact Hall|exact Hpg]].
    simpl. intros c [(user & login & Hu & Hl) Hset] acc0.
    unfold run, get, item, set_item, pure, Gitee.__get_user, ret, append.
    destruct c as [| | | | |m]; try discriminate.
    simpl in Hu |- *. destruct (dict_get "id" m); simpl.
    all: destruct (dict_get "user" m); [|discriminate].
    all: injection Hu as ->; rewrite Hl, orb_true_r; reflexivity.
Qed.

(** ** Lists of users *)

Lemma resolve_loop (e : bool) (items : list json) :
  forall (acc : list json) (s : state) (acc' : list json) (r : result flow)
         (s' : state),
    for_each (fun item_ =>
        run (item item_ "login") (fun login =>
        run (Gitee.__get_user L e login) (fun user =>
        append user))) items acc s = ((acc', r), s') ->
    (exists f, r = Ok f) ->
    exists users, acc' = acc ++ users /\
                  resolved_in_turn L e s items users s'.
Proof.
  induction items as [|x items IH]; intros acc s acc' r s' H Hr.
  - injection H as <- _ <-. exists []. rewrite app_nil_r.
    split; [auto|constructor].
  - simpl in H.
    unfold run at 1, item at 1, pure at 1 in H.
    destruct (getitem x "login") as [login| |] eqn:Hl;
      try (injection H as _ <- _; destruct Hr; discriminate).
    unfold run at 1 in H.
    destruct (Gitee.__get_user L e login s) as [[user| |] s1] eqn:Hu;
      try (injection H as _ <- _; destruct Hr; discriminate).
    unfold append at 1 in H.
    apply IH in H as (users & -> & Hres); auto.
    exists (user :: users). rewrite <- app_assoc. split; auto.
    econstructor; eauto.
Qed.

Lemma resolve_loop_run (e : bool) (items users : list json) (s s' : state) :
  resolved_in_turn L e s items users s' ->
  forall acc,
    for_each (fun item_ =>
        run (item item_ "login") (fun login =>
        run (Gitee.__get_user L e login) (fun user =>
        append user))) items acc s = ((acc ++ users, Ok Next), s').
Proof.
  induction 1 as [s|s s1 s2 x login user items users Hl Hu _ IH];
    intros acc; simpl.
  - now rewrite app_nil_r.
  - unfold run at 1, item at 1, pure at 1. rewrite Hl.
    unfold run at 1. rewrite Hu. unfold append at 1.
    now rewrite IH, <- app_assoc.
Qed.

(** X11.  [__get_users] and [__get_issue_collaborators] return a list
    exactly when every item names a login and user resolution returns a
    record for each of them, the logins being resolved one after the
    other in the order of the items; the list then holds these records
    in that order, one for every item. *)
Theorem users_are_resolved_in_turn (exclude_user_data : bool)
  (items : list json) (s : state) (data : json) (s' : state) :
  (Gitee.__get_users L exclude_user_data (JArr items) s = (Ok data, s') <->
   exists users, data = JArr users /\
                 resolved_in_turn L exclude_user_data s items users s') /\
  (Gitee.__get_issue_collaborators L exclude_user_data (JArr items) s
   = (Ok data, s') <->
   exists users, data = JArr users /\
                 resolved_in_turn L exclude_user_data s items users s').
Proof.
  assert (G : forall body : json -> step (list json),
             body = (fun item_ =>
                       run (item item_ "login") (fun login =>
                       run (Gitee.__get_user L exclude_user_data login)
                           (fun user => append user))) ->
             bind (iter (JArr items)) (fun l =>
             bind (final (for_each body l) []) (fun users =>
             ret (JArr users))) s = (Ok data, s') <->
             exists users, data = JArr users /\
               resolved_in_turn L exclude_user_data s items users s').
  { intros body ->. unfold bind, iter, pure, final. simpl. split.
    - destruct (for_each _ items [] s) as [[acc r] s1] eqn:Hrun.
      destruct r as [f| |]; try discriminate.
      intros H. injection H as <- <-.
      apply resolve_loop in Hrun as (users & -> & Hres); eauto.
    - intros (users & -> & Hres).
      now rewrite (resolve_loop_run _ _ _ _ _ Hres []). }
  split; apply G; reflexivity.
Qed.

Lemma resolved_in_turn_grows (e : bool) (s : state) (items users : list json)
  (s' : state) :
  resolved_in_turn L e s items users s' -> caches_grow s s'.
Proof.
  induction 1 as [s|s s1 s2 x login user items users Hl Hu _ IH].
  - apply caches_grow_refl.
  - eapply caches_grow_trans; [|exact IH].
    revert Hu. apply keeps_at.
    apply (keeps_get_user caches_grow caches_grow_refl caches_grow_trans
             caches_grow_user caches_grow_user_orgs).
Qed.

Lemma resolved_in_turn_again (s : state) (items users : list json)
  (s1 s2 : state) :
  resolved_in_turn L false s items users s1 -> caches_grow s1 s2 ->
  resolved_in_turn L false s2 items users s2.
Proof.
  induction 1 as [s|s s1 s3 x login user items users Hl Hu Hrest IH];
    intros Hg.
  - constructor.
  - econstructor; [exact Hl| |exact (IH Hg)].
    eapply get_user_again; [exact Hu|].
    eapply caches_grow_trans; [|exact Hg].
    eapply resolved_in_turn_grows; eauto.
Qed.

(** X22.  A list of users that has been resolved is resolved again
    without a request: after any run of the category dispatch that
    follows, [__get_users] returns the same records for the same items
    and leaves the state as it is. *)
Theorem resolved_users_are_not_requested_again (items : list json)
  (s : state) (data : json) (s1 : state) (exclude_user_data : bool)
  (fuel : nat) (category : string) (from_date to_date : Z)
  (acc out : list json) (r : result flow) (s2 : state) :
  Gitee.__get_users L false (JArr items) s = (Ok data, s1) ->
  Gitee.fetch_items L exclude_user_data fuel category from_date to_date
                    acc s1 = ((out, r), s2) ->
  Gitee.__get_users L false (JArr items) s2 = (Ok data, s2).
Proof.
  intros H Hrun. unfold Gitee.__get_users, bind, iter, pure, final in *.
  simpl in *.
  destruct (for_each _ items [] s) as [[users r0] s0] eqn:Hloop.
  destruct r0 as [f| |]; try discriminate. injection H as <- <-.
  apply resolve_loop in Hloop as (users' & -> & Hres); eauto.
  apply caches_grow_fetch_items in Hrun.
  now rewrite (resolve_loop_run _ _ _ _ _
                 (resolved_in_turn_again _ _ _ _ _ Hres Hrun) []).
Qed.

(** X23.  With user data excluded, [__get_users] and
    [__get_issue_collaborators] return one [None] for every item and
    touch nothing, provided every item names a login: the items are
    read even though no user is resolved. *)
Theorem excluded_users_are_none (items : list json) (s : state) :
  Forall (fun item_ => exists login, getitem item_ "login" = Ok login)
         items ->
  Gitee.__get_users L true (JArr items) s
  = (Ok (JArr (map (fun _ => JNull) items)), s) /\
  Gitee.__get_issue_collaborators L true (JArr items) s
  = (Ok (JArr (map (fun _ => JNull) items)), s).
Proof.
  intros H.
  assert (Hres : resolved_in_turn L true s items
                   (map (fun _ => JNull) items) s).
  { induction H as [|x items [login Hl] _ IH]; simpl; [constructor|].
    econstructor; [exact Hl| |exact IH].
    unfold Gitee.__get_user. now rewrite orb_true_r. }
  unfold Gitee.__get_users, Gitee.__get_issue_collaborators, bind, iter,
    pure, final. simpl.
  now rewrite (resolve_loop_run _ _ _ _ _ Hres []).
Qed.

(** X24.  The guard of the review comments reads the [url] of a comment
    for its warning: when the first comment of the first page has no
    user, or an empty one, and no [url] either, the fetch of the review
    comments raises [KeyError] for [url]. *)
Theorem review_comment_without_user_and_url_raises
  (exclude_user_data : bool) (fuel : nat) (pr_number : json) (s : state)
  (raw : string) (g' : pager) (s1 : state) (comment : dict)
  (rest : list json) :
  GiteeClient.fetch_items_next L
    (GiteeClient.pull_review_comments L pr_number) s
    = (Ok (Some (raw, g')), s1) ->
  decodes L raw (JObj comment :: rest) ->
  (dict_get "user" comment = None \/
   exists user, dict_get "user" comment = Some user /\ truthy user = false) ->
  dict_get "url" comment = None ->
  Gitee.__get_pull_review_comments L exclude_user_data (S fuel) pr_number s
    = (Raise (KeyError "url"), s1).
Proof.
  intros Hn (d & Hd & Hl) Hu Hurl.
  unfold Gitee.__get_pull_review_comments, Gitee.tolerate_404.
  rewrite for_pages_S, Hn.
  unfold run at 1, loads at 1, pure at 1. rewrite Hd. simpl.
  unfold run at 1, iter at 1, pure at 1. rewrite Hl. simpl.
  unfold run at 1, get at 1, pure at 1. simpl.
  assert (Hget : exists user, py_get (JObj comment) "user" = Ok user /\
                              truthy user = false).
  { simpl. destruct Hu as [->|(user & -> & Ht)]; eauto. }
  destruct Hget as (user & Hget & Ht).
  destruct (dict_get "id" comment);
    unfold run at 1, get at 1, pure at 1; rewrite Hget;
    unfold run, bind, item, pure; rewrite Ht; simpl; now rewrite Hurl.
Qed.

(** ** The repository driver *)


(** ** The metadata of the items *)

(** X13.  The item the repository driver yields for a repository the
    server describes with a [forks_count] is dated and identified by the
    time of the fetch; without a [base] field its category is
    [repository].  For a repository described without a [forks_count]
    the category is not [repository]. *)
Theorem repository_item_metadata (str : json -> string)
  (timestamp : Z -> json) (acc : list json) (s : state) (out : list json)
  (s' : state) :
  Gitee.__fetch_repo_info L acc s = ((out, Ok Next), s') ->
  exists item_,
    out = acc ++ [JObj item_] /\
    (dict_in "forks_count" item_ = true ->
     Gitee.metadata_updated_on L timestamp item_
     = Ok (JNum (utcnow_timestamp L (world s'))) /\
     Gitee.metadata_id str item_
     = Ok (str (JNum (utcnow_timestamp L (world s')))) /\
     (dict_in "base" item_ = false ->
      Gitee.metadata_category item_ = CATEGORY_REPO)) /\
    (dict_in "forks_count" item_ = false ->
     Gitee.metadata_category item_ <> CATEGORY_REPO).
Proof.
  unfold Gitee.__fetch_repo_info, GiteeClient.repo, GiteeClient.repo_releases.
  unfold run, bind, GiteeClient.fetch, loads, pure, set_item, ret, append.
  simpl.
  destruct (HttpClient_fetch L (world s) _ _) as [[rsp1|x1] w1];
    [|discriminate].
  destruct (json_loads L (text rsp1)) as [j1|x1]; simpl; [|discriminate].
  destruct (HttpClient_fetch L w1 _ _) as [[rsp2|x2] w2]; [|discriminate].
  destruct (json_loads L (text rsp2)) as [j2|x2]; simpl; [|discriminate].
  destruct j1 as [| | | | |m]; simpl; try discriminate.
  intros H. injection H as <- <-. eexists. split; [reflexivity|].
  unfold Gitee.metadata_updated_on, Gitee.metadata_id,
    Gitee.metadata_category. simpl.
  split.
  - intros ->. rewrite dict_get_set_same. repeat split. now intros ->.
  - intros ->. destruct (dict_in "base" _); discriminate.
Qed.

Lemma same_but_dict_in (keys : list string) (a b : dict) (k : string) :
  same_but keys (JObj a) (JObj b) -> ~ In k keys ->
  dict_in k b = dict_in k a.
Proof.
  intros (ma & mb & Ea & Eb & H) Hk. injection Ea as <-. injection Eb as <-.
  unfold dict_in. now rewrite (H k Hk).
Qed.

(** The metadata of an item is read from fields the enrichment leaves
    alone. *)
Lemma same_but_metadata (str : json -> string) (timestamp : Z -> json)
  (keys : list string) (a b : dict) :
  same_but keys (JObj a) (JObj b) ->
  (forall k, In k ["forks_count"; "fetched_on"; "id"; "updated_at"; "base"] ->
             ~ In k keys) ->
  Gitee.metadata_id str b = Gitee.metadata_id str a /\
  Gitee.metadata_updated_on L timestamp b
  = Gitee.metadata_updated_on L timestamp a /\
  Gitee.metadata_category b = Gitee.metadata_category a.
Proof.
  intros Hs Hk.
  unfold Gitee.metadata_id, Gitee.metadata_updated_on,
    Gitee.metadata_category.
  rewrite (same_but_dict_in keys a b "forks_count" Hs),
    (same_but_dict_in keys a b "base" Hs) by (apply Hk; simpl; auto 6).
  rewrite (same_but_getitem keys _ _ "fetched_on" Hs),
    (same_but_getitem keys _ _ "id" Hs),
    (same_but_getitem keys _ _ "updated_at" Hs) by (apply Hk; simpl; auto 6).
  auto.
Qed.

Lemma updated_on_metadata (timestamp : Z -> json) (m : dict) (t : Z) :
  updated_on L (JObj m) = Ok t -> dict_in "forks_count" m = false ->
  Gitee.metadata_updated_on L timestamp m = Ok (timestamp t).
Proof.
  unfold updated_on, Gitee.metadata_updated_on. intros H ->.
  destruct (getitem (JObj m) "updated_at") as [ts| |]; try discriminate.
  destruct (str_to_datetime L ts); simpl in H; [|discriminate].
  now injection H as ->.
Qed.

Lemma fetch_issues_harvested (e : bool) (fuel : nat) (from_date to_date : Z)
  (s : state) (out : list json) (r : result flow) (s' : state) :
  Gitee.__fetch_issues L e fuel from_date to_date [] s = ((out, r), s') ->
  harvested L ISSUE_DATA_FIELDS OIssues (fun t => t >? to_date) s out r s'.
Proof.
  intros H.
  change (harvest_loop L (fun t => t >? to_date)
            Gitee.__init_extra_issue_fields
            (fun issue =>
               final (for_each (Gitee.issue_field L e fuel)
                               TARGET_ISSUE_FIELDS) issue)
            fuel (GiteeClient.issues L (Some from_date)) [] s
          = ((out, r), s')) in H.
  eapply (harvest_loop_harvested ISSUE_DATA_FIELDS OIssues _ _ _
            (enrichment e)) in H; [exact H|..].
  - simpl. intuition discriminate.
  - reflexivity.
  - apply init_extra_issue_fields_spec.
  - intros record. apply M_frame_final. apply step_frame_for_each.
    intros field. apply step_frame_issue_field. auto.
  - intros record s1 record' s2 Hen.
    eapply issue_fields_same; [exact Hen|].
    destruct record; try (simpl in Hen; discriminate). eauto.
  - reflexivity.
Qed.

Lemma fetch_pull_requests_harvested (e : bool) (fuel : nat)
  (from_date to_date : Z) (s : state) (out : list json) (r : result flow)
  (s' : state) :
  Gitee.__fetch_pull_requests L e fuel from_date to_date [] s
    = ((out, r), s') ->
  harvested L PULL_DATA_FIELDS OPulls
            (fun t => (t <? from_date) || (t >? to_date)) s out r s'.
Proof.
  intros H.
  change (harvest_loop L (fun t => (t <? from_date) || (t >? to_date))
            Gitee.__init_extra_pull_fields
            (fun pull =>
               final (for_each (Gitee.pull_field L e fuel)
                               TARGET_PULL_FIELDS) pull)
            fuel (GiteeClient.pulls L (Some from_date)) [] s
          = ((out, r), s')) in H.
  eapply (harvest_loop_harvested PULL_DATA_FIELDS OPulls _ _ _
            (enrichment e)) in H; [exact H|..].
  - simpl. intuition discriminate.
  - reflexivity.
  - apply init_extra_pull_fields_spec.
  - intros record. apply M_frame_final. apply step_frame_for_each.
    intros field. apply step_frame_pull_field. auto.
  - intros record s1 record' s2 Hen.
    eapply pull_fields_same; [exact Hen|].
    destruct record; try (simpl in Hen; discriminate). eauto.
  - reflexivity.
Qed.

(** What the two list drivers do to the metadata of the records. *)
Lemma harvested_metadata (str : json -> string) (timestamp : Z -> json)
  (keys : list string) (o : origin) (stop : Z -> bool) (s : state)
  (out : list json) (r : result flow) (s' : state) :
  (forall k, In k ["forks_count"; "fetched_on"; "id"; "updated_at"; "base"] ->
             ~ In k keys) ->
  harvested L keys o stop s out r s' ->
  exists ex seen rest,
    net s' = net s ++ ex /\
    received L o ex = seen ++ rest /\
    Forall2 (fun record it =>
               exists m_record m_item,
                 record = JObj m_record /\ it = JObj m_item /\
                 Gitee.metadata_id str m_item
                 = Gitee.metadata_id str m_record /\
                 Gitee.metadata_updated_on L timestamp m_item
                 = Gitee.metadata_updated_on L timestamp m_record /\
                 Gitee.metadata_category m_item
                 = Gitee.metadata_category m_record) seen out /\
    Forall (fun it =>
              exists m_item, it = JObj m_item /\
                (dict_in "forks_count" m_item = false ->
                 exists t, Gitee.metadata_updated_on L timestamp m_item
                           = Ok (timestamp t) /\ stop t = false)) out.
Proof.
  intros Hk (ex & seen & rest & E & R & F2 & F & _).
  exists ex, seen, rest. repeat split; auto.
  - eapply Forall2_impl; [|exact F2]. simpl.
    intros a b Hab. pose proof Hab as (ma & mb & -> & -> & _).
    exists ma, mb. repeat split; auto;
      now apply (same_but_metadata str timestamp keys ma mb Hab Hk).
  - assert (Hobj : Forall (fun it => exists m, it = JObj m) out).
    { clear - F2. induction F2 as [|a b ? ? (ma & mb & _ & -> & _) _ IH];
        eauto. }
    rewrite Forall_forall in *. intros it Hin.
    destruct (Hobj it Hin) as [m ->]. destruct (F _ Hin) as (t & Ht & Hs).
    exists m. split; auto. intros Hfc. exists t. split; auto.
    now apply updated_on_metadata.
Qed.

(** X14.  The enrichment of an issue leaves its metadata alone: every
    issue the driver yields has the identifier, the update time and the
    category of the record it was received as.  The update time of a
    yielded issue is well defined and not after [to_date]. *)
Theorem issue_metadata_is_kept (str : json -> string)
  (timestamp : Z -> json) (exclude_user_data : bool) (fuel : nat)
  (from_date to_date : Z) (s : state) (out : list json) (r : result flow)
  (s' : state) :
  Gitee.__fetch_issues L exclude_user_data fuel from_date to_date [] s
    = ((out, r), s') ->
  exists ex seen rest,
    net s' = net s ++ ex /\
    received L OIssues ex = seen ++ rest /\
    Forall2 (fun record it =>
               exists m_record m_item,
                 record = JObj m_record /\ it = JObj m_item /\
                 Gitee.metadata_id str m_item
                 = Gitee.metadata_id str m_record /\
                 Gitee.metadata_updated_on L timestamp m_item
                 = Gitee.metadata_updated_on L timestamp m_record /\
                 Gitee.metadata_category m_item
                 = Gitee.metadata_category m_record) seen out /\
    Forall (fun it =>
              exists m_item, it = JObj m_item /\
                (dict_in "forks_count" m_item = false ->
                 exists t, Gitee.metadata_updated_on L timestamp m_item
                           = Ok (timestamp t) /\ t <= to_date)) out.
Proof.
  intros H. apply fetch_issues_harvested in H.
  apply (harvested_metadata str timestamp) in H
      as (ex & seen & rest & E & R & F2 & F).
  - exists ex, seen, rest. repeat split; auto.
    eapply Forall_impl; [|exact F]. simpl. intros it (m & -> & Hm).
    exists m. split; auto. intros Hfc.
    destruct (Hm Hfc) as (t & Ht & Hs). exists t. split; auto. lia.
  - simpl. intuition (subst; discriminate).
Qed.

(** X15.  The enrichment of a pull request leaves its metadata alone:
    every pull request the driver yields has the identifier, the update
    time and the category of the record it was received as.  The update
    time of a yielded pull request is well defined and neither before
    [from_date] nor after [to_date]. *)
Theorem pull_metadata_is_kept (str : json -> string)
  (timestamp : Z -> json) (exclude_user_data : bool) (fuel : nat)
  (from_date to_date : Z) (s : state) (out : list json) (r : result flow)
  (s' : state) :
  Gitee.__fetch_pull_requests L exclude_user_data fuel from_date to_date
                              [] s = ((out, r), s') ->
  exists ex seen rest,
    net s' = net s ++ ex /\
    received L OPulls ex = seen ++ rest /\
    Forall2 (fun record it =>
               exists m_record m_item,
                 record = JObj m_record /\ it = JObj m_item /\
                 Gitee.metadata_id str m_item
                 = Gitee.metadata_id str m_record /\
                 Gitee.metadata_updated_on L timestamp m_item
                 = Gitee.metadata_updated_on L timestamp m_record /\
                 Gitee.metadata_category m_item
                 = Gitee.metadata_category m_record) seen out /\
    Forall (fun it =>
              exists m_item, it = JObj m_item /\
                (dict_in "forks_count" m_item = false ->
                 exists t, Gitee.metadata_updated_on L timestamp m_item
                           = Ok (timestamp t) /\
                           from_date <= t /\ t <= to_date)) out.
Proof.
  intros H. apply fetch_pull_requests_harvested in H.
  apply (harvested_metadata str timestamp) in H
      as (ex & seen & rest & E & R & F2 & F).
  - exists ex, seen, rest. repeat split; auto.
    eapply Forall_impl; [|exact F]. simpl. intros it (m & -> & Hm).
    exists m. split; auto. intros Hfc.
    destruct (Hm Hfc) as (t & Ht & Hs). exists t. split; auto.
    apply orb_false_iff in Hs. lia.
  - simpl. intuition (subst; discriminate).
Qed.

(** ** The shape of the items the list drivers yield *)

(** What holds of every record a list driver has initialised and
    enriched holds of every item it yields. *)
Lemma harvest_loop_yields (P : json -> Prop) (stop : Z -> bool)
  (init enrich : json -> M json) (fuel : nat) (g : pager)
  (acc : list json) (s : state) (out : list json) (r : result flow)
  (s' : state) :
  (forall record s0 x1 s1 x2 s2,
      init record s0 = (Ok x1, s1) -> enrich x1 s1 = (Ok x2, s2) -> P x2) ->
  Forall P acc ->
  harvest_loop L stop init enrich fuel g acc s = ((out, r), s') ->
  Forall P out.
Proof.
  intros Hrec Hacc H. unfold harvest_loop in H.
  eapply (for_pages_rule _ (fun _ a _ => Forall P a)
            (fun a _ _ => Forall P a)); [| |exact Hacc|exact H].
  - auto.
  - intros g1 a1 s1 r1 s2 HI Hn.
    destruct r1 as [[[items g2]|]|e|]; auto.
    intros a3 r3 s3 Hb.
    assert (Hend : Forall P a3).
    { run_cases Hb; auto. run_cases Hb; auto.
      eapply (for_each_rule _ (fun _ a _ => Forall P a)
                (fun a _ _ => Forall P a)); [| |exact HI|exact Hb].
      - auto.
      - intros record xs a s4 a' r' s5 Ha Hx.
        assert (Forall P a').
        { run_cases Hx; auto. run_cases Hx; auto.
          match type of Hx with
          | (if stop ?t then _ else _) _ _ = _ => destruct (stop t)
          end; [injection Hx as <- _ _; auto|].
          run_cases Hx; auto. run_cases Hx; auto.
          injection Hx as <- _ _. apply Forall_app. split; auto.
          constructor; auto. eapply Hrec; eauto. }
        destruct r' as [[| |]|?|]; auto. }
    destruct r3 as [[| |]|?|]; auto.
Qed.

Lemma not_in_data_fields (keys : list string) (field : string)
  (fields : list string) :
  In field fields ->
  forallb (fun f => negb (existsb (String.eqb f) keys)) fields = true ->
  ~ In field keys.
Proof.
  intros Hin Hall Hk. rewrite forallb_forall in Hall.
  specialize (Hall _ Hin). apply negb_true_iff in Hall.
  assert (existsb (String.eqb field) keys = true); [|congruence].
  apply existsb_exists. exists field. split; auto. apply String.eqb_refl.
Qed.

(** The enrichment of one field of an issue: it sets nothing but the
    data field of one of the four target fields, it goes on with the
    next field, and it needs the field to be there. *)
Lemma issue_field_sets (e : bool) (fuel : nat) (field : string) (m : dict)
  (s : state) (issue' : json) (r : result flow) (s' : state) :
  Gitee.issue_field L e fuel field (JObj m) s = ((issue', r), s') ->
  same_but ["user_data"; "assignee_data"; "collaborators_data";
            "comments_data"] (JObj m) issue' /\
  (forall f, r = Ok f -> f = Next /\ exists v, dict_get field m = Some v).
Proof.
  unfold Gitee.issue_field. intros H.
  run_cases H; [|split; [apply same_but_refl|discriminate]..].
  apply item_inv in Hrun as [Hv ->].
  assert (Hfield : exists v, dict_get field m = Some v).
  { simpl in Hv. destruct (dict_get field m); [eauto|discriminate]. }
  destruct (negb (truthy x)).
  { injection H as <- <- _. split; [apply same_but_refl|].
    intros f [= <-]. auto. }
  repeat match type of H with
         | (if String.eqb field ?k then _ else _) _ _ = _ =>
             let E := fresh "E" in
             destruct (String.eqb field k) eqn:E;
             [apply String.eqb_eq in E; subst field|]
         end.
  5: { injection H as <- <- _. split; [apply same_but_refl|].
       intros f [= <-]. auto. }
  all: repeat (run_cases H; [|split; [apply same_but_refl|discriminate]..]).
  all: injection H as <- <- _.
  all: match goal with
       | H : set_item _ _ _ _ = _ |- _ => apply set_item_inv in H as [H _]
       end.
  all: split; [|intros f [= <-]; auto].
  all: eapply same_but_setitem; [|symmetry; eassumption]; simpl; auto 6.
Qed.

Lemma issue_fields_shape (e : bool) (fuel : nat) (m : dict) (s : state)
  (issue' : json) (s' : state) :
  final (for_each (Gitee.issue_field L e fuel) TARGET_ISSUE_FIELDS)
        (JObj m) s = (Ok issue', s') ->
  same_but ["user_data"; "assignee_data"; "collaborators_data";
            "comments_data"] (JObj m) issue' /\
  Forall (fun f => exists v, dict_get f m = Some v) TARGET_ISSUE_FIELDS.
Proof.
  intros H. apply final_inv in H as (acc & r0 & H & Hr).
  destruct r0 as [f0| |]; try discriminate. injection Hr as ->.
  set (keys := ["user_data"; "assignee_data"; "collaborators_data";
                "comments_data"]).
  eapply (for_each_rule _
            (fun xs a _ =>
               same_but keys (JObj m) a /\
               exists done, TARGET_ISSUE_FIELDS = done ++ xs /\
                 Forall (fun f => exists v, dict_get f m = Some v) done)
            (fun a r _ =>
               (exists f, r = Ok f) ->
               same_but keys (JObj m) a /\
               Forall (fun f => exists v, dict_get f m = Some v)
                      TARGET_ISSUE_FIELDS)) in H; eauto.
  - intros a s1 (Hs & done & Hd & Hf) _. rewrite app_nil_r in Hd.
    subst done. auto.
  - intros x xs a s1 a' r1 s2 (Hs & done & Hd & Hf) Hx.
    pose proof Hs as (m0 & ma & E & -> & Hget). injection E as <-.
    apply issue_field_sets in Hx as [Hs' Hr].
    assert (Hs2 : same_but keys (JObj m) a')
      by (eapply same_but_trans; eauto).
    destruct r1 as [f|?|]; [|intros [? ?]; discriminate..].
    destruct (Hr f eq_refl) as [-> (v & Hv)].
    split; auto. exists (done ++ [x]). rewrite <- app_assoc. split; auto.
    apply Forall_app. split; auto. constructor; auto.
    exists v. rewrite <- Hv. symmetry. apply Hget.
    apply (not_in_data_fields keys x TARGET_ISSUE_FIELDS); [|reflexivity].
    rewrite Hd. apply in_or_app. right. now left.
  - split; [apply same_but_refl|]. exists []. auto.
Qed.

(** X16.  Every issue the driver yields is an object that has the four
    fields the enrichment reads, [user], [assignee], [collaborators] and
    [comments]: a record without one of them is never yielded.  Its
    [assignees_data] is the empty list: the driver creates the field and
    never fills it. *)
Theorem yielded_issue_shape (exclude_user_data : bool) (fuel : nat)
  (from_date to_date : Z) (s : state) (out : list json) (r : result flow)
  (s' : state) :
  Gitee.__fetch_issues L exclude_user_data fuel from_date to_date [] s
    = ((out, r), s') ->
  Forall (fun it =>
            exists m, it = JObj m /\
              dict_get "assignees_data" m = Some (JArr []) /\
              Forall (fun field => exists v, dict_get field m = Some v)
                     TARGET_ISSUE_FIELDS) out.
Proof.
  intros H.
  change (harvest_loop L (fun t => t >? to_date)
            Gitee.__init_extra_issue_fields
            (fun issue =>
               final (for_each (Gitee.issue_field L exclude_user_data fuel)
                               TARGET_ISSUE_FIELDS) issue)
            fuel (GiteeClient.issues L (Some from_date)) [] s
          = ((out, r), s')) in H.
  eapply harvest_loop_yields; [|constructor|exact H].
  intros record s0 x1 s1 x2 s2 Hinit Hen.
  destruct record as [| | | | |mr]; try discriminate.
  injection Hinit as <- <-.
  apply issue_fields_shape in Hen as [(m1 & m2 & E & -> & Hget) Hf].
  injection E as <-. exists m2. split; auto. split.
  - rewrite Hget by (simpl; intuition discriminate).
    rewrite dict_get_set_other by discriminate. apply dict_get_set_same.
  - rewrite Forall_forall in *. intros f Hin.
    destruct (Hf f Hin) as [v Hv]. exists v. rewrite <- Hv. apply Hget.
    apply (not_in_data_fields _ f TARGET_ISSUE_FIELDS); auto.
Qed.

(** The enrichment of one field of a pull request: it sets nothing but
    [merged_by] and data fields other than [reviews_data], it goes on
    with the next field, and it needs the field to be there. *)
Lemma pull_field_sets (e : bool) (fuel : nat) (field : string) (m : dict)
  (s : state) (pull' : json) (r : result flow) (s' : state) :
  Gitee.pull_field L e fuel field (JObj m) s = ((pull', r), s') ->
  same_but ["user_data"; "merged_by_data"; "assignees_data";
            "testers_data"; "review_comments_data"; "commits_data";
            "merged_by"] (JObj m) pull' /\
  (forall f, r = Ok f -> f = Next /\ exists v, dict_get field m = Some v).
Proof.
  unfold Gitee.pull_field. intros H.
  run_cases H; [|split; [apply same_but_refl|discriminate]..].
  apply item_inv in Hrun as [Hv ->].
  assert (Hfield : exists v, dict_get field m = Some v).
  { simpl in Hv. destruct (dict_get field m); [eauto|discriminate]. }
  assert (Hnext : forall f, Ok Next = Ok f ->
                            f = Next /\ exists v, dict_get field m = Some v)
    by (intros f [= <-]; auto).
  destruct (negb (truthy x)).
  { unfold assign, exit in H; injection H as <- <- _.
    split; [apply same_but_refl|auto]. }
  destruct (String.eqb field "user") eqn:E1;
    [apply String.eqb_eq in E1; subst field|].
  { repeat (run_cases H; [|split; [apply same_but_refl|discriminate]..]).
    unfold assign, exit in H; injection H as <- <- _.
    split; [same_chain|auto]. }
  destruct (String.eqb field "merged_by") eqn:E2;
    [apply String.eqb_eq in E2; subst field|].
  { repeat (run_cases H; [|split; [apply same_but_refl|discriminate]..]).
    unfold assign, exit in H; injection H as <- <- _.
    split; [same_chain|auto]. }
  destruct (String.eqb field "assignees" || String.eqb field "testers") eqn:E3.
  { apply orb_true_iff in E3 as [E3|E3]; apply String.eqb_eq in E3;
      subst field;
      repeat (run_cases H; [|split; [apply same_but_refl|discriminate]..]);
      unfold assign, exit in H; injection H as <- <- _;
      (split; [same_chain|auto]). }
  destruct (String.eqb field "number") eqn:E4;
    [apply String.eqb_eq in E4; subst field|].
  2: { unfold assign, exit in H; injection H as <- <- _.
       split; [apply same_but_refl|auto]. }
  do 10 (run_cases H; [|split; [apply same_but_refl|discriminate]..]).
  match type of H with
  | (if truthy ?v then _ else _) _ _ = _ => destruct (truthy v)
  end.
  - repeat (run_cases H; [|split; [apply same_but_refl|discriminate]..]).
    unfold assign, exit in H; injection H as <- <- _.
    split; [same_chain|auto].
  - unfold assign, exit in H; injection H as <- <- _.
    split; [same_chain|auto].
Qed.

Lemma pull_fields_shape (e : bool) (fuel : nat) (m : dict) (s : state)
  (pull' : json) (s' : state) :
  final (for_each (Gitee.pull_field L e fuel) TARGET_PULL_FIELDS)
        (JObj m) s = (Ok pull', s') ->
  same_but ["user_data"; "merged_by_data"; "assignees_data";
            "testers_data"; "review_comments_data"; "commits_data";
            "merged_by"] (JObj m) pull' /\
  Forall (fun f => exists v, dict_get f m = Some v) TARGET_PULL_FIELDS.
Proof.
  intros H. apply final_inv in H as (acc & r0 & H & Hr).
  destruct r0 as [f0| |]; try discriminate. injection Hr as ->.
  set (keys := ["user_data"; "merged_by_data"; "assignees_data";
                "testers_data"; "review_comments_data"; "commits_data";
                "merged_by"]).
  eapply (for_each_rule _
            (fun xs a _ =>
               same_but keys (JObj m) a /\
               exists done, TARGET_PULL_FIELDS = done ++ xs /\
                 Forall (fun f => exists v, dict_get f m = Some v) done)
            (fun a r _ =>
               (exists f, r = Ok f) ->
               same_but keys (JObj m) a /\
               Forall (fun f => exists v, dict_get f m = Some v)
                      TARGET_PULL_FIELDS)) in H; eauto.
  - intros a s1 (Hs & done & Hd & Hf) _. rewrite app_nil_r in Hd.
    subst done. auto.
  - intros x xs a s1 a' r1 s2 (Hs & done & Hd & Hf) Hx.
    pose proof Hs as (m0 & ma & E & -> & Hget). injection E as <-.
    apply pull_field_sets in Hx as [Hs' Hr].
    assert (Hs2 : same_but keys (JObj m) a')
      by (eapply same_but_trans; eauto).
    destruct r1 as [f|?|]; [|intros [? ?]; discriminate..].
    destruct (Hr f eq_refl) as [-> (v & Hv)].
    split; auto. exists (done ++ [x]). rewrite <- app_assoc. split; auto.
    apply Forall_app. split; auto. constructor; auto.
    exists v. rewrite <- Hv. symmetry. apply Hget.
    apply (not_in_data_fields keys x TARGET_PULL_FIELDS); [|reflexivity].
    rewrite Hd. apply in_or_app. right. now left.
  - split; [apply same_but_refl|]. exists []. auto.
Qed.

(** X17.  Every pull request the driver yields is an object that has the
    fields the enrichment reads, [user], [assignees], [number] and
    [testers]: a record without one of them is never yielded.  Its
    [reviews_data] is the empty list: the driver creates the field and
    never fills it. *)
Theorem yielded_pull_request_shape (exclude_user_data : bool) (fuel : nat)
  (from_date to_date : Z) (s : state) (out : list json) (r : result flow)
  (s' : state) :
  Gitee.__fetch_pull_requests L exclude_user_data fuel from_date to_date
                              [] s = ((out, r), s') ->
  Forall (fun it =>
            exists m, it = JObj m /\
              dict_get "reviews_data" m = Some (JArr []) /\
              Forall (fun field => exists v, dict_get field m = Some v)
                     TARGET_PULL_FIELDS) out.
Proof.
  intros H.
  change (harvest_loop L (fun t => (t <? from_date) || (t >? to_date))
            Gitee.__init_extra_pull_fields
            (fun pull =>
               final (for_each (Gitee.pull_field L exclude_user_data fuel)
                               TARGET_PULL_FIELDS) pull)
            fuel (GiteeClient.pulls L (Some from_date)) [] s
          = ((out, r), s')) in H.
  eapply harvest_loop_yields; [|constructor|exact H].
  intros record s0 x1 s1 x2 s2 Hinit Hen.
  destruct record as [| | | | |mr]; try discriminate.
  injection Hinit as <- <-.
  apply pull_fields_shape in Hen as [(m1 & m2 & E & -> & Hget) Hf].
  injection E as <-. exists m2. split; auto. split.
  - rewrite Hget by (simpl; intuition discriminate).
    rewrite !dict_get_set_other by discriminate. apply dict_get_set_same.
  - rewrite Forall_forall in *. intros f Hin.
    destruct (Hf f Hin) as [v Hv]. exists v. rewrite <- Hv. apply Hget.
    apply (not_in_data_fields _ f TARGET_PULL_FIELDS); auto.
Qed.

(** The enrichment of one field of an issue, when it does not raise: it
    leaves the issue as it is, or the field is one of the four target
    fields, it is not empty, and its data field is set. *)
Lemma issue_field_one (e : bool) (fuel : nat) (field : string) (m : dict)
  (s : state) (issue' : json) (f : flow) (s' : state) :
  Gitee.issue_field L e fuel field (JObj m) s = ((issue', Ok f), s') ->
  f = Next /\
  (issue' = JObj m \/
   exists v d, In field TARGET_ISSUE_FIELDS /\ dict_get field m = Some v /\
               truthy v = true /\
               issue' = JObj (dict_set (field ++ "_data") d m)).
Proof.
  remember (Ok f) as r eqn:Hr. unfold Gitee.issue_field. intros H.
  run_cases H; [|discriminate..].
  apply item_inv in Hrun as [Hv ->].
  assert (Hfield : dict_get field m = Some x).
  { simpl in Hv. destruct (dict_get field m); [congruence|discriminate]. }
  destruct (truthy x) eqn:Ht; simpl in H.
  2: { injection H as <- <- _. injection Hr as <-. auto. }
  repeat match type of H with
         | (if String.eqb field ?k then _ else _) _ _ = _ =>
             let E := fresh "E" in
             destruct (String.eqb field k) eqn:E;
             [apply String.eqb_eq in E; subst field|]
         end.
  5: { injection H as <- <- _. injection Hr as <-. auto. }
  all: repeat (run_cases H; [|discriminate..]).
  all: injection H as <- <- _; injection Hr as <-.
  all: match goal with
       | H : set_item _ _ _ _ = _ |- _ => apply set_item_inv in H as [H _]
       end.
  all: split; [reflexivity|right].
  all: match goal with
       | H : Ok ?j = setitem (JObj _) ?k ?d, Hx : dict_get _ _ = Some ?x
         |- _ =>
           exists x, d; simpl in H; injection H as ->
       end.
  all: repeat split; simpl; auto 6.
Qed.

(** X26.  The data field of an empty field keeps its default: in every
    issue the driver yields, [user_data] is the empty object when
    [user] is empty, [assignee_data] is the empty object when
    [assignee] is empty, and [comments_data] is the empty list when
    [comments] is empty, as it is for an issue without comments. *)
Theorem empty_issue_fields_keep_their_defaults (exclude_user_data : bool)
  (fuel : nat) (from_date to_date : Z) (s : state) (out : list json)
  (r : result flow) (s' : state) :
  Gitee.__fetch_issues L exclude_user_data fuel from_date to_date [] s
    = ((out, r), s') ->
  Forall (fun it =>
            exists m, it = JObj m /\
              (forall v, dict_get "user" m = Some v -> truthy v = false ->
                         dict_get "user_data" m = Some (JObj [])) /\
              (forall v, dict_get "assignee" m = Some v ->
                         truthy v = false ->
                         dict_get "assignee_data" m = Some (JObj [])) /\
              (forall v, dict_get "comments" m = Some v ->
                         truthy v = false ->
                         dict_get "comments_data" m = Some (JArr [])))
         out.
Proof.
  intros H.
  change (harvest_loop L (fun t => t >? to_date)
            Gitee.__init_extra_issue_fields
            (fun issue =>
               final (for_each (Gitee.issue_field L exclude_user_data fuel)
                               TARGET_ISSUE_FIELDS) issue)
            fuel (GiteeClient.issues L (Some from_date)) [] s
          = ((out, r), s')) in H.
  eapply harvest_loop_yields; [|constructor|exact H].
  intros record s0 x1 s1 x2 s2 Hinit Hen.
  destruct record as [| | | | |mr]; try discriminate.
  injection Hinit as <- <-.
  set (m1 := dict_set "comments_data" (JArr [])
               (dict_set "assignees_data" (JArr [])
                  (dict_set "assignee_data" (JObj [])
                     (dict_set "user_data" (JObj []) mr)))) in *.
  (* what the loop over the target fields keeps *)
  set (kept := fun (ma : dict) (g : string) =>
                 dict_get g ma = dict_get g m1 /\
                 ((exists v, dict_get g m1 = Some v /\ truthy v = false) ->
                  dict_get (g ++ "_data") ma = dict_get (g ++ "_data") m1)).
  assert (Hkept : exists m2, x2 = JObj m2 /\ kept m2 "user" /\
                             kept m2 "assignee" /\ kept m2 "comments").
  { apply final_inv in Hen as (acc & r0 & Hen & Hr).
    destruct r0 as [f0| |]; try discriminate. injection Hr as ->.
    eapply (for_each_rule _
              (fun _ a _ => exists ma, a = JObj ma /\ kept ma "user" /\
                                       kept ma "assignee" /\
                                       kept ma "comments")
              (fun a r _ => (exists f, r = Ok f) ->
                            exists ma, a = JObj ma /\ kept ma "user" /\
                                       kept ma "assignee" /\
                                       kept ma "comments")) in Hen; eauto.
    - intros x xs a s3 a' r1 s4 (ma & -> & Ku & Ka & Kc) Hx.
      destruct r1 as [f|?|]; [|intros [? ?]; discriminate..].
      apply issue_field_one in Hx as [-> [->|(v & d & Hin & Hv & Ht & ->)]];
        [eauto 6|].
      exists (dict_set (x ++ "_data") d ma). split; auto.
      assert (K : forall g, In g ["user"; "assignee"; "comments"] ->
                            kept ma g ->
                            kept (dict_set (x ++ "_data") d ma) g).
      { intros g Hg [Kg Kd]. split.
        - rewrite dict_get_set_other; auto.
          simpl in Hin, Hg.
          destruct Hin as [<-|[<-|[<-|[<-|[]]]]];
            destruct Hg as [<-|[<-|[<-|[]]]]; discriminate.
        - intros Hfalsy. destruct (String.eqb x g) eqn:E.
          + apply String.eqb_eq in E. subst g.
            destruct Hfalsy as (v' & Hv' & Ht').
            rewrite Kg in Hv. congruence.
          + apply String.eqb_neq in E.
            rewrite dict_get_set_other; auto.
            simpl in Hin, Hg.
            destruct Hin as [<-|[<-|[<-|[<-|[]]]]];
              destruct Hg as [<-|[<-|[<-|[]]]];
              (discriminate || (exfalso; apply E; reflexivity)). }
      repeat split; apply K; simpl; auto.
    - exists m1. unfold kept. repeat split; auto. }
  destruct Hkept as (m2 & -> & [Ku Kud] & [Ka Kad] & [Kc Kcd]).
  exists m2. split; auto. unfold m1 in *. simpl in Kud, Kad, Kcd.
  split; [|split]; intros v Hv Ht.
  - rewrite Kud by (exists v; split; [congruence|auto]). simpl.
    rewrite !dict_get_set_other by discriminate. apply dict_get_set_same.
  - rewrite Kad by (exists v; split; [congruence|auto]). simpl.
    rewrite !dict_get_set_other by discriminate. apply dict_get_set_same.
  - rewrite Kcd by (exists v; split; [congruence|auto]). simpl.
    apply dict_get_set_same.
Qed.

(** ** Pagination and the [total_page] header *)

(** X18.  A list whose first response carries a [total_page] header that
    does not start with a digit cannot be read: the first step of the
    generator raises [ValueError] instead of yielding the first page,
    whatever the page holds, having issued the one request. *)
Theorem total_page_that_is_no_number (o : origin) (path : string)
  (payload : dict) (s : state) (first : response) (w : World) (c : ascii)
  (rest : string) (fuel : nat) :
  HttpClient_fetch L (world s) (items_url L path)
                   (GiteeClient.add_access_token L (Some payload))
  = (Reply first, w) ->
  header_total_page first = Some (String c rest) ->
  int_of_char c = None ->
  exists s',
    GiteeClient.fetch_items_next L (PagerNew o path payload) s
    = (Raise ValueError, s') /\
    pages L (S fuel) (PagerNew o path payload) s = (Raise ValueError, s') /\
    net s' = net s ++ [mkExchange o (items_url L path)
                         (GiteeClient.add_access_token L (Some payload))
                         (Reply first)].
Proof.
  intros Hw Hh Hc.
  assert (Hstep : exists s',
             GiteeClient.fetch_items_next L (PagerNew o path payload) s
             = (Raise ValueError, s') /\
             net s' = net s ++ [mkExchange o (items_url L path)
                                  (GiteeClient.add_access_token L
                                     (Some payload))
                                  (Reply first)]).
  { eexists. simpl. unfold bind at 1. simpl. unfold bind at 1.
    fold (items_url L path).
    match goal with
    | |- context [GiteeClient.fetch L o ?u ?p ?st] =>
        rewrite (client_fetch_eq o u p st (Reply first) w Hw)
    end.
    rewrite Hh, Hc. simpl. split; reflexivity. }
  destruct Hstep as (s' & Hstep & Hnet). exists s'.
  split; [exact Hstep|]. split; [|exact Hnet].
  unfold pages, final. now rewrite for_pages_S, Hstep.
Qed.

(** X19.  A list whose first response carries no [total_page] header, or
    an empty one, cannot be read past its first page: when that page is
    not empty and has a next link, the first step of the generator
    yields it, and the second step requests the next page and, once the
    server has answered, raises [TypeError], whatever the answer
    holds. *)
Theorem no_total_page_no_second_page (o : origin) (path : string)
  (payload : dict) (s : state) (first second : response) (w1 w2 : World)
  (next : string) (fuel : nat) :
  HttpClient_fetch L (world s) (items_url L path)
                   (GiteeClient.add_access_token L (Some payload))
  = (Reply first, w1) ->
  header_total_page first = None \/ header_total_page first = Some "" ->
  text first <> "" ->
  links_next first = Some next ->
  HttpClient_fetch L w1 next (GiteeClient.add_access_token L (Some payload))
  = (Reply second, w2) ->
  exists g1 s1 s',
    GiteeClient.fetch_items_next L (PagerNew o path payload) s
    = (Ok (Some (text first, g1)), s1) /\
    GiteeClient.fetch_items_next L g1 s1 = (Raise TypeError, s') /\
    pages L (S (S fuel)) (PagerNew o path payload) s
    = (Raise TypeError, s') /\
    net s' = net s ++ [mkExchange o (items_url L path)
                         (GiteeClient.add_access_token L (Some payload))
                         (Reply first);
                       mkExchange o next
                         (GiteeClient.add_access_token L (Some payload))
                         (Reply second)].
Proof.
  intros Hw1 Hh Ht Hn Hw2. apply String.eqb_neq in Ht.
  set (s1 := mkState w1 (users s) (users_orgs s)
               (net s ++ [mkExchange o (items_url L path)
                            (GiteeClient.add_access_token L (Some payload))
                            (Reply first)])
               (logs s ++ [mkLog DEBUG
                             ("Get Gitee paginated items from "
                              ++ items_url L path) []])).
  assert (Hstep1 : GiteeClient.fetch_items_next L (PagerNew o path payload) s
                   = (Ok (Some (text first,
                                PagerYielded o payload first 1 None)), s1)).
  { simpl. unfold bind at 1. simpl. unfold bind at 1.
    fold (items_url L path).
    match goal with
    | |- context [GiteeClient.fetch L o ?u ?p ?st] =>
        rewrite (client_fetch_eq o u p st (Reply first) w1 Hw1)
    end.
    unfold GiteeClient.while_items.
    destruct Hh as [-> | ->]; simpl; now rewrite Ht. }
  set (s2 := mkState w2 (users s1) (users_orgs s1)
               (net s1 ++ [mkExchange o next
                             (GiteeClient.add_access_token L (Some payload))
                             (Reply second)])
               (logs s1)).
  assert (Hstep2 : GiteeClient.fetch_items_next L
                     (PagerYielded o payload first 1 None) s1
                   = (Raise TypeError, s2)).
  { simpl. rewrite Hn. unfold bind at 1.
    rewrite (client_fetch_eq o next _ s1 (Reply second) w2 Hw2).
    reflexivity. }
  exists (PagerYielded o payload first 1 None), s1, s2.
  split; [exact Hstep1|]. split; [exact Hstep2|]. split.
  - unfold pages, final. rewrite for_pages_S, Hstep1. unfold append at 1.
    now rewrite for_pages_S, Hstep2.
  - unfold s2, s1. simpl. now rewrite <- app_assoc.
Qed.

(** ** The links a generator follows *)

Lemma linked_snoc (ex : list exchange) (e1 e2 : exchange) :
  linked (ex ++ [e1]) -> follows e1 e2 -> linked ((ex ++ [e1]) ++ [e2]).
Proof.
  intros H Hf. induction ex as [|a ex IH]; simpl in *.
  - constructor; [exact Hf|constructor].
  - destruct ex as [|b ex]; simpl in *.
    + inversion H; subst. constructor; [assumption|].
      constructor; [exact Hf|constructor].
    + inversion H; subst. constructor; [assumption|]. now apply IH.
Qed.

(** One step of a generator: where its request goes and what the
    generator it leaves is suspended with. *)
Lemma fetch_items_next_link (g : pager) (s : state)
  (r : result (option (string * pager))) (s1 : state) :
  GiteeClient.fetch_items_next L g s = (r, s1) ->
  match pager_next_url L g with
  | None => net s1 = net s /\ r = Ok None
  | Some url =>
      exists e, net s1 = net s ++ [e] /\ ex_url e = url /\
        forall items g', r = Ok (Some (items, g')) ->
          exists rsp, ex_reply e = Reply rsp /\
                      pager_response g' = Some rsp
  end.
Proof.
  assert (W : forall o pl rsp pg tp (s0 s2 : state) items g',
             GiteeClient.while_items o pl rsp pg tp s0
             = (Ok (Some (items, g')), s2) ->
             pager_response g' = Some rsp).
  { intros o pl rsp pg tp s0 s2 items g' H.
    unfold GiteeClient.while_items in H.
    destruct (String.eqb (text rsp) ""); [discriminate|].
    injection H as _ <- _. reflexivity. }
  destruct g as [o path pl|o pl rsp pg tp]; simpl; intros H.
  - apply bind_inv in H as [(a & s2 & Hl & H)|[(e & Hl & ?)|(Hl & ?)]];
      apply logger_inv in Hl as (Ha & Hn & _); try discriminate.
    apply bind_inv in H as [(x & s3 & Hf & H)|[(e & Hf & ->)|(Hf & ->)]];
      apply client_fetch_inv in Hf as (rep & w & _ & -> & Hr).
    2, 3: eexists; simpl; rewrite Hn; split; [reflexivity|];
      split; [reflexivity|discriminate].
    destruct rep as [x'|e]; [injection Hr as ->|discriminate].
    exists (mkExchange o (items_url L path)
              (GiteeClient.add_access_token L (Some pl)) (Reply x')).
    apply bind_inv in H as [(tp & s4 & Ht & H)|[(e & Ht & ->)|(Ht & ->)]];
      apply total_page_spec in Ht as [Ht Hne]; simpl in Ht.
    + pose proof H as H'. apply while_items_inv in H' as [-> _].
      rewrite Ht, Hn. repeat split. intros items g' ->.
      eexists. split; [reflexivity|]. eapply W; eauto.
    + rewrite Ht, Hn. repeat split. discriminate.
    + now destruct Hne.
  - destruct (links_next rsp) as [url|].
    2: { injection H as <- <-. auto. }
    apply bind_inv in H as [(x & s3 & Hf & H)|[(e & Hf & ->)|(Hf & ->)]];
      apply client_fetch_inv in Hf as (rep & w & _ & -> & Hr).
    2, 3: eexists; simpl; split; [reflexivity|];
      split; [reflexivity|discriminate].
    destruct rep as [x'|e]; [injection Hr as ->|discriminate].
    exists (mkExchange o url (GiteeClient.add_access_token L (Some pl))
              (Reply x')).
    apply bind_inv in H as [(u & s4 & Ht & H)|[(e & Ht & ->)|(Ht & ->)]].
    + destruct tp as [n|]; [|discriminate].
      apply logger_inv in Ht as (_ & Hn4 & _).
      pose proof H as H'. apply while_items_inv in H' as [-> _].
      rewrite Hn4. repeat split. intros items g' ->.
      eexists. split; [reflexivity|]. eapply W; eauto.
    + destruct tp as [n|].
      * apply logger_inv in Ht as (? & _). discriminate.
      * injection Ht as <- <-. repeat split. discriminate.
    + destruct tp as [n|]; [|discriminate].
      apply logger_inv in Ht as (? & _). discriminate.
Qed.

(** X25.  A list is read by following the links of the server: the
    first request of [fetch_items] goes to the URL of the list under the
    repository, and every request after it goes to the next link of the
    answer to the request before it; the generator builds no URL of a
    later page by itself. *)
Theorem pages_follow_the_links (o : origin) (path : string)
  (payload : dict) (fuel : nat) (s : state) (r : result (list string))
  (s' : state) :
  pages L fuel (PagerNew o path payload) s = (r, s') ->
  exists ex,
    net s' = net s ++ ex /\ linked ex /\
    (forall e ex', ex = e :: ex' -> ex_url e = items_url L path).
Proof.
  intros H. apply final_inv in H as (acc & r0 & H & _).
  set (good := fun ex : list exchange =>
                 linked ex /\
                 forall e ex', ex = e :: ex' -> ex_url e = items_url L path).
  eapply (for_pages_rule _
            (fun g1 _ s1 =>
               exists ex, net s1 = net s ++ ex /\ good ex /\
                 match pager_response g1 with
                 | None => ex = [] /\
                           pager_next_url L g1 = Some (items_url L path)
                 | Some rsp => exists ex0 e, ex = ex0 ++ [e] /\
                                             ex_reply e = Reply rsp
                 end)
            (fun _ _ s1 => exists ex, net s1 = net s ++ ex /\ good ex))
    in H; [exact H| | |].
  - intros g1 a1 s1 (ex & E & G & _). eauto.
  - intros g1 a1 s1 r1 s2 (ex & E & [Glink Ghead] & Hresp) Hn.
    apply fetch_items_next_link in Hn.
    destruct (pager_next_url L g1) as [url|] eqn:Hurl.
    2: { destruct Hn as [En ->]. exists ex. rewrite En. split; auto.
         split; auto. }
    destruct Hn as (e & En & Heu & Hnext).
    assert (G' : good (ex ++ [e])).
    { destruct (pager_response g1) as [rsp|] eqn:Hr.
      - destruct Hresp as (ex0 & e0 & -> & He0). split.
        + apply linked_snoc; auto. exists rsp. split; auto.
          destruct g1; simpl in *; [discriminate|].
          injection Hr as ->. congruence.
        + intros x ex' Hx. apply (Ghead x (removelast ex')).
          destruct ex0; simpl in *.
          * injection Hx as -> <-. reflexivity.
          * injection Hx as -> <-. f_equal.
            rewrite removelast_last. reflexivity.
      - destruct Hresp as [-> Hu]. split; [constructor|].
        intros x ex' Hx. injection Hx as <- _. congruence. }
    assert (E' : net s2 = net s ++ ex ++ [e])
      by (now rewrite En, E, app_assoc).
    destruct r1 as [[[items g2]|]|x|]; eauto.
    intros a3 r3 s3 Hb. injection Hb as <- <- <-.
    exists (ex ++ [e]). repeat split; try apply G'; auto.
    destruct (Hnext _ _ eq_refl) as (rsp & He & ->). eauto.
  - exists []. rewrite app_nil_r. repeat split; [constructor|discriminate].
Qed.

(** ** The endpoints of a category *)

Section Endpoints.

Variable e : bool.
Variable allowed : origin -> bool.
Hypothesis allowed_users :
  e = false -> allowed OUser = true /\ allowed OUserOrgs = true.

Lemma endpoints_get_user (login : json) :
  M_frame allowed (Gitee.__get_user L e login).
Proof. now apply M_frame_get_user_when. Qed.
#[local] Hint Resolve endpoints_get_user : frame.

Lemma endpoints_get_users (items : json) :
  M_frame allowed (Gitee.__get_users L e items).
Proof. unfold Gitee.__get_users. frame_auto. Qed.

Lemma endpoints_get_issue_assignee (raw : json) :
  M_frame allowed (Gitee.__get_issue_assignee L e raw).
Proof. unfold Gitee.__get_issue_assignee. frame_auto. Qed.

Lemma endpoints_get_issue_collaborators (raw : json) :
  M_frame allowed (Gitee.__get_issue_collaborators L e raw).
Proof. unfold Gitee.__get_issue_collaborators. frame_auto. Qed.

Lemma endpoints_get_issue_comments (fuel : nat) (n : json) :
  allowed OIssueComments = true ->
  M_frame allowed (Gitee.__get_issue_comments L e fuel n).
Proof.
  intros Ho. unfold Gitee.__get_issue_comments. frame_auto.
  apply step_frame_for_pages; [exact Ho|intro]. frame_auto.
Qed.

Lemma endpoints_get_pull_merged_by (fuel : nat) (n : json) :
  allowed OPullActionLogs = true ->
  M_frame allowed (Gitee.__get_pull_merged_by L fuel n).
Proof.
  intros Ho. unfold Gitee.__get_pull_merged_by. frame_auto.
  apply step_frame_for_pages; [exact Ho|intro]. frame_auto.
Qed.

Lemma endpoints_tolerate_404 (st : step (list json)) (msg : string)
  (n : json) :
  step_frame allowed st -> M_frame allowed (Gitee.tolerate_404 st msg n).
Proof.
  intros Hst s r s' H. unfold Gitee.tolerate_404 in H.
  destruct (st [] s) as [[acc r1] s1] eqn:E.
  assert (F : frame allowed s s1) by (eapply Hst; eauto).
  destruct r1 as [f|[c| | | | | | | |]|]; try (injection H as <- <-; exact F).
  destruct (c =? 404); [|injection H as <- <-; exact F].
  eapply frame_trans; [exact F|]. revert H. apply M_frame_at. frame_auto.
Qed.

Lemma endpoints_get_pull_commits (fuel : nat) (n : json) :
  allowed OPullCommits = true ->
  M_frame allowed (Gitee.__get_pull_commits L fuel n).
Proof.
  intros Ho. unfold Gitee.__get_pull_commits. apply endpoints_tolerate_404.
  apply step_frame_for_pages; [exact Ho|intro]. frame_auto.
Qed.

Lemma endpoints_get_pull_review_comments (fuel : nat) (n : json) :
  allowed OPullReviewComments = true ->
  M_frame allowed (Gitee.__get_pull_review_comments L e fuel n).
Proof.
  intros Ho. unfold Gitee.__get_pull_review_comments.
  apply endpoints_tolerate_404.
  apply step_frame_for_pages; [exact Ho|intro]. frame_auto.
Qed.

#[local] Hint Resolve endpoints_get_users endpoints_get_issue_assignee
  endpoints_get_issue_collaborators endpoints_get_issue_comments
  endpoints_get_pull_merged_by endpoints_get_pull_commits
  endpoints_get_pull_review_comments : frame.

Lemma endpoints_fetch_issues (fuel : nat) (from_date to_date : Z) :
  allowed OIssues = true -> allowed OIssueComments = true ->
  step_frame allowed (Gitee.__fetch_issues L e fuel from_date to_date).
Proof.
  intros Hi Hc. unfold Gitee.__fetch_issues.
  apply step_frame_for_pages; [exact Hi|intro].
  unfold Gitee.__init_extra_issue_fields. frame_auto.
  unfold Gitee.issue_field. intros issue. apply step_frame_at.
  frame_auto.
Qed.

Lemma endpoints_fetch_pull_requests (fuel : nat) (from_date to_date : Z) :
  allowed OPulls = true -> allowed OPullReviewComments = true ->
  allowed OPullCommits = true -> allowed OPullActionLogs = true ->
  step_frame allowed (Gitee.__fetch_pull_requests L e fuel from_date to_date).
Proof.
  intros Hp Hr Hc Ha. unfold Gitee.__fetch_pull_requests.
  apply step_frame_for_pages; [exact Hp|intro].
  unfold Gitee.__init_extra_pull_fields. frame_auto.
  unfold Gitee.pull_field. intros pull. apply step_frame_at.
  frame_auto.
Qed.

End Endpoints.

(** X20.  A harvest of issues calls no endpoint but the issues list, the
    comments of an issue and, unless user data is excluded, the user and
    its organizations; a harvest of pull requests none but the
    pull-request list, the review comments, the commits and the action
    log of a pull request and the two user endpoints; a harvest of any
    other category none but the repository and its releases.  The cache
    of a user endpoint that is not called is left as it was. *)
Theorem category_endpoints_only (exclude_user_data : bool) (fuel : nat)
  (category : string) (from_date to_date : Z) (acc : list json)
  (s : state) (out : list json) (r : result flow) (s' : state) :
  Gitee.fetch_items L exclude_user_data fuel category from_date to_date
                    acc s = ((out, r), s') ->
  (exists ex, net s' = net s ++ ex /\
     Forall (fun x => category_endpoints category exclude_user_data
                        (ex_origin x) = true) ex) /\
  (category_endpoints category exclude_user_data OUser = false ->
   users s' = users s /\ users_orgs s' = users_orgs s).
Proof.
  intros H.
  assert (F : frame (category_endpoints category exclude_user_data) s s').
  { revert H. apply step_frame_at.
    unfold Gitee.fetch_items, category_endpoints.
    destruct (String.eqb category CATEGORY_ISSUE).
    { apply endpoints_fetch_issues; auto; intros ->; auto. }
    destruct (String.eqb category CATEGORY_PULL_REQUEST).
    { apply endpoints_fetch_pull_requests; auto; intros ->; auto. }
    now apply step_frame_fetch_repo_info. }
  destruct F as (Hex & Hu & Ho). split; [exact Hex|].
  intros Hc. split; [exact (Hu Hc)|exact (Ho Hc)].
Qed.
End Properties.

(* ================================================================== *)
(** * The properties on the scripted server *)

(** C1 on the issues of the scripted server: of the four issues of the two
    pages, the driver yields the three updated up to day 4 and stops at
    the fourth. *)
Lemma fetch_issues_stops_at_to_date_witness :
  List.length (fst (fst Fixture.issues_run)) = 3%nat /\
  exists ex seen rest,
    net (snd Fixture.issues_run) = net Fixture.start ++ ex /\
    received Fixture.lib OIssues ex = seen ++ rest /\
    Forall2 (same_but ISSUE_DATA_FIELDS) seen (fst (fst Fixture.issues_run)) /\
    Forall (fun it => exists t, updated_on Fixture.lib it = Ok t /\ t <= 4)
           (fst (fst Fixture.issues_run)) /\
    ((exists f, snd (fst Fixture.issues_run) = Ok f) ->
     rest = [] \/
     exists x rest' t, rest = x :: rest' /\
                       updated_on Fixture.lib x = Ok t /\ 4 < t) /\
    (ascending Fixture.lib (seen ++ rest) ->
     (exists f, snd (fst Fixture.issues_run) = Ok f) ->
     Forall (fun x => exists t, updated_on Fixture.lib x = Ok t /\ 4 < t)
            rest).
Proof.
  split; [reflexivity|].
  apply (fetch_issues_stops_at_to_date Fixture.lib false 10 0 4
           Fixture.start).
  vm_compute. reflexivity.
Defined.

(** C2 on the pull requests of the scripted server: the driver yields the
    pull request of day 3 and stops at the one of day 6. *)
Lemma fetch_pull_requests_stops_at_either_bound_witness :
  List.length (fst (fst Fixture.pulls_run)) = 1%nat /\
  exists ex seen rest,
    net (snd Fixture.pulls_run) = net Fixture.start ++ ex /\
    received Fixture.lib OPulls ex = seen ++ rest /\
    Forall2 (same_but PULL_DATA_FIELDS) seen (fst (fst Fixture.pulls_run)) /\
    Forall (fun it => exists t, updated_on Fixture.lib it = Ok t /\
                                0 <= t /\ t <= 4)
           (fst (fst Fixture.pulls_run)) /\
    ((exists f, snd (fst Fixture.pulls_run) = Ok f) ->
     rest = [] \/
     exists x rest' t, rest = x :: rest' /\
                       updated_on Fixture.lib x = Ok t /\
                       (t < 0 \/ 4 < t)).
Proof.
  split; [reflexivity|].
  apply (fetch_pull_requests_stops_at_either_bound Fixture.lib false 10 0 4
           Fixture.start).
  vm_compute. reflexivity.
Defined.

(** C3 on the three-page list, whose first page announces seven pages and
    whose second page carries a header that is no number. *)
Lemma fetch_items_yields_every_page_witness :
  exists s',
    pages Fixture.lib 4 (PagerNew OIssues "three" []) Fixture.start
    = (Ok ["three-1"; "three-2"; "three-3"], s') /\
    List.length (net s') = 3%nat.
Proof.
  apply (fetch_items_yields_every_page Fixture.lib OIssues "three" []
           Fixture.three_pages Fixture.start 4).
  - simpl. eexists. split; [reflexivity|].
    eexists. split; [reflexivity|].
    eexists. split; [reflexivity|].
    eexists. split; [reflexivity|].
    eexists. split; reflexivity.
  - repeat constructor; discriminate.
  - simpl. discriminate.
  - simpl. lia.
Defined.

(** C3 as it is stated fails on a list whose only page, without a next
    link, has an empty body: one response is served and no page is
    yielded. *)
Lemma fetch_items_stops_at_an_empty_page :
  serves Fixture.lib (world Fixture.start) (items_url Fixture.lib "empty")
         (GiteeClient.add_access_token Fixture.lib (Some []))
         [mkResponse "" None None] /\
  fst (pages Fixture.lib 10 (PagerNew OIssues "empty" []) Fixture.start)
  = Ok [].
Proof.
  split.
  - simpl. eexists. split; reflexivity.
  - reflexivity.
Qed.

(** On a list of two pages whose first response has no [total_page]
    header, the generator yields the first page and then raises
    [TypeError] where it formats the page count for the log. *)
Example fetch_items_without_total_page :
  serves Fixture.lib (world Fixture.start) (items_url Fixture.lib "plain")
         (GiteeClient.add_access_token Fixture.lib (Some []))
         [mkResponse "three-1" None (Some "cursor:three-3");
          mkResponse "three-3" None None] /\
  for_pages Fixture.lib 10 (fun items => append items)
            (PagerNew OIssues "plain" []) [] Fixture.start
  = ((["three-1"], Raise TypeError),
     snd (pages Fixture.lib 10 (PagerNew OIssues "plain" []) Fixture.start)).
Proof.
  split.
  - simpl. eexists. split; [reflexivity|].
    eexists. split; [reflexivity|].
    eexists. split; reflexivity.
  - reflexivity.
Qed.

(** C4 on pull request 42, whose action log has two pages: no merge entry
    on the first, and on the second a merge entry of [alice] followed by
    one of [bob].  The scan returns [alice], and the enrichment by number
    stores [alice] as [merged_by] and her record as [merged_by_data]. *)
Lemma merged_by_last_page_wins_witness :
  Fixture.merged_by_run
  = (Ok (JStr "alice"), snd Fixture.merged_by_run) /\
  exists m,
    fst (Gitee.pull_field Fixture.lib false 10 "number" (Fixture.pull 42 "2021-01-03")
                    Fixture.start)
    = (JObj m, Ok Next) /\
    dict_get "merged_by" m = Some (JStr "alice") /\
    dict_get "merged_by_data" m = Some Fixture.alice.
Proof.
  destruct (merged_by_last_page_wins Fixture.lib 10 (JNum 42)
              (snd Fixture.commits_run) (snd Fixture.merged_by_run)
              ["logs-1"; "logs-2"] Fixture.action_logs) as [Hscan Hattach].
  - vm_compute. reflexivity.
  - repeat constructor; eexists; split; reflexivity.
  - unfold Fixture.action_logs, well_formed_log.
    repeat (apply Forall_cons || apply Forall_nil);
      (split; [eexists; reflexivity
              |intros _; eexists _, _; split; reflexivity]).
  - split; [exact Hscan|].
    destruct (Hattach (Fixture.pull_fields 42 "2021-01-03")
                (fst_ok_json Fixture.review_comments_run)
                (fst_ok_json Fixture.commits_run)
                Fixture.start (snd Fixture.review_comments_run)
                Fixture.alice
                (snd (Gitee.__get_user Fixture.lib false (JStr "alice")
                               (snd Fixture.merged_by_run))))
      as [Hfield _]; try (vm_compute; reflexivity).
    eexists. unfold Fixture.pull. rewrite Hfield.
    split; [reflexivity|]. split; reflexivity.
Defined.

(** C5 on the login [alice]: the first resolution issues the two
    requests, the second none. *)
Lemma get_user_twice_witness :
  let first := Gitee.__get_user Fixture.lib false (JStr "alice") Fixture.start in
  fst first = Ok Fixture.alice /\
  (exists e_user e_orgs,
      net (snd first) = net Fixture.start ++ [e_user; e_orgs] /\
      ex_origin e_user = OUser /\ ex_origin e_orgs = OUserOrgs) /\
  Gitee.__get_user Fixture.lib false (JStr "alice") (snd first)
  = (Ok Fixture.alice, snd first).
Proof.
  intros first. split; [reflexivity|].
  apply (get_user_twice Fixture.lib (JStr "alice") Fixture.start);
    reflexivity.
Defined.

(** C6 on the pull requests of the scripted server, harvested with user
    data excluded; the last run starts with a cache that holds a wrong
    answer for [alice]. *)
Lemma user_data_excluded_witness :
  Gitee.__get_user Fixture.lib true (JStr "alice") Fixture.start
  = (Ok JNull, Fixture.start) /\
  Gitee.__get_user Fixture.lib false (JStr "") Fixture.start
  = (Ok JNull, Fixture.start) /\
  ((exists ex,
       net (snd Fixture.filtered_run) = net Fixture.start ++ ex /\
       Forall (fun e => ex_origin e <> OUser /\ ex_origin e <> OUserOrgs)
              ex) /\
   users (snd Fixture.filtered_run) = users Fixture.start /\
   users_orgs (snd Fixture.filtered_run) = users_orgs Fixture.start) /\
  fst (Gitee.fetch_items Fixture.lib true 10 CATEGORY_PULL_REQUEST 0 4 []
         (mkState 0%nat [(JStr "alice", "user-bob")] [] [] []))
  = fst Fixture.filtered_run.
Proof.
  destruct (user_data_excluded Fixture.lib true (JStr "alice") 10
              CATEGORY_PULL_REQUEST 0 4 Fixture.start
              (snd Fixture.filtered_run) (fst (fst Fixture.filtered_run))
              (snd (fst Fixture.filtered_run))) as (H1 & H2 & H3).
  destruct (user_data_excluded Fixture.lib false (JStr "") 10
              CATEGORY_PULL_REQUEST 0 4 Fixture.start
              (snd Fixture.filtered_run) (fst (fst Fixture.filtered_run))
              (snd (fst Fixture.filtered_run))) as (H4 & _).
  split; [apply H1; now right|].
  split; [apply H4; now left|].
  split; [apply H2; vm_compute; reflexivity|].
  apply H3. repeat split.
Defined.



(** C8 on issue 3 of the scripted server, whose only comment has no
    user. *)
Lemma issue_comment_without_user_raises_witness :
  fst (Gitee.__get_issue_comments Fixture.lib false 10 (JNum 3) Fixture.start)
  = Raise (KeyError "user").
Proof.
  rewrite (issue_comment_without_user_raises Fixture.lib false 9 (JNum 3)
             Fixture.start "comments-3"
             (PagerYielded OIssueComments [("per_page", JNum PER_PAGE)]
                           (mkResponse "comments-3" None None) 1 None)
             (snd (GiteeClient.fetch_items_next Fixture.lib
                     (GiteeClient.issue_comments Fixture.lib (JNum 3)) Fixture.start))
             [("id", JNum 31); ("body", JStr "ping")] []).
  - reflexivity.
  - reflexivity.
  - eexists. split; reflexivity.
  - reflexivity.
Defined.

(** The guard of the sibling on the review comments of pull request 42:
    the comment without a user gets [user_data] set to [None], and a
    warning is recorded. *)
Example review_comment_without_user_on_42 :
  exists first second,
    fst Fixture.review_comments_run = Ok (JArr [JObj first; second]) /\
    dict_get "user" first = None /\
    dict_get "user_data" first = Some JNull /\
    In (mkLog WARNING "Missing user info for %s" [JStr "comments/1"])
       (logs (snd Fixture.review_comments_run)).
Proof.
  eexists _, _. split; [vm_compute; reflexivity|].
  split; [reflexivity|]. split; [reflexivity|].
  vm_compute. auto.
Qed.

(** The dispatch on the categories [issue], [pull_request] and
    [repository]. *)
Example fetch_items_dispatch_on_the_categories :
  Gitee.fetch_items Fixture.lib false 10 "issue" 0 4
  = Gitee.__fetch_issues Fixture.lib false 10 0 4 /\
  Gitee.fetch_items Fixture.lib false 10 "pull_request" 0 4
  = Gitee.__fetch_pull_requests Fixture.lib false 10 0 4 /\
  Gitee.fetch_items Fixture.lib false 10 "repository" 0 4
  = Gitee.__fetch_repo_info Fixture.lib.
Proof.
  destruct (fetch_items_dispatch Fixture.lib false 10 "issue" 0 4)
    as (H1 & _ & _).
  destruct (fetch_items_dispatch Fixture.lib false 10 "pull_request" 0 4)
    as (_ & H2 & _).
  destruct (fetch_items_dispatch Fixture.lib false 10 "repository" 0 4)
    as (_ & _ & H3).
  split; [exact (H1 eq_refl)|]. split; [exact (H2 eq_refl)|].
  apply H3; discriminate.
Defined.

(** C10 on the scripted server, with the category [commit] and user
    data excluded: the fetch raises [BackendError], nothing is yielded,
    no request has been issued and the server has seen none; the one
    record in the log is the notice about user data. *)
Lemma invalid_category_is_a_configuration_error_witness :
  fst Partial.commit_run = ([], Raise BackendError) /\
  net (snd Partial.commit_run) = [] /\
  world (snd Partial.commit_run) = 0%nat /\
  Gitee.Backend_fetch (Gitee.fetch_items Fixture.lib true 10) "commit"
                      true 0 4 [] Fixture.start
  = (([], Raise BackendError), Fixture.start).
Proof.
  destruct (invalid_category_is_a_configuration_error Fixture.lib 10
              "commit" None None true [] Fixture.start)
    as ((s' & E & Hnet & Hworld & _) & Hdispatch);
    [discriminate|discriminate|discriminate|].
  unfold Partial.commit_run. rewrite E. simpl.
  split; [reflexivity|]. split; [exact Hnet|]. split; [exact Hworld|].
  apply Hdispatch.
Defined.

(** Behind that check the dispatch has no test of its own for the
    repository category: called with [commit], it would run the
    repository driver. *)
Example fetch_items_without_the_check :
  Gitee.fetch_items Fixture.lib false 10 "commit" 0 4
  = Gitee.__fetch_repo_info Fixture.lib.
Proof.
  reflexivity.
Qed.

(* ================================================================== *)
(** * The properties of the client and of the enrichment on the scripted
      servers *)

(** Every request of the harvest of the pull requests of the first
    server carries the token of the client. *)
Lemma every_request_carries_the_token_witness :
  exists ex,
    net (snd Fixture.pulls_run) = net Fixture.start ++ ex /\
    Forall (carries_token "token") ex.
Proof.
  apply (every_request_carries_the_token Fixture.lib "token" false 10
           CATEGORY_PULL_REQUEST 0 4 [] Fixture.start
           (fst (fst Fixture.pulls_run)) (snd (fst Fixture.pulls_run))).
  - reflexivity.
  - discriminate.
  - vm_compute. reflexivity.
Defined.

(** What was cached for [zoe] is still cached after the harvest. *)
Lemma caches_only_grow_witness :
  (forall login raw,
      cache_get login (users EdgeCases.warm) = Some raw ->
      cache_get login (users (snd EdgeCases.warm_run)) = Some raw) /\
  (forall login raw,
      cache_get login (users_orgs EdgeCases.warm) = Some raw ->
      cache_get login (users_orgs (snd EdgeCases.warm_run)) = Some raw).
Proof.
  apply (caches_only_grow Fixture.lib false 10 CATEGORY_ISSUE 0 4 []
           EdgeCases.warm (fst (fst EdgeCases.warm_run))
           (snd (fst EdgeCases.warm_run))).
  vm_compute. reflexivity.
Defined.

(** [alice], resolved before the harvest, is resolved after it without a
    request. *)
Lemma resolved_user_is_not_requested_again_witness :
  Gitee.__get_user Fixture.lib false (JStr "alice")
                   (snd EdgeCases.run_after_alice)
  = (Ok Fixture.alice, snd EdgeCases.run_after_alice).
Proof.
  apply (resolved_user_is_not_requested_again Fixture.lib (JStr "alice")
           Fixture.start Fixture.alice EdgeCases.alice_resolved false 10
           CATEGORY_ISSUE 0 4 [] (fst (fst EdgeCases.run_after_alice))
           (snd (fst EdgeCases.run_after_alice))).
  - vm_compute. reflexivity.
  - vm_compute. reflexivity.
Defined.

(** The organizations of [bob] are not found; after the harvest they are
    the empty list still, without a request. *)
Lemma user_orgs_not_found_is_remembered_witness :
  fst EdgeCases.bob_orgs = Ok "[]" /\
  GiteeClient.user_orgs Fixture.lib (JStr "bob")
                        (snd EdgeCases.run_after_bob)
  = (Ok "[]", snd EdgeCases.run_after_bob).
Proof.
  apply (user_orgs_not_found_is_remembered Fixture.lib (JStr "bob")
           Fixture.start (fst EdgeCases.bob_orgs) (snd EdgeCases.bob_orgs)
           false 10 CATEGORY_ISSUE 0 4 []
           (fst (fst EdgeCases.run_after_bob))
           (snd (fst EdgeCases.run_after_bob))).
  - vm_compute. reflexivity.
  - exists (mkExchange OUserOrgs "https://gitee.com/api/v5/users/bob/orgs"
              (Some [("access_token", JStr "token")])
              (Failure (HTTPError 404))), [].
    split; [reflexivity|split; reflexivity].
  - vm_compute. reflexivity.
Defined.

(** The user [carol] is not found and her organizations fail with status
    500: nothing is cached. *)
Lemma failed_lookup_is_not_cached_witness :
  users (snd (GiteeClient.user Fixture.lib (JStr "carol") Fixture.start))
  = [] /\
  users_orgs (snd (GiteeClient.user_orgs Fixture.lib (JStr "carol")
                     Fixture.start)) = [].
Proof.
  split.
  - apply (proj1 (failed_lookup_is_not_cached Fixture.lib (JStr "carol")
                    Fixture.start (HTTPError 404)
                    (snd (GiteeClient.user Fixture.lib (JStr "carol")
                            Fixture.start)))).
    vm_compute. reflexivity.
  - apply (proj2 (failed_lookup_is_not_cached Fixture.lib (JStr "carol")
                    Fixture.start (HTTPError 500)
                    (snd (GiteeClient.user_orgs Fixture.lib (JStr "carol")
                            Fixture.start)))).
    vm_compute. reflexivity.
Defined.

(** The payload of a list of a hundred a page, with the token of the
    client. *)
Lemma add_access_token_keeps_the_payload_witness :
  (exists p',
      GiteeClient.add_access_token Fixture.lib
        (Some [("per_page", JNum 100)]) = Some p' /\
      forall k, k <> "access_token" ->
                dict_get k p' = dict_get k [("per_page", JNum 100)]) /\
  GiteeClient.add_access_token Fixture.lib
    (GiteeClient.add_access_token Fixture.lib
       (Some [("per_page", JNum 100)]))
  = GiteeClient.add_access_token Fixture.lib (Some [("per_page", JNum 100)]).
Proof.
  destruct (add_access_token_keeps_the_payload Fixture.lib
              (Some [("per_page", JNum 100)])) as [H1 H2].
  split; [apply H1; reflexivity|exact H2].
Defined.

(** The requests for the issues list of the first server. *)
Lemma issue_list_requests_witness :
  exists ex,
    net (snd Fixture.issues_run) = net Fixture.start ++ ex /\
    Forall (fun e => ex_origin e = OIssues ->
                     ex_payload e
                     = GiteeClient.add_access_token Fixture.lib
                         (Some [("state", JStr "all");
                                ("per_page", JNum (max_items Fixture.lib));
                                ("direction", JStr "asc");
                                ("sort", JStr "updated");
                                ("since", JStr (isoformat Fixture.lib 0))]))
           ex.
Proof.
  apply (issue_list_requests Fixture.lib false 10 0 4 [] Fixture.start
           (fst (fst Fixture.issues_run)) (snd (fst Fixture.issues_run))).
  vm_compute. reflexivity.
Defined.

(** The requests for the pull-request list of the first server. *)
Lemma pull_list_requests_witness :
  exists ex,
    net (snd Fixture.pulls_run) = net Fixture.start ++ ex /\
    Forall (fun e => ex_origin e = OPulls ->
                     ex_payload e
                     = GiteeClient.add_access_token Fixture.lib
                         (Some [("state", JStr "all");
                                ("per_page", JNum 100);
                                ("direction", JStr "asc");
                                ("sort", JStr "updated");
                                ("since", JStr (isoformat Fixture.lib 0))]))
           ex.
Proof.
  apply (pull_list_requests Fixture.lib false 10 0 4 [] Fixture.start
           (fst (fst Fixture.pulls_run)) (snd (fst Fixture.pulls_run))).
  vm_compute. reflexivity.
Defined.

(** The three commits of the two pages of pull request 50. *)
Lemma pull_commits_are_the_hashes_witness :
  Gitee.__get_pull_commits EdgeCases.lib 10 (JNum 50) Fixture.start
  = (Ok (JArr [JStr "a1"; JStr "a2"; JStr "b1"]),
     snd (pages EdgeCases.lib 10
            (GiteeClient.pull_commits EdgeCases.lib (JNum 50))
            Fixture.start)).
Proof.
  apply (pull_commits_are_the_hashes EdgeCases.lib 10 (JNum 50)
           Fixture.start _ ["commits-50a"; "commits-50b"]
           [[JObj [("sha", JStr "a1")]; JObj [("sha", JStr "a2")]];
            [JObj [("sha", JStr "b1")]]]).
  - vm_compute. reflexivity.
  - repeat constructor; eexists; split; reflexivity.
  - repeat constructor.
Defined.

(** The two comments of issue 7, with user data excluded. *)
Lemma issue_comments_without_user_data_witness :
  Gitee.__get_issue_comments EdgeCases.lib true 10 (JNum 7) Fixture.start
  = (Ok (JArr [JObj [("id", JNum 71); ("user", Fixture.login "alice");
                     ("user_data", JNull)];
               JObj [("id", JNum 72); ("user", Fixture.login "bob");
                     ("user_data", JNull)]]),
     snd (pages EdgeCases.lib 10
            (GiteeClient.issue_comments EdgeCases.lib (JNum 7))
            Fixture.start)).
Proof.
  apply (issue_comments_without_user_data EdgeCases.lib 10 (JNum 7)
           Fixture.start _ ["comments-7"]
           [[JObj [("id", JNum 71); ("user", Fixture.login "alice")];
             JObj [("id", JNum 72); ("user", Fixture.login "bob")]]]).
  - vm_compute. reflexivity.
  - repeat constructor; eexists; split; reflexivity.
  - repeat constructor; eexists _, _; split; reflexivity.
Defined.

(** [alice] and [bob], resolved as a list. *)
Lemma users_are_resolved_in_turn_witness :
  exists users,
    JArr [Fixture.alice;
          JObj [("login", JStr "bob"); ("organizations", JArr [])]]
    = JArr users /\
    resolved_in_turn Fixture.lib false Fixture.start EdgeCases.two_users
                     users (snd EdgeCases.two_users_run).
Proof.
  apply (proj1 (users_are_resolved_in_turn Fixture.lib false
                  EdgeCases.two_users Fixture.start _ _)).
  vm_compute. reflexivity.
Defined.


(** The metadata of the repository of the first server. *)
Lemma repository_item_metadata_witness :
  exists item_,
    fst (fst EdgeCases.repo_run) = [] ++ [JObj item_] /\
    (dict_in "forks_count" item_ = true ->
     Gitee.metadata_updated_on Fixture.lib EdgeCases.timestamp item_
     = Ok (JNum (utcnow_timestamp Fixture.lib
                   (world (snd EdgeCases.repo_run)))) /\
     Gitee.metadata_id Fixture.str item_
     = Ok (Fixture.str (JNum (utcnow_timestamp Fixture.lib
                                (world (snd EdgeCases.repo_run))))) /\
     (dict_in "base" item_ = false ->
      Gitee.metadata_category item_ = CATEGORY_REPO)) /\
    (dict_in "forks_count" item_ = false ->
     Gitee.metadata_category item_ <> CATEGORY_REPO).
Proof.
  apply (repository_item_metadata Fixture.lib Fixture.str
           EdgeCases.timestamp [] Fixture.start).
  vm_compute. reflexivity.
Defined.

(** The metadata of the issues of the first server. *)
Lemma issue_metadata_is_kept_witness :
  exists ex seen rest,
    net (snd Fixture.issues_run) = net Fixture.start ++ ex /\
    received Fixture.lib OIssues ex = seen ++ rest /\
    Forall2 (fun record it =>
               exists m_record m_item,
                 record = JObj m_record /\ it = JObj m_item /\
                 Gitee.metadata_id Fixture.str m_item
                 = Gitee.metadata_id Fixture.str m_record /\
                 Gitee.metadata_updated_on Fixture.lib EdgeCases.timestamp
                                           m_item
                 = Gitee.metadata_updated_on Fixture.lib
                                             EdgeCases.timestamp m_record /\
                 Gitee.metadata_category m_item
                 = Gitee.metadata_category m_record)
            seen (fst (fst Fixture.issues_run)) /\
    Forall (fun it =>
              exists m_item, it = JObj m_item /\
                (dict_in "forks_count" m_item = false ->
                 exists t,
                   Gitee.metadata_updated_on Fixture.lib EdgeCases.timestamp
                                             m_item
                   = Ok (EdgeCases.timestamp t) /\ t <= 4))
           (fst (fst Fixture.issues_run)).
Proof.
  apply (issue_metadata_is_kept Fixture.lib Fixture.str EdgeCases.timestamp
           false 10 0 4 Fixture.start _ (snd (fst Fixture.issues_run))).
  vm_compute. reflexivity.
Defined.

(** The metadata of the pull requests of the first server. *)
Lemma pull_metadata_is_kept_witness :
  exists ex seen rest,
    net (snd Fixture.pulls_run) = net Fixture.start ++ ex /\
    received Fixture.lib OPulls ex = seen ++ rest /\
    Forall2 (fun record it =>
               exists m_record m_item,
                 record = JObj m_record /\ it = JObj m_item /\
                 Gitee.metadata_id Fixture.str m_item
                 = Gitee.metadata_id Fixture.str m_record /\
                 Gitee.metadata_updated_on Fixture.lib EdgeCases.timestamp
                                           m_item
                 = Gitee.metadata_updated_on Fixture.lib
                                             EdgeCases.timestamp m_record /\
                 Gitee.metadata_category m_item
                 = Gitee.metadata_category m_record)
            seen (fst (fst Fixture.pulls_run)) /\
    Forall (fun it =>
              exists m_item, it = JObj m_item /\
                (dict_in "forks_count" m_item = false ->
                 exists t,
                   Gitee.metadata_updated_on Fixture.lib EdgeCases.timestamp
                                             m_item
                   = Ok (EdgeCases.timestamp t) /\ 0 <= t /\ t <= 4))
           (fst (fst Fixture.pulls_run)).
Proof.
  apply (pull_metadata_is_kept Fixture.lib Fixture.str EdgeCases.timestamp
           false 10 0 4 Fixture.start _ (snd (fst Fixture.pulls_run))).
  vm_compute. reflexivity.
Defined.

(** The shape of the issues of the first server. *)
Lemma yielded_issue_shape_witness :
  Forall (fun it =>
            exists m, it = JObj m /\
              dict_get "assignees_data" m = Some (JArr []) /\
              Forall (fun field => exists v, dict_get field m = Some v)
                     TARGET_ISSUE_FIELDS)
         (fst (fst Fixture.issues_run)).
Proof.
  apply (yielded_issue_shape Fixture.lib false 10 0 4 Fixture.start _
           (snd (fst Fixture.issues_run)) (snd Fixture.issues_run)).
  vm_compute. reflexivity.
Defined.

(** The shape of the pull requests of the first server. *)
Lemma yielded_pull_request_shape_witness :
  Forall (fun it =>
            exists m, it = JObj m /\
              dict_get "reviews_data" m = Some (JArr []) /\
              Forall (fun field => exists v, dict_get field m = Some v)
                     TARGET_PULL_FIELDS)
         (fst (fst Fixture.pulls_run)).
Proof.
  apply (yielded_pull_request_shape Fixture.lib false 10 0 4 Fixture.start _
           (snd (fst Fixture.pulls_run)) (snd Fixture.pulls_run)).
  vm_compute. reflexivity.
Defined.

(** The list of the second server whose header reads [x2]. *)
Lemma total_page_that_is_no_number_witness :
  exists s',
    GiteeClient.fetch_items_next EdgeCases.lib (PagerNew OIssues "odd" [])
                                 Fixture.start
    = (Raise ValueError, s') /\
    pages EdgeCases.lib 3 (PagerNew OIssues "odd" []) Fixture.start
    = (Raise ValueError, s') /\
    net s' = net Fixture.start
             ++ [mkExchange OIssues (items_url EdgeCases.lib "odd")
                   (GiteeClient.add_access_token EdgeCases.lib (Some []))
                   (Reply (mkResponse "odd-1" (Some "x2") None))].
Proof.
  apply (total_page_that_is_no_number EdgeCases.lib OIssues "odd" []
           Fixture.start (mkResponse "odd-1" (Some "x2") None) 1%nat
           "x"%char "2" 2).
  - reflexivity.
  - reflexivity.
  - reflexivity.
Defined.

(** The list of two pages of the second server that has no header. *)
Lemma no_total_page_no_second_page_witness :
  exists g1 s1 s',
    GiteeClient.fetch_items_next EdgeCases.lib
      (PagerNew OIssues "plain" []) Fixture.start
    = (Ok (Some (text (mkResponse "plain-1" None (Some "cursor:plain-2")),
                 g1)), s1) /\
    GiteeClient.fetch_items_next EdgeCases.lib g1 s1
    = (Raise TypeError, s') /\
    pages EdgeCases.lib 3 (PagerNew OIssues "plain" []) Fixture.start
    = (Raise TypeError, s') /\
    net s' = net Fixture.start
             ++ [mkExchange OIssues (items_url EdgeCases.lib "plain")
                   (GiteeClient.add_access_token EdgeCases.lib (Some []))
                   (Reply (mkResponse "plain-1" None
                                      (Some "cursor:plain-2")));
                 mkExchange OIssues "cursor:plain-2"
                   (GiteeClient.add_access_token EdgeCases.lib (Some []))
                   (Reply (mkResponse "plain-2" None None))].
Proof.
  apply (no_total_page_no_second_page EdgeCases.lib OIssues "plain" []
           Fixture.start
           (mkResponse "plain-1" None (Some "cursor:plain-2"))
           (mkResponse "plain-2" None None) 1%nat 2%nat "cursor:plain-2" 1).
  - reflexivity.
  - left. reflexivity.
  - discriminate.
  - reflexivity.
  - reflexivity.
Defined.

(** The endpoints of the harvest of the pull requests of the first
    server, with user data excluded. *)
Lemma category_endpoints_only_witness :
  (exists ex,
      net (snd Fixture.filtered_run) = net Fixture.start ++ ex /\
      Forall (fun x => category_endpoints CATEGORY_PULL_REQUEST true
                         (ex_origin x) = true) ex) /\
  (category_endpoints CATEGORY_PULL_REQUEST true OUser = false ->
   users (snd Fixture.filtered_run) = users Fixture.start /\
   users_orgs (snd Fixture.filtered_run) = users_orgs Fixture.start).
Proof.
  apply (category_endpoints_only Fixture.lib true 10 CATEGORY_PULL_REQUEST
           0 4 [] Fixture.start (fst (fst Fixture.filtered_run))
           (snd (fst Fixture.filtered_run))).
  vm_compute. reflexivity.
Defined.

(** [mallory], before and after a harvest. *)
Lemma undecodable_user_is_remembered_witness :
  Gitee.__get_user EdgeCases.lib false (JStr "mallory") Fixture.start
  = (Raise JSONDecodeError, snd EdgeCases.mallory) /\
  Gitee.__get_user EdgeCases.lib false (JStr "mallory")
                   (snd EdgeCases.run_after_mallory)
  = (Raise JSONDecodeError, snd EdgeCases.run_after_mallory).
Proof.
  apply (undecodable_user_is_remembered EdgeCases.lib (JStr "mallory")
           Fixture.start "<html>" (snd EdgeCases.mallory) JSONDecodeError
           false 10 CATEGORY_REPO 0 4 []
           (fst (fst EdgeCases.run_after_mallory))
           (snd (fst EdgeCases.run_after_mallory))).
  - reflexivity.
  - vm_compute. reflexivity.
  - reflexivity.
  - vm_compute. reflexivity.
Defined.

(** [alice] and [bob], resolved as a list before a harvest, are resolved
    after it without a request. *)
Lemma resolved_users_are_not_requested_again_witness :
  Gitee.__get_users Fixture.lib false (JArr EdgeCases.two_users)
                    (snd EdgeCases.run_after_two_users)
  = (Ok (JArr [Fixture.alice;
               JObj [("login", JStr "bob"); ("organizations", JArr [])]]),
     snd EdgeCases.run_after_two_users).
Proof.
  apply (resolved_users_are_not_requested_again Fixture.lib
           EdgeCases.two_users Fixture.start _
           (snd EdgeCases.two_users_run) false 10 CATEGORY_ISSUE 0 4 []
           (fst (fst EdgeCases.run_after_two_users))
           (snd (fst EdgeCases.run_after_two_users))).
  - vm_compute. reflexivity.
  - vm_compute. reflexivity.
Defined.

(** [alice] and [bob] with user data excluded. *)
Lemma excluded_users_are_none_witness :
  Gitee.__get_users Fixture.lib true (JArr EdgeCases.two_users)
                    Fixture.start
  = (Ok (JArr [JNull; JNull]), Fixture.start) /\
  Gitee.__get_issue_collaborators Fixture.lib true
                                  (JArr EdgeCases.two_users) Fixture.start
  = (Ok (JArr [JNull; JNull]), Fixture.start).
Proof.
  apply (excluded_users_are_none Fixture.lib EdgeCases.two_users
           Fixture.start).
  repeat constructor; eexists; reflexivity.
Defined.

(** The review comment of pull request 51 has neither a user nor a
    [url]. *)
Lemma review_comment_without_user_and_url_raises_witness :
  fst (Gitee.__get_pull_review_comments EdgeCases.lib false 3 (JNum 51)
         Fixture.start)
  = Raise (KeyError "url").
Proof.
  rewrite (review_comment_without_user_and_url_raises EdgeCases.lib false 2
             (JNum 51) Fixture.start "review-comments-51"
             (PagerYielded OPullReviewComments
                [("per_page", JNum PER_PAGE); ("direction", JStr "asc")]
                (mkResponse "review-comments-51" None None) 1 None)
             (snd (GiteeClient.fetch_items_next EdgeCases.lib
                     (GiteeClient.pull_review_comments EdgeCases.lib
                        (JNum 51)) Fixture.start))
             [("id", JNum 1)] []).
  - reflexivity.
  - reflexivity.
  - eexists. split; reflexivity.
  - left. reflexivity.
  - reflexivity.
Defined.

(** The three requests of the three-page list of the first server. *)
Lemma pages_follow_the_links_witness :
  exists ex,
    net (snd (pages Fixture.lib 4 (PagerNew OIssues "three" [])
                    Fixture.start))
    = net Fixture.start ++ ex /\
    linked ex /\
    (forall e ex', ex = e :: ex' ->
                   ex_url e = items_url Fixture.lib "three").
Proof.
  apply (pages_follow_the_links Fixture.lib OIssues "three" [] 4
           Fixture.start
           (fst (pages Fixture.lib 4 (PagerNew OIssues "three" [])
                       Fixture.start))).
  vm_compute. reflexivity.
Defined.

(** The issues of the first server have no assignee and no comments. *)
Lemma empty_issue_fields_keep_their_defaults_witness :
  Forall (fun it =>
            exists m, it = JObj m /\
              (forall v, dict_get "user" m = Some v -> truthy v = false ->
                         dict_get "user_data" m = Some (JObj [])) /\
              (forall v, dict_get "assignee" m = Some v ->
                         truthy v = false ->
                         dict_get "assignee_data" m = Some (JObj [])) /\
              (forall v, dict_get "comments" m = Some v ->
                         truthy v = false ->
                         dict_get "comments_data" m = Some (JArr [])))
         (fst (fst Fixture.issues_run)).
Proof.
  apply (empty_issue_fields_keep_their_defaults Fixture.lib false 10 0 4
           Fixture.start _ (snd (fst Fixture.issues_run))
           (snd Fixture.issues_run)).
  vm_compute. reflexivity.
Defined.

(** The requests of the sub-fetches of issue 3 and of pull request 42 of
    the first server. *)
Lemma sub_fetch_requests_witness :
  requests_all
    (fun e => ex_origin e = OIssueComments ->
              ex_payload e = GiteeClient.add_access_token Fixture.lib
                               (Some [("per_page", JNum 100)]))
    Fixture.start
    (snd (Gitee.__get_issue_comments Fixture.lib false 10 (JNum 3)
            Fixture.start)) /\
  requests_all
    (fun e => ex_origin e = OPullCommits ->
              ex_payload e = GiteeClient.add_access_token Fixture.lib
                               (Some [("per_page", JNum 100)]))
    Fixture.start
    (snd (Gitee.__get_pull_commits Fixture.lib 10 (JNum 42) Fixture.start)) /\
  requests_all
    (fun e => ex_origin e = OPullReviewComments ->
              ex_payload e = GiteeClient.add_access_token Fixture.lib
                               (Some [("per_page", JNum 100);
                                      ("direction", JStr "asc")]))
    Fixture.start (snd Fixture.review_comments_run) /\
  requests_all
    (fun e => ex_origin e = OPullActionLogs ->
              ex_payload e = GiteeClient.add_access_token Fixture.lib
                               (Some []))
    Fixture.start
    (snd (Gitee.__get_pull_merged_by Fixture.lib 10 (JNum 42)
            Fixture.start)).
Proof.
  split; [|split; [|split]].
  - apply (proj1 (sub_fetch_requests Fixture.lib false 10 (JNum 3)
                    Fixture.start
                    (fst (Gitee.__get_issue_comments Fixture.lib false 10
                            (JNum 3) Fixture.start)) _)).
    vm_compute. reflexivity.
  - apply (proj1 (proj2 (sub_fetch_requests Fixture.lib false 10 (JNum 42)
                           Fixture.start
                           (fst (Gitee.__get_pull_commits Fixture.lib 10
                                   (JNum 42) Fixture.start)) _))).
    vm_compute. reflexivity.
  - apply (proj1 (proj2 (proj2 (sub_fetch_requests Fixture.lib false 10
                                  (JNum 42) Fixture.start
                                  (fst Fixture.review_comments_run) _)))).
    vm_compute. reflexivity.
  - apply (proj2 (proj2 (proj2 (sub_fetch_requests Fixture.lib false 10
                                  (JNum 42) Fixture.start
                                  (fst (Gitee.__get_pull_merged_by
                                          Fixture.lib 10 (JNum 42)
                                          Fixture.start)) _)))).
    vm_compute. reflexivity.
Defined.
